(** * JIRA feature extract: the export pipeline

    A shallow embedding of [src/services/export-service.ts] (class
    [ExportService]) and of the XML exporter (class [XmlExporter]), with the
    properties of the export pipeline proved about it.

    Issues arrive from the JIRA REST API as decoded JSON, so they are modelled
    as untyped JavaScript values ([JsVal]): the TypeScript interfaces are
    erased at run time and a missing sub-object makes a projector throw a
    [TypeError].  The export configuration is application state and is
    modelled as a record; its [format] is a plain string because [export]
    itself has a [default] branch for values outside the three formats. *)

From Stdlib Require Import List String Ascii Bool Arith ZArith QArith Qround Lia.
From Stdlib Require Import DecimalString Sorted.
Import ListNotations.

Set Warnings "-register-all".
Open Scope list_scope.
Open Scope string_scope.

(** ** JavaScript values *)

(** A finite number is a rational (every finite double is one); arithmetic on
    finite numbers is exact: the binary64 rounding of a result is not
    modelled, and neither is the sign of zero. *)
Inductive Number : Type :=
| Fin (q : Q)
| NaN
| Inf (negative : bool).

Inductive JsVal : Type :=
| JUndefined
| JNull
| JBool (b : bool)
| JNum (n : Number)
| JStr (s : string)
| JArr (items : list JsVal)
| JObj (props : list (string * JsVal)).

(** What a [throw] carries: an [Error] instance (a [TypeError] is one) with
    its message, or any other value. *)
Inductive Exn : Type :=
| ErrorObj (message : string)
| Thrown (v : JsVal).

Inductive result (A : Type) : Type :=
| Ok (a : A)
| Throw (e : Exn).
Arguments Ok {A} a.
Arguments Throw {A} e.

Definition bind {A B : Type} (r : result A) (k : A -> result B) : result B :=
  match r with
  | Ok a => k a
  | Throw e => Throw e
  end.

Declare Scope js_scope.
Delimit Scope js_scope with js.
Notation "x <- r ;; k" := (bind r (fun x => k))
  (at level 100, r at next level, right associativity) : js_scope.
Open Scope js_scope.

Fixpoint mapM {A B : Type} (f : A -> result B) (l : list A) : result (list B) :=
  match l with
  | [] => Ok []
  | x :: tl => y <- f x ;; ys <- mapM f tl ;; Ok (y :: ys)
  end.

Definition of_nat (n : nat) : JsVal := JNum (Fin (inject_Z (Z.of_nat n))).

Definition nullish (v : JsVal) : bool :=
  match v with
  | JUndefined | JNull => true
  | _ => false
  end.

(** ToBoolean. *)
Definition truthy (v : JsVal) : bool :=
  match v with
  | JUndefined | JNull => false
  | JBool b => b
  | JNum (Fin q) => negb (Qeq_bool q 0)
  | JNum NaN => false
  | JNum (Inf _) => true
  | JStr s => negb (s =? "")
  | JArr _ | JObj _ => true
  end.

(** [typeof v === 'object' && v !== null]. *)
Definition is_object (v : JsVal) : bool :=
  match v with
  | JArr _ | JObj _ => true
  | _ => false
  end.

Definition is_undefined (v : JsVal) : bool :=
  match v with
  | JUndefined => true
  | _ => false
  end.

Definition is_null (v : JsVal) : bool :=
  match v with
  | JNull => true
  | _ => false
  end.

Fixpoint lookup (k : string) (props : list (string * JsVal)) : option JsVal :=
  match props with
  | [] => None
  | (k', v) :: tl => if k' =? k then Some v else lookup k tl
  end.

(** [obj[k] = v]: an existing key keeps its place, a new one goes last. *)
Fixpoint obj_set (props : list (string * JsVal)) (k : string) (v : JsVal)
  : list (string * JsVal) :=
  match props with
  | [] => [(k, v)]
  | (k', v') :: tl => if k' =? k then (k', v) :: tl else (k', v') :: obj_set tl k v
  end.

(** The properties of a plain object, in insertion order. *)
Definition Props : Type := list (string * JsVal).

(** [Object.keys] of a plain object. *)
Definition Object_keys (props : Props) : list string :=
  map fst props.

Definition quote (s : string) : string := "'" ++ s ++ "'".

Definition type_error_read (v : JsVal) (k : string) : Exn :=
  ErrorObj ("Cannot read properties of "
            ++ (if is_null v then "null" else "undefined")
            ++ " (reading " ++ quote k ++ ")").

Definition type_error_call (what : string) : Exn :=
  ErrorObj (what ++ " is not a function").

(** [v.k] on a value that is neither [undefined] nor [null], for the data
    properties the exporters read (none of them is an array index or a
    method): a missing property is [undefined]. *)
Definition prop (v : JsVal) (k : string) : JsVal :=
  match v with
  | JObj props => match lookup k props with Some x => x | None => JUndefined end
  | JArr items => if k =? "length" then of_nat (List.length items) else JUndefined
  | JStr s => if k =? "length" then of_nat (String.length s) else JUndefined
  | _ => JUndefined
  end.

(** [v.k]: reading a property of [undefined] or [null] throws a [TypeError]. *)
Definition getp (v : JsVal) (k : string) : result JsVal :=
  if nullish v then Throw (type_error_read v k) else Ok (prop v k).

(** [e.k] where [e] is itself an expression that may throw. *)
Definition getr (e : result JsVal) (k : string) : result JsVal :=
  v <- e ;; getp v k.
Infix "$." := getr (at level 25, left associativity) : js_scope.

(** [e?.rest]: the rest of the chain is skipped on [undefined] and [null]. *)
Definition optChain (e : result JsVal) (rest : JsVal -> result JsVal) : result JsVal :=
  v <- e ;; if nullish v then Ok JUndefined else rest v.

(** [a || b]: [b] is evaluated only when [a] is falsy. *)
Definition js_or (a b : result JsVal) : result JsVal :=
  v <- a ;; if truthy v then Ok v else b.
Infix "<||>" := js_or (at level 65, left associativity) : js_scope.

(** An object literal: the property values are evaluated in order and the
    first one that throws aborts the literal. *)
Fixpoint mkProps (l : list (string * result JsVal)) : result (list (string * JsVal)) :=
  match l with
  | [] => Ok []
  | (k, e) :: tl => v <- e ;; rest <- mkProps tl ;; Ok ((k, v) :: rest)
  end.

Definition mkObj (l : list (string * result JsVal)) : result JsVal :=
  props <- mkProps l ;; Ok (JObj props).

(** [arr.map(f)]: [what] is the text of the callee, for the error message. *)
Definition js_map (arr : JsVal) (what : string) (f : JsVal -> result JsVal)
  : result JsVal :=
  match arr with
  | JArr items => ys <- mapM f items ;; Ok (JArr ys)
  | JUndefined | JNull => Throw (type_error_read arr "map")
  | _ => Throw (type_error_call what)
  end.

(** [Math.round]: to the nearest integer, a tie going up. *)
Definition Math_round (x : Q) : Z := Qfloor (x + (1 # 2)).

Definition num_add (a b : Number) : Number :=
  match a, b with
  | Fin x, Fin y => Fin (Qred (x + y))
  | NaN, _ | _, NaN => NaN
  | Inf s, Inf s' => if Bool.eqb s s' then Inf s else NaN
  | Inf s, Fin _ | Fin _, Inf s => Inf s
  end.

(** [a / d] and [a * d] for a positive constant [d]. *)
Definition num_div (a : Number) (d : Q) : Number :=
  match a with
  | Fin x => Fin (Qred (x / d))
  | _ => a
  end.

Definition num_mul (a : Number) (d : Q) : Number :=
  match a with
  | Fin x => Fin (Qred (x * d))
  | _ => a
  end.

Definition num_round (a : Number) : Number :=
  match a with
  | Fin x => Fin (inject_Z (Math_round x))
  | _ => a
  end.

(** ** The host platform

    What the exporters take from the JavaScript engine, the browser and the
    two serialisation libraries, none of which is code of the repository. *)
Class Platform : Type := {
  (** the successive readings of the system clock, in milliseconds *)
  clock : nat -> Z;
  (** [Date.prototype.toISOString] *)
  toISOString : Z -> string;
  (** [Number.prototype.toString] of a finite number *)
  Number_toString : Q -> string;
  (** the numeric value of a string (ToNumber) *)
  StringToNumber : string -> Number;
  (** [JSON.stringify(v)] of an array or a plain object *)
  JSON_stringify : JsVal -> string;
  (** [JSON.stringify(v, null, 2)] *)
  JSON_stringify_indented : JsVal -> result string;
  (** [XMLBuilder.build] of fast-xml-parser, with the builder's options *)
  XMLBuilder_build : JsVal -> result string
}.

(** ** The export configuration ([ExportConfig]) *)
Record ExportConfig : Type := {
  format : string;
  includeFields : list string;
  includeComments : bool;
  includeAttachments : bool;
  includeWorklog : bool;
  includeSubtasks : bool;
  includeLinks : bool
}.

(** ** A platform and issues to run the model on

    [demo] fixes the host functions for the examples: a clock that advances
    by a quarter of a second per reading, one fixed date, and serialisers
    that cover integers and strings without control characters. *)
Module Demo.

Definition digits (z : Z) : string :=
  match z with
  | Z0 => "0"
  | Zpos p => NilZero.string_of_uint (Pos.to_uint p)
  | Zneg p => "-" ++ NilZero.string_of_uint (Pos.to_uint p)
  end.

Definition number_text (q : Q) : string :=
  let r := Qred q in
  match Qden r with
  | xH => digits (Qnum r)
  | d => digits (Qnum r) ++ "/" ++ digits (Zpos d)
  end.

Definition dq : string := String (ascii_of_nat 34) EmptyString.

Fixpoint escape (s : string) : string :=
  match s with
  | EmptyString => EmptyString
  | String c tl =>
      if (Ascii.eqb c (ascii_of_nat 34) || Ascii.eqb c (ascii_of_nat 92))%bool
      then String (ascii_of_nat 92) (String c (escape tl))
      else String c (escape tl)
  end.

Fixpoint json (v : JsVal) : string :=
  match v with
  | JUndefined | JNull => "null"
  | JBool b => if b then "true" else "false"
  | JNum (Fin q) => number_text q
  | JNum _ => "null"
  | JStr s => dq ++ escape s ++ dq
  | JArr items => "[" ++ String.concat "," (map json items) ++ "]"
  | JObj props =>
      "{" ++ String.concat ","
               ((fix members (l : list (string * JsVal)) : list string :=
                   match l with
                   | [] => []
                   | (k, x) :: tl =>
                       if is_undefined x then members tl
                       else (dq ++ escape k ++ dq ++ ":" ++ json x) :: members tl
                   end) props)
      ++ "}"
  end.

#[local] Instance demo : Platform := {|
  clock := fun n => (1700000000000 + 250 * Z.of_nat n)%Z;
  toISOString := fun _ => "2023-11-14T22:13:20.000Z";
  Number_toString := number_text;
  StringToNumber := fun _ => NaN;
  JSON_stringify := json;
  JSON_stringify_indented := fun v => Ok (json v);
  XMLBuilder_build := fun v => Ok ("<?xml version=" ++ dq ++ "1.0" ++ dq ++ "?>")
|}.

(** The least an issue must carry for the three projectors to go through:
    the sub-objects they read unconditionally. *)
Definition bareFields : Props :=
  [("summary", JStr "S");
   ("issuetype", JObj [("name", JStr "Task")]);
   ("project", JObj [("key", JStr "PROJ")]);
   ("status", JObj [("name", JStr "Open"); ("statusCategory", JObj [])])].

Definition issueWith (key : string) (extra : Props) : JsVal :=
  JObj [("id", JStr "1"); ("key", JStr key);
        ("fields", JObj (bareFields ++ extra)%list)].

Definition bare : JsVal := issueWith "PROJ-2" [].

Definition parentRef : JsVal :=
  JObj [("id", JStr "10"); ("key", JStr "PROJ-1");
        ("fields", JObj [("summary", JStr "Parent")])].

Definition config (fmt : string) : ExportConfig :=
  {| format := fmt; includeFields := [];
     includeComments := false; includeAttachments := false;
     includeWorklog := false; includeSubtasks := false; includeLinks := false |}.

End Demo.

(** Inputs for the concrete runs at the end of the file. *)
Module Runs.

(** Twelve well-formed issues followed by one without [fields]. *)
Definition thirteen : list JsVal := (repeat Demo.bare 12 ++ [JObj []])%list.

Definition noFields : Exn :=
  ErrorObj "Cannot read properties of undefined (reading 'summary')".

Definition withParent : JsVal := Demo.issueWith "PROJ-2" [("parent", Demo.parentRef)].

Definition withCustom : JsVal :=
  Demo.issueWith "PROJ-3"
    [("customfield_10001", JArr [JObj [("value", JStr "x")]]);
     ("team", JStr "core")].

Definition withParentAndCustom : JsVal :=
  Demo.issueWith "PROJ-4"
    [("parent", Demo.parentRef);
     ("customfield_10001", JArr [JObj [("value", JStr "x")]])].

(** The five flags off, two keys in the include list. *)
Definition customConfig (fmt : string) : ExportConfig :=
  {| format := fmt; includeFields := ["team"; "customfield_10001"];
     includeComments := false; includeAttachments := false;
     includeWorklog := false; includeSubtasks := false; includeLinks := false |}.

End Runs.

(** More inputs for the concrete runs. *)
Module Samples.

Definition author : JsVal := JObj [("displayName", JStr "Ann")].

Definition entry (seconds : JsVal) : JsVal :=
  JObj [("id", JStr "7"); ("author", author); ("timeSpentSeconds", seconds)].

(** An issue with two labels, two components and two worklog entries. *)
Definition logged : JsVal :=
  Demo.issueWith "PROJ-5"
    [("labels", JArr [JStr "ui"; JStr "bug"]);
     ("components", JArr [JObj [("name", JStr "Web")]; JObj [("name", JStr "API")]]);
     ("worklog", JObj [("total", of_nat 2);
                       ("worklogs", JArr [entry (of_nat 60); entry (of_nat 120)])])].

(** The same issue with a third worklog entry that has no seconds. *)
Definition partlyLogged : JsVal :=
  Demo.issueWith "PROJ-6"
    [("worklog", JObj [("total", of_nat 3);
                       ("worklogs", JArr [entry (of_nat 60); entry JUndefined;
                                          entry (of_nat 120)])])].

Definition worklogConfig (fmt : string) : ExportConfig :=
  {| format := fmt; includeFields := [];
     includeComments := false; includeAttachments := false;
     includeWorklog := true; includeSubtasks := false; includeLinks := false |}.

End Samples.

(** ** The rest of the host

    What the JIRA client, the storage service and the stores take from the
    browser besides the [Platform] of the exporters. *)
Class Browser : Type := {
  (** the [Date] object of a time value, as a JavaScript value *)
  Date_object : Z -> JsVal;
  (** [new Date(v)] *)
  Date_from : JsVal -> JsVal;
  (** [JSON.parse] *)
  JSON_parse : string -> result JsVal;
  (** whether a storage that holds [items] takes the item, or [setItem]
      throws instead (the quota is exceeded) *)
  storage_accepts : list (string * string) -> string -> string -> bool;
  (** what [setItem] throws then *)
  QuotaExceededError : Exn
}.

(** A browser for the examples: dates are kept as the text that
    [JSON.stringify] gives them, [JSON.parse] reads the documents that
    [Demo.json] writes (no white space, whole numbers), and a storage takes
    items of up to 4096 characters. *)
Module DemoBrowser.

Definition is_digit (c : ascii) : bool :=
  let n := nat_of_ascii c in ((48 <=? n) && (n <=? 57))%nat.

(** The digits at the head of [s], as a number, and what follows them. *)
Fixpoint digits (s : string) (acc : Z) : Z * string :=
  match s with
  | String c tl =>
      if is_digit c
      then digits tl (10 * acc + Z.of_nat (nat_of_ascii c - 48))%Z
      else (acc, s)
  | EmptyString => (acc, s)
  end.

(** The characters of a string literal up to its closing quote. *)
Fixpoint text (s : string) : option (string * string) :=
  match s with
  | EmptyString => None
  | String c tl =>
      if Ascii.eqb c (ascii_of_nat 34) then Some (EmptyString, tl)
      else if Ascii.eqb c (ascii_of_nat 92)
      then match tl with
           | String e tl' =>
               match text tl' with
               | Some (t, rest) => Some (String e t, rest)
               | None => None
               end
           | EmptyString => None
           end
      else match text tl with
           | Some (t, rest) => Some (String c t, rest)
           | None => None
           end
  end.

(** [s] without the prefix [p], when it starts with it. *)
Fixpoint after (p s : string) : option string :=
  match p, s with
  | EmptyString, _ => Some s
  | String a p', String b s' => if Ascii.eqb a b then after p' s' else None
  | _, _ => None
  end.

Definition quote_char : ascii := ascii_of_nat 34.

Fixpoint value (fuel : nat) (s : string) : option (JsVal * string) :=
  match fuel with
  | O => None
  | S fuel' =>
      match s with
      | String "n" _ => option_map (pair JNull) (after "null" s)
      | String "t" _ => option_map (pair (JBool true)) (after "true" s)
      | String "f" _ => option_map (pair (JBool false)) (after "false" s)
      | String "-" tl =>
          let (z, rest) := digits tl 0 in Some (JNum (Fin (inject_Z (- z))), rest)
      | String "[" (String "]" rest) => Some (JArr [], rest)
      | String "[" tl => items fuel' tl []
      | String "{" (String "}" rest) => Some (JObj [], rest)
      | String "{" tl => members fuel' tl []
      | String c tl =>
          if Ascii.eqb c quote_char
          then match text tl with
               | Some (t, rest) => Some (JStr t, rest)
               | None => None
               end
          else if is_digit c
          then let (z, rest) := digits s 0 in Some (JNum (Fin (inject_Z z)), rest)
          else None
      | EmptyString => None
      end
  end
with items (fuel : nat) (s : string) (acc : list JsVal) : option (JsVal * string) :=
  match fuel with
  | O => None
  | S fuel' =>
      match value fuel' s with
      | Some (v, String "," rest) => items fuel' rest (acc ++ [v])
      | Some (v, String "]" rest) => Some (JArr (acc ++ [v]), rest)
      | _ => None
      end
  end
with members (fuel : nat) (s : string) (acc : list (string * JsVal))
  : option (JsVal * string) :=
  match fuel with
  | O => None
  | S fuel' =>
      match s with
      | String c tl =>
          if Ascii.eqb c quote_char
          then match text tl with
               | Some (k, String ":" rest) =>
                   match value fuel' rest with
                   | Some (v, String "," rest') => members fuel' rest' (acc ++ [(k, v)])
                   | Some (v, String "}" rest') => Some (JObj (acc ++ [(k, v)]), rest')
                   | _ => None
                   end
               | _ => None
               end
          else None
      | EmptyString => None
      end
  end.

Definition parse (s : string) : result JsVal :=
  match value (S (String.length s)) s with
  | Some (v, EmptyString) => Ok v
  | _ => Throw (ErrorObj "Unexpected token in JSON")
  end.

#[local] Instance demo : Browser := {|
  Date_object := fun z => JStr (@toISOString Demo.demo z);
  Date_from := fun v => v;
  JSON_parse := parse;
  storage_accepts := fun _ _ v => (String.length v <=? 4096)%nat;
  QuotaExceededError := ErrorObj "The quota has been exceeded."
|}.

End DemoBrowser.

(** Errors of axios and replies of a server, for the examples. *)
Module Replies.

(** What JIRA answers to a request with invalid fields: no message, the
    errors by field. *)
Definition fieldErrors : JsVal :=
  JObj [("message", JStr "Request failed with status code 400");
        ("response",
         JObj [("status", of_nat 400);
               ("data", JObj [("errorMessages", JArr []);
                              ("errors", JObj [("jql", JStr "The value is invalid")])])])].

Definition badQuery : JsVal :=
  JObj [("message", JStr "Request failed with status code 400");
        ("response",
         JObj [("status", of_nat 400);
               ("data", JObj [("errorMessages",
                               JArr [JStr "Error in the JQL Query"; JStr "line 1"])])])].

Definition page (total : Z) : JsVal :=
  JObj [("status", of_nat 200);
        ("data", JObj [("total", JNum (Fin (inject_Z total))); ("issues", JArr [])])].

End Replies.

(** Values to store: a connection as the form hands it over, and query
    templates. *)
Module Stored.

Definition connection : JsVal :=
  JObj [("serverUrl", JStr "https://jira.example.com");
        ("email", JStr "me@example.com"); ("token", JStr "s3cret");
        ("isConnected", JBool true)].

Definition template (id jql : string) : JsVal :=
  JObj [("id", JStr id); ("name", JStr ("Template " ++ id)); ("jql", JStr jql)].

Definition templates : JsVal :=
  JArr [template "a" "project = A"; template "b" "project = B";
        template "c" "project = C"].

End Stored.

Section Exporters.
Context {P : Platform}.

(** ToString. *)
Fixpoint ToString (v : JsVal) : string :=
  match v with
  | JUndefined => "undefined"
  | JNull => "null"
  | JBool b => if b then "true" else "false"
  | JNum (Fin q) => Number_toString q
  | JNum NaN => "NaN"
  | JNum (Inf s) => if s then "-Infinity" else "Infinity"
  | JStr s => s
  | JArr items =>
      String.concat "," (map (fun x => if nullish x then "" else ToString x) items)
  | JObj _ => "[object Object]"
  end.

(** ToPrimitive: arrays and plain objects become their string. *)
Definition ToPrimitive (v : JsVal) : JsVal :=
  if is_object v then JStr (ToString v) else v.

(** ToNumber. *)
Definition ToNumber (v : JsVal) : Number :=
  match ToPrimitive v with
  | JUndefined => NaN
  | JNull => Fin 0
  | JBool b => Fin (if b then 1 else 0)
  | JNum n => n
  | JStr s => StringToNumber s
  | _ => NaN
  end.

Definition is_string (v : JsVal) : bool :=
  match v with
  | JStr _ => true
  | _ => false
  end.

(** [a + b]. *)
Definition js_add (a b : JsVal) : JsVal :=
  let pa := ToPrimitive a in
  let pb := ToPrimitive b in
  if is_string pa || is_string pb
  then JStr (ToString pa ++ ToString pb)
  else JNum (num_add (ToNumber pa) (ToNumber pb)).

(** [arr.join(sep)]. *)
Definition js_join (arr : JsVal) (what sep : string) : result JsVal :=
  match arr with
  | JArr items =>
      Ok (JStr (String.concat sep
                  (map (fun x => if nullish x then "" else ToString x) items)))
  | JUndefined | JNull => Throw (type_error_read arr "join")
  | _ => Throw (type_error_call what)
  end.

Fixpoint foldM {A B : Type} (f : A -> B -> result A) (l : list B) (a : A) : result A :=
  match l with
  | [] => Ok a
  | x :: tl => a' <- f a x ;; foldM f tl a'
  end.

(** [arr.reduce(f, init)]. *)
Definition js_reduce (arr : JsVal) (what : string)
  (f : JsVal -> JsVal -> result JsVal) (init : JsVal) : result JsVal :=
  match arr with
  | JArr items => foldM f items init
  | JUndefined | JNull => Throw (type_error_read arr "reduce")
  | _ => Throw (type_error_call what)
  end.

(** [c ? t : e]. *)
Definition cond (c : result JsVal) (t e : result JsVal) : result JsVal :=
  v <- c ;; if truthy v then t else e.

(** ** XmlExporter.normalizeCustomField *)

Definition or_val (a b : JsVal) : JsVal := if truthy a then a else b.

Definition normalizeCustomField (value : JsVal) : JsVal :=
  match value with
  | JArr items =>
      JArr (map (fun item =>
                   if is_object item
                   then or_val (prop item "value")
                          (or_val (prop item "name")
                             (or_val (prop item "displayName")
                                (JStr (JSON_stringify item))))
                   else item) items)
  | JObj _ =>
      if negb (is_undefined (prop value "value")) then prop value "value"
      else if negb (is_undefined (prop value "name")) then prop value "name"
      else if negb (is_undefined (prop value "displayName")) then prop value "displayName"
      else JStr (JSON_stringify value)
  | _ => value
  end.


(** ** XmlExporter.convertIssueToXml

    The three projectors return the properties of the object they build. *)

Definition push_if (c : bool) (k : string) (v : result JsVal) (obj : Props)
  : result Props :=
  if c then x <- v ;; Ok (obj_set obj k x) else Ok obj.

(** The loop over [config.includeFields] that fills [customFields]. *)
Definition collectCustomFields (fields : result JsVal) (keys : list string)
  : result Props :=
  foldM (fun customFields fieldKey =>
           if String.prefix "customfield_" fieldKey
           then fieldValue <- fields $. fieldKey ;;
                if negb (is_undefined fieldValue) && negb (is_null fieldValue)
                then Ok (obj_set customFields fieldKey (normalizeCustomField fieldValue))
                else Ok customFields
           else Ok customFields)
        keys [].

(** The object literal that opens [convertIssueToXml]. *)
Definition xmlCore (issue : JsVal) : result Props :=
  let fields := Ok issue $. "fields" in
  let version_item := fun v =>
    mkObj [("@_id", Ok v $. "id"); ("#text", Ok v $. "name")] in
  mkProps [
    ("@_id", Ok issue $. "id");
    ("title", fields $. "summary");
    ("link", Ok issue $. "self");
    ("project-key", fields $. "project" $. "key");
    ("description", fields $. "description" <||> Ok (JStr ""));
    ("environment", fields $. "environment" <||> Ok (JStr ""));
    ("key", Ok issue $. "key");
    ("summary", fields $. "summary");
    ("type", mkObj [
       ("@_id", fields $. "issuetype" $. "id");
       ("@_iconUrl", fields $. "issuetype" $. "iconUrl");
       ("#text", fields $. "issuetype" $. "name")]);
    ("priority", cond (fields $. "priority")
       (mkObj [
          ("@_id", fields $. "priority" $. "id");
          ("@_iconUrl", fields $. "priority" $. "iconUrl");
          ("#text", fields $. "priority" $. "name")])
       (Ok JUndefined));
    ("status", mkObj [
       ("@_id", fields $. "status" $. "id");
       ("@_description", fields $. "status" $. "description");
       ("#text", fields $. "status" $. "name")]);
    ("resolution", cond (fields $. "resolution")
       (mkObj [
          ("@_id", fields $. "resolution" $. "id");
          ("#text", fields $. "resolution" $. "name")])
       (Ok JUndefined));
    ("assignee", cond (fields $. "assignee")
       (mkObj [
          ("@_username", fields $. "assignee" $. "name" <||> fields $. "assignee" $. "key");
          ("#text", fields $. "assignee" $. "displayName")])
       (Ok JUndefined));
    ("reporter", cond (fields $. "reporter")
       (mkObj [
          ("@_username", fields $. "reporter" $. "name" <||> fields $. "reporter" $. "key");
          ("#text", fields $. "reporter" $. "displayName")])
       (Ok JUndefined));
    ("created", fields $. "created");
    ("updated", fields $. "updated");
    ("resolved", fields $. "resolutiondate");
    ("version",
       optChain (fields $. "versions")
         (fun vs => js_map vs "issue.fields.versions?.map" version_item)
       <||> Ok (JArr []));
    ("fix-version",
       optChain (fields $. "fixVersions")
         (fun vs => js_map vs "issue.fields.fixVersions?.map" version_item)
       <||> Ok (JArr []));
    ("component",
       optChain (fields $. "components")
         (fun cs => js_map cs "issue.fields.components?.map" version_item)
       <||> Ok (JArr []));
    ("labels", mkObj [("label", fields $. "labels" <||> Ok (JArr []))]);
    ("due-date", fields $. "duedate")].

Definition convertIssueToXml (issue : JsVal) (config : ExportConfig) : result Props :=
  let fields := Ok issue $. "fields" in
  let linked := fun link => Ok link $. "outwardIssue" <||> Ok link $. "inwardIssue" in
  xmlIssue <- xmlCore issue ;;
  (* Add comments if requested *)
  comments <- (if includeComments config
               then optChain (fields $. "comment") (fun c => getp c "comments")
               else Ok (JBool false)) ;;
  xmlIssue <- push_if (truthy comments) "comments"
    (mkObj [
       ("@_total", fields $. "comment" $. "total");
       ("comment", js_map comments "issue.fields.comment.comments.map" (fun comment =>
          mkObj [
            ("@_id", Ok comment $. "id");
            ("@_author", Ok comment $. "author" $. "displayName");
            ("@_created", Ok comment $. "created");
            ("@_updated", Ok comment $. "updated");
            ("#text", Ok comment $. "body")]))])
    xmlIssue ;;
  (* Add attachments if requested *)
  attachment <- (if includeAttachments config then fields $. "attachment"
                 else Ok (JBool false)) ;;
  xmlIssue <- push_if (truthy attachment) "attachments"
    (mkObj [
       ("@_total", Ok attachment $. "length");
       ("attachment", js_map attachment "issue.fields.attachment.map" (fun attachment =>
          mkObj [
            ("@_id", Ok attachment $. "id");
            ("@_name", Ok attachment $. "filename");
            ("@_size", Ok attachment $. "size");
            ("@_author", Ok attachment $. "author" $. "displayName");
            ("@_created", Ok attachment $. "created");
            ("#text", Ok attachment $. "content")]))])
    xmlIssue ;;
  (* Add worklogs if requested *)
  worklogs <- (if includeWorklog config
               then optChain (fields $. "worklog") (fun w => getp w "worklogs")
               else Ok (JBool false)) ;;
  xmlIssue <- push_if (truthy worklogs) "worklogs"
    (mkObj [
       ("@_total", fields $. "worklog" $. "total");
       ("worklog", js_map worklogs "issue.fields.worklog.worklogs.map" (fun worklog =>
          mkObj [
            ("@_id", Ok worklog $. "id");
            ("@_author", Ok worklog $. "author" $. "displayName");
            ("@_created", Ok worklog $. "created");
            ("@_started", Ok worklog $. "started");
            ("@_timeSpent", Ok worklog $. "timeSpent");
            ("@_timeSpentSeconds", Ok worklog $. "timeSpentSeconds");
            ("#text", Ok worklog $. "comment" <||> Ok (JStr ""))]))])
    xmlIssue ;;
  (* Add subtasks if requested *)
  subtasks <- (if includeSubtasks config then fields $. "subtasks"
               else Ok (JBool false)) ;;
  xmlIssue <- push_if (truthy subtasks) "subtasks"
    (mkObj [
       ("@_total", Ok subtasks $. "length");
       ("subtask", js_map subtasks "issue.fields.subtasks.map" (fun subtask =>
          mkObj [
            ("@_id", Ok subtask $. "id");
            ("@_key", Ok subtask $. "key");
            ("@_type", Ok subtask $. "fields" $. "issuetype" $. "name");
            ("@_status", Ok subtask $. "fields" $. "status" $. "name");
            ("#text", Ok subtask $. "fields" $. "summary")]))])
    xmlIssue ;;
  (* Add parent if it exists *)
  parent <- fields $. "parent" ;;
  xmlIssue <- push_if (truthy parent) "parent"
    (mkObj [
       ("@_id", Ok parent $. "id");
       ("@_key", Ok parent $. "key");
       ("#text", Ok parent $. "fields" $. "summary")])
    xmlIssue ;;
  (* Add issue links if requested *)
  issuelinks <- (if includeLinks config then fields $. "issuelinks"
                 else Ok (JBool false)) ;;
  xmlIssue <- push_if (truthy issuelinks) "issuelinks"
    (mkObj [
       ("@_total", Ok issuelinks $. "length");
       ("issuelink", js_map issuelinks "issue.fields.issuelinks.map" (fun link =>
          mkObj [
            ("@_id", Ok link $. "id");
            ("@_type", Ok link $. "type" $. "name");
            ("@_direction", cond (Ok link $. "outwardIssue")
                              (Ok (JStr "outward")) (Ok (JStr "inward")));
            ("@_linktype", cond (Ok link $. "outwardIssue")
                             (Ok link $. "type" $. "outward")
                             (Ok link $. "type" $. "inward"));
            ("issuekey", optChain (linked link) (fun i => getp i "key"));
            ("summary", optChain (linked link) (fun i => Ok i $. "fields" $. "summary"))]))])
    xmlIssue ;;
  (* Add custom fields if they're in the include list *)
  xmlIssue <- (if (0 <? List.length (includeFields config))%nat
               then customFields <- collectCustomFields fields (includeFields config) ;;
                    push_if (0 <? List.length (Object_keys customFields))%nat
                      "customfields" (Ok (JObj customFields)) xmlIssue
               else Ok xmlIssue) ;;
  Ok xmlIssue.

(** ** ExportService.processIssueForJson *)

(** The object literal that opens [processIssueForJson]. *)
Definition jsonCore (issue : JsVal) : result Props :=
  let fields := Ok issue $. "fields" in
  let version_item := fun v =>
    mkObj [("id", Ok v $. "id"); ("name", Ok v $. "name");
           ("releaseDate", Ok v $. "releaseDate")] in
  mkProps [
    ("id", Ok issue $. "id");
    ("key", Ok issue $. "key");
    ("self", Ok issue $. "self");
    ("summary", fields $. "summary");
    ("description", fields $. "description");
    ("issueType", mkObj [
       ("id", fields $. "issuetype" $. "id");
       ("name", fields $. "issuetype" $. "name");
       ("subtask", fields $. "issuetype" $. "subtask")]);
    ("project", mkObj [
       ("id", fields $. "project" $. "id");
       ("key", fields $. "project" $. "key");
       ("name", fields $. "project" $. "name")]);
    ("status", mkObj [
       ("id", fields $. "status" $. "id");
       ("name", fields $. "status" $. "name");
       ("category", fields $. "status" $. "statusCategory" $. "name")]);
    ("priority", cond (fields $. "priority")
       (mkObj [
          ("id", fields $. "priority" $. "id");
          ("name", fields $. "priority" $. "name")])
       (Ok JNull));
    ("assignee", cond (fields $. "assignee")
       (mkObj [
          ("displayName", fields $. "assignee" $. "displayName");
          ("emailAddress", fields $. "assignee" $. "emailAddress")])
       (Ok JNull));
    ("reporter", cond (fields $. "reporter")
       (mkObj [
          ("displayName", fields $. "reporter" $. "displayName");
          ("emailAddress", fields $. "reporter" $. "emailAddress")])
       (Ok JNull));
    ("created", fields $. "created");
    ("updated", fields $. "updated");
    ("resolutionDate", fields $. "resolutiondate");
    ("dueDate", fields $. "duedate");
    ("labels", fields $. "labels" <||> Ok (JArr []));
    ("components",
       optChain (fields $. "components")
         (fun cs => js_map cs "issue.fields.components?.map" (fun c =>
            mkObj [("id", Ok c $. "id"); ("name", Ok c $. "name");
                   ("description", Ok c $. "description")]))
       <||> Ok (JArr []));
    ("fixVersions",
       optChain (fields $. "fixVersions")
         (fun vs => js_map vs "issue.fields.fixVersions?.map" version_item)
       <||> Ok (JArr []));
    ("versions",
       optChain (fields $. "versions")
         (fun vs => js_map vs "issue.fields.versions?.map" version_item)
       <||> Ok (JArr []))].

Definition processIssueForJson (issue : JsVal) (config : ExportConfig) : result Props :=
  let fields := Ok issue $. "fields" in
  let linked := fun link => Ok link $. "outwardIssue" <||> Ok link $. "inwardIssue" in
  processedIssue <- jsonCore issue ;;
  (* Add optional data based on config *)
  comments <- (if includeComments config
               then optChain (fields $. "comment") (fun c => getp c "comments")
               else Ok (JBool false)) ;;
  processedIssue <- push_if (truthy comments) "comments"
    (js_map comments "issue.fields.comment.comments.map" (fun comment =>
       mkObj [
         ("id", Ok comment $. "id");
         ("author", Ok comment $. "author" $. "displayName");
         ("body", Ok comment $. "body");
         ("created", Ok comment $. "created");
         ("updated", Ok comment $. "updated")]))
    processedIssue ;;
  attachment <- (if includeAttachments config then fields $. "attachment"
                 else Ok (JBool false)) ;;
  processedIssue <- push_if (truthy attachment) "attachments"
    (js_map attachment "issue.fields.attachment.map" (fun attachment =>
       mkObj [
         ("id", Ok attachment $. "id");
         ("filename", Ok attachment $. "filename");
         ("size", Ok attachment $. "size");
         ("mimeType", Ok attachment $. "mimeType");
         ("author", Ok attachment $. "author" $. "displayName");
         ("created", Ok attachment $. "created")]))
    processedIssue ;;
  worklogs <- (if includeWorklog config
               then optChain (fields $. "worklog") (fun w => getp w "worklogs")
               else Ok (JBool false)) ;;
  processedIssue <- push_if (truthy worklogs) "worklogs"
    (js_map worklogs "issue.fields.worklog.worklogs.map" (fun worklog =>
       mkObj [
         ("id", Ok worklog $. "id");
         ("author", Ok worklog $. "author" $. "displayName");
         ("timeSpent", Ok worklog $. "timeSpent");
         ("timeSpentSeconds", Ok worklog $. "timeSpentSeconds");
         ("started", Ok worklog $. "started");
         ("comment", Ok worklog $. "comment")]))
    processedIssue ;;
  subtasks <- (if includeSubtasks config then fields $. "subtasks"
               else Ok (JBool false)) ;;
  processedIssue <- push_if (truthy subtasks) "subtasks"
    (js_map subtasks "issue.fields.subtasks.map" (fun subtask =>
       mkObj [
         ("id", Ok subtask $. "id");
         ("key", Ok subtask $. "key");
         ("summary", Ok subtask $. "fields" $. "summary");
         ("status", Ok subtask $. "fields" $. "status" $. "name");
         ("issueType", Ok subtask $. "fields" $. "issuetype" $. "name")]))
    processedIssue ;;
  issuelinks <- (if includeLinks config then fields $. "issuelinks"
                 else Ok (JBool false)) ;;
  processedIssue <- push_if (truthy issuelinks) "issueLinks"
    (js_map issuelinks "issue.fields.issuelinks.map" (fun link =>
       mkObj [
         ("id", Ok link $. "id");
         ("type", mkObj [
            ("name", Ok link $. "type" $. "name");
            ("inward", Ok link $. "type" $. "inward");
            ("outward", Ok link $. "type" $. "outward")]);
         ("linkedIssue", cond (linked link)
            (mkObj [
               ("key", linked link $. "key");
               ("summary", linked link $. "fields" $. "summary")])
            (Ok JNull));
         ("direction", cond (Ok link $. "outwardIssue")
                         (Ok (JStr "outward")) (Ok (JStr "inward")))]))
    processedIssue ;;
  (* Add parent if exists *)
  parent <- fields $. "parent" ;;
  processedIssue <- push_if (truthy parent) "parent"
    (mkObj [
       ("id", Ok parent $. "id");
       ("key", Ok parent $. "key");
       ("summary", Ok parent $. "fields" $. "summary")])
    processedIssue ;;
  Ok processedIssue.

(** ** ExportService.processIssueForCsv *)

(** [Math.round(totalTimeSpent / 3600 * 100) / 100]. *)
Definition hoursOf (totalTimeSpent : JsVal) : JsVal :=
  JNum (num_div (num_round (num_mul (num_div (ToNumber totalTimeSpent) 3600) 100)) 100).

(** The object literal that opens [processIssueForCsv]. *)
Definition csvCore (issue : JsVal) : result Props :=
  let fields := Ok issue $. "fields" in
  let names := fun what arr =>
    mapped <- js_map arr what (fun c => Ok c $. "name") ;;
    js_join mapped (what ++ "(...).join") ", " in
  mkProps [
    ("Issue ID", Ok issue $. "id");
    ("Issue Key", Ok issue $. "key");
    ("Summary", fields $. "summary");
    ("Description", fields $. "description" <||> Ok (JStr ""));
    ("Issue Type", fields $. "issuetype" $. "name");
    ("Project Key", fields $. "project" $. "key");
    ("Project Name", fields $. "project" $. "name");
    ("Status", fields $. "status" $. "name");
    ("Priority", optChain (fields $. "priority") (fun p => getp p "name")
                 <||> Ok (JStr ""));
    ("Assignee", optChain (fields $. "assignee") (fun a => getp a "displayName")
                 <||> Ok (JStr ""));
    ("Reporter", optChain (fields $. "reporter") (fun r => getp r "displayName")
                 <||> Ok (JStr ""));
    ("Created", fields $. "created");
    ("Updated", fields $. "updated");
    ("Resolution Date", fields $. "resolutiondate" <||> Ok (JStr ""));
    ("Due Date", fields $. "duedate" <||> Ok (JStr ""));
    ("Labels", optChain (fields $. "labels")
                 (fun ls => js_join ls "issue.fields.labels?.join" ", ")
               <||> Ok (JStr ""));
    ("Components", optChain (fields $. "components")
                     (names "issue.fields.components?.map")
                   <||> Ok (JStr ""));
    ("Fix Versions", optChain (fields $. "fixVersions")
                       (names "issue.fields.fixVersions?.map")
                     <||> Ok (JStr ""));
    ("Versions", optChain (fields $. "versions")
                   (names "issue.fields.versions?.map")
                 <||> Ok (JStr ""))].

Definition processIssueForCsv (issue : JsVal) (config : ExportConfig) : result Props :=
  let fields := Ok issue $. "fields" in
  csvRow <- csvCore issue ;;
  (* Add parent information *)
  parent <- fields $. "parent" ;;
  csvRow <- push_if (truthy parent) "Parent Key" (Ok parent $. "key") csvRow ;;
  csvRow <- push_if (truthy parent) "Parent Summary"
              (Ok parent $. "fields" $. "summary") csvRow ;;
  (* Add subtasks count *)
  subtasks <- (if includeSubtasks config then fields $. "subtasks"
               else Ok (JBool false)) ;;
  csvRow <- push_if (truthy subtasks) "Subtasks Count" (Ok subtasks $. "length") csvRow ;;
  csvRow <- push_if (truthy subtasks) "Subtasks"
              (mapped <- js_map subtasks "issue.fields.subtasks.map"
                           (fun st => Ok st $. "key") ;;
               js_join mapped "issue.fields.subtasks.map(...).join" ", ")
              csvRow ;;
  (* Add comments count *)
  comment <- (if includeComments config then fields $. "comment"
              else Ok (JBool false)) ;;
  csvRow <- push_if (truthy comment) "Comments Count" (Ok comment $. "total") csvRow ;;
  (* Add attachments count *)
  attachment <- (if includeAttachments config then fields $. "attachment"
                 else Ok (JBool false)) ;;
  csvRow <- push_if (truthy attachment) "Attachments Count"
              (Ok attachment $. "length") csvRow ;;
  (* Add worklog information *)
  worklog <- (if includeWorklog config then fields $. "worklog"
              else Ok (JBool false)) ;;
  csvRow <- push_if (truthy worklog) "Worklog Count" (Ok worklog $. "total") csvRow ;;
  totalTimeSpent <-
    (if truthy worklog
     then optChain (Ok worklog $. "worklogs")
            (fun ws => js_reduce ws "issue.fields.worklog.worklogs?.reduce"
                         (fun total w =>
                            t <- Ok w $. "timeSpentSeconds" ;; Ok (js_add total t))
                         (of_nat 0))
          <||> Ok (of_nat 0)
     else Ok JUndefined) ;;
  csvRow <- push_if (truthy worklog) "Total Time Spent (seconds)"
              (Ok totalTimeSpent) csvRow ;;
  csvRow <- push_if (truthy worklog) "Total Time Spent (hours)"
              (Ok (hoursOf totalTimeSpent)) csvRow ;;
  Ok csvRow.

(** ** Papa.unparse

    [Papa.unparse(data, { header: true, delimiter: ',', quotes: true })] of
    the papaparse library on an array of plain objects: the columns are the
    keys of the first row, every value that is not [null] or [undefined] is
    quoted, and an empty array gives the empty document. *)

Definition dquote : string := String (ascii_of_nat 34) EmptyString.
Definition CRLF : string :=
  String (ascii_of_nat 13) (String (ascii_of_nat 10) EmptyString).

Fixpoint escape_quotes (s : string) : string :=
  match s with
  | EmptyString => EmptyString
  | String c tl =>
      if Ascii.eqb c (ascii_of_nat 34)
      then dquote ++ dquote ++ escape_quotes tl
      else String c (escape_quotes tl)
  end.

Definition papa_safe (v : JsVal) : string :=
  if nullish v then "" else dquote ++ escape_quotes (ToString v) ++ dquote.

Definition papa_line (fields : list string) (row : Props) : string :=
  match row with
  | [] => ""
  | _ => String.concat "," (map (fun f => papa_safe (prop (JObj row) f)) fields)
  end.

Definition Papa_unparse (data : list Props) : string :=
  match data with
  | [] => ""
  | first :: _ =>
      match Object_keys first with
      | [] => String.concat CRLF (map (fun _ => "") data)
      | fields =>
          String.concat "," (map (fun f => papa_safe (JStr f)) fields)
          ++ CRLF ++ String.concat CRLF (map (papa_line fields) data)
      end
  end.

(** ** Progress events and the effects of an export *)

Inductive Stage : Type := Fetching | Processing | Exporting | Complete | Error.

Record ProgressInfo : Type := {
  current : nat;
  total : nat;
  percentage : Z;
  stage : Stage;
  message : option string;
  startTime : Z;
  estimatedTimeRemaining : option Z
}.

(** What [saveAs] is handed: the blob's text, its MIME type and the file name. *)
Record Artifact : Type := {
  content : string;
  mimeType : string;
  filename : string
}.

(** The observable state of a run: how many times the clock has been read,
    the events the [onProgress] callback has received and the files saved. *)
Record World : Type := {
  ticks : nat;
  events : list ProgressInfo;
  saved : list Artifact
}.

Definition M (A : Type) : Type := World -> result A * World.

Definition ret {A : Type} (a : A) : M A := fun w => (Ok a, w).

Definition bindM {A B : Type} (m : M A) (k : A -> M B) : M B :=
  fun w => match m w with
           | (Ok a, w') => k a w'
           | (Throw e, w') => (Throw e, w')
           end.

Notation "x <~ m ;; k" := (bindM m (fun x => k))
  (at level 100, m at next level, right associativity) : js_scope.
Notation "m ;;; k" := (bindM m (fun _ => k))
  (at level 100, right associativity) : js_scope.

Definition lift {A : Type} (r : result A) : M A := fun w => (r, w).

Definition throw {A : Type} (e : Exn) : M A := fun w => (Throw e, w).

(** [try { body } catch (error) { handler }]. *)
Definition try_catch {A : Type} (body : M A) (handler : Exn -> M A) : M A :=
  fun w => match body w with
           | (Ok a, w') => (Ok a, w')
           | (Throw e, w') => handler e w'
           end.

(** [new Date()] and [Date.now()]: the next reading of the clock. *)
Definition Date_now : M Z :=
  fun w => (Ok (clock (ticks w)),
            {| ticks := S (ticks w); events := events w; saved := saved w |}).

(** [if (onProgress) { onProgress(p); }]: the callback, when there is one,
    receives the event. *)
Definition emit (onProgress : bool) (p : ProgressInfo) : M unit :=
  fun w => (Ok tt,
            if onProgress
            then {| ticks := ticks w; events := events w ++ [p]; saved := saved w |}
            else w).

Definition saveAs (content mimeType filename : string) : M unit :=
  fun w => (Ok tt,
            {| ticks := ticks w; events := events w;
               saved := saved w ++ [{| content := content; mimeType := mimeType;
                                       filename := filename |}] |}).

Definition string_of_nat (n : nat) : string :=
  NilZero.string_of_uint (Nat.to_uint n).

Definition Q_of_nat (n : nat) : Q := inject_Z (Z.of_nat n).

(** [s.split('T')[0]]. *)
Fixpoint before_T (s : string) : string :=
  match s with
  | EmptyString => EmptyString
  | String c tl => if Ascii.eqb c "T"%char then EmptyString else String c (before_T tl)
  end.

(** [s.toUpperCase()] on the letters a to z. *)
Definition upper_char (c : ascii) : ascii :=
  let n := nat_of_ascii c in
  if ((97 <=? n) && (n <=? 122))%nat then ascii_of_nat (n - 32) else c.

Fixpoint toUpperCase (s : string) : string :=
  match s with
  | EmptyString => EmptyString
  | String c tl => String (upper_char c) (toUpperCase tl)
  end.

(** [jira-export-${new Date().toISOString().split('T')[0]}.ext]. *)
Definition export_filename (ext : string) : M string :=
  now <~ Date_now ;;
  ret ("jira-export-" ++ before_T (toISOString now) ++ "." ++ ext).

(** The progress report inside the per-issue loop, after [processedCount++]. *)
Definition reportProgress (onProgress : bool) (startTime : Z)
  (length processedCount : nat) : M unit :=
  if onProgress && (processedCount mod 10 =? 0)%nat
  then
    let percentage := (Q_of_nat processedCount / Q_of_nat length) * 100 in
    now <~ Date_now ;;
    let elapsed := inject_Z (now - startTime) in
    let estimatedTotal := (elapsed / Q_of_nat processedCount) * Q_of_nat length in
    let remaining := estimatedTotal - elapsed in
    emit onProgress
      {| current := processedCount;
         total := length;
         percentage := Math_round percentage;
         stage := Processing;
         message := Some ("Processing issue " ++ string_of_nat processedCount
                          ++ " of " ++ string_of_nat length);
         startTime := startTime;
         estimatedTimeRemaining := Some (Math_round (remaining / 1000)) |}
  else ret tt.

(** The per-issue loop, written three times in the source with the same
    body: project the issue, push the record, count it, report. *)
Fixpoint forEachIssue (project : JsVal -> result Props) (onProgress : bool)
  (startTime : Z) (length : nat) (issues : list JsVal)
  (processedCount : nat) (out : list Props) : M (nat * list Props) :=
  match issues with
  | [] => ret (processedCount, out)
  | issue :: rest =>
      record <~ lift (project issue) ;;
      let out := (out ++ [record])%list in
      let processedCount := S processedCount in
      reportProgress onProgress startTime length processedCount ;;;
      forEachIssue project onProgress startTime length rest processedCount out
  end.

(** ** XmlExporter.exportToXml and downloadXml *)

Definition xmlData (length : nat) (buildDate : string) (item : list Props) : JsVal :=
  JObj [
    ("?xml", JObj [("@_version", JStr "1.0"); ("@_encoding", JStr "UTF-8")]);
    ("rss", JObj [
       ("@_version", JStr "2.0");
       ("@_xmlns:jira", JStr "http://www.atlassian.com/jira");
       ("@_xmlns:dc", JStr "http://purl.org/dc/elements/1.1/");
       ("channel", JObj [
          ("title", JStr "JIRA Feature Extract");
          ("link", JStr "#");
          ("description", JStr ("Exported " ++ string_of_nat length ++ " issues"));
          ("language", JStr "en-uk");
          ("build-info", JObj [
             ("version", JStr "1.0.0");
             ("build-number", JStr "1");
             ("build-date", JStr buildDate)]);
          ("item", JArr (map JObj item))])])].

Definition exportToXml (issues : list JsVal) (config : ExportConfig)
  (onProgress : bool) : M string :=
  startTime <~ Date_now ;;
  emit onProgress
    {| current := 0; total := List.length issues; percentage := 0;
       stage := Processing; message := Some "Preparing XML export...";
       startTime := startTime; estimatedTimeRemaining := None |} ;;;
  buildDate <~ Date_now ;;
  (* Process each issue *)
  done <~ forEachIssue (fun issue => convertIssueToXml issue config)
            onProgress startTime (List.length issues) issues 0 [] ;;
  let processedCount := fst done in
  emit onProgress
    {| current := processedCount; total := List.length issues; percentage := 100;
       stage := Exporting; message := Some "Generating XML...";
       startTime := startTime; estimatedTimeRemaining := None |} ;;;
  xmlString <~ lift (XMLBuilder_build
                       (xmlData (List.length issues) (toISOString buildDate) (snd done))) ;;
  emit onProgress
    {| current := processedCount; total := List.length issues; percentage := 100;
       stage := Complete; message := Some "Export complete";
       startTime := startTime; estimatedTimeRemaining := None |} ;;;
  ret xmlString.

Definition downloadXml (xmlContent filename : string) : M unit :=
  saveAs xmlContent "application/xml;charset=utf-8" filename.

(** ** ExportService *)

Definition exportXml (issues : list JsVal) (config : ExportConfig)
  (onProgress : bool) : M unit :=
  xmlContent <~ exportToXml issues config onProgress ;;
  filename <~ export_filename "xml" ;;
  downloadXml xmlContent filename.

Definition exportData (exportDate : string) (length : nat) (issues : list Props) : JsVal :=
  JObj [
    ("metadata", JObj [
       ("exportDate", JStr exportDate);
       ("totalIssues", of_nat length);
       ("format", JStr "json");
       ("version", JStr "1.0.0")]);
    ("issues", JArr (map JObj issues))].

Definition exportJson (issues : list JsVal) (config : ExportConfig)
  (onProgress : bool) : M unit :=
  startTime <~ Date_now ;;
  exportDate <~ Date_now ;;
  done <~ forEachIssue (fun issue => processIssueForJson issue config)
            onProgress startTime (List.length issues) issues 0 [] ;;
  let processedCount := fst done in
  emit onProgress
    {| current := processedCount; total := List.length issues; percentage := 100;
       stage := Exporting; message := Some "Generating JSON...";
       startTime := startTime; estimatedTimeRemaining := None |} ;;;
  jsonContent <~ lift (JSON_stringify_indented
                         (exportData (toISOString exportDate) (List.length issues)
                            (snd done))) ;;
  filename <~ export_filename "json" ;;
  saveAs jsonContent "application/json;charset=utf-8" filename ;;;
  emit onProgress
    {| current := processedCount; total := List.length issues; percentage := 100;
       stage := Complete; message := Some "JSON export complete";
       startTime := startTime; estimatedTimeRemaining := None |}.

Definition exportCsv (issues : list JsVal) (config : ExportConfig)
  (onProgress : bool) : M unit :=
  startTime <~ Date_now ;;
  emit onProgress
    {| current := 0; total := List.length issues; percentage := 0;
       stage := Processing; message := Some "Preparing CSV export...";
       startTime := startTime; estimatedTimeRemaining := None |} ;;;
  done <~ forEachIssue (fun issue => processIssueForCsv issue config)
            onProgress startTime (List.length issues) issues 0 [] ;;
  let processedCount := fst done in
  emit onProgress
    {| current := processedCount; total := List.length issues; percentage := 100;
       stage := Exporting; message := Some "Generating CSV...";
       startTime := startTime; estimatedTimeRemaining := None |} ;;;
  let csv := Papa_unparse (snd done) in
  filename <~ export_filename "csv" ;;
  saveAs csv "text/csv;charset=utf-8" filename ;;;
  emit onProgress
    {| current := processedCount; total := List.length issues; percentage := 100;
       stage := Complete; message := Some "CSV export complete";
       startTime := startTime; estimatedTimeRemaining := None |}.

(** [error instanceof Error ? error.message : 'Export failed']. *)
Definition failure_message (e : Exn) : string :=
  match e with
  | ErrorObj message => message
  | Thrown _ => "Export failed"
  end.

(** The [switch (config.format)] inside the [try] block. *)
Definition dispatch (issues : list JsVal) (config : ExportConfig)
  (onProgress : bool) : M unit :=
  if format config =? "xml" then exportXml issues config onProgress
  else if format config =? "json" then exportJson issues config onProgress
  else if format config =? "csv" then exportCsv issues config onProgress
  else throw (ErrorObj ("Unsupported export format: " ++ format config)).

Definition export (issues : list JsVal) (config : ExportConfig)
  (onProgress : bool) : M unit :=
  startTime <~ Date_now ;;
  emit onProgress
    {| current := 0; total := List.length issues; percentage := 0;
       stage := Processing;
       message := Some ("Starting " ++ toUpperCase (format config) ++ " export...");
       startTime := startTime; estimatedTimeRemaining := None |} ;;;
  try_catch
    (dispatch issues config onProgress)
    (fun e =>
       emit onProgress
         {| current := 0; total := List.length issues; percentage := 0;
            stage := Error; message := Some (failure_message e);
            startTime := startTime; estimatedTimeRemaining := None |} ;;;
       throw e).

(** A run starts with a fresh clock count, a callback that has received
    nothing and nothing saved. *)
Definition initial : World := {| ticks := 0; events := []; saved := [] |}.

Definition run {A : Type} (m : M A) : result A * World := m initial.

(** ** Specification-side definitions *)

(** How many leading elements [f] accepts before it first throws. *)
Fixpoint okPrefix {A B : Type} (f : A -> result B) (l : list A) : nat :=
  match l with
  | [] => 0
  | x :: tl => match f x with
               | Ok _ => S (okPrefix f tl)
               | Throw _ => 0
               end
  end.

(** The event sent when [processedCount] issues of [length] are done and the
    clock reads [now]: the remaining time is
    [elapsed / processedCount * length - elapsed], in whole seconds. *)
Definition progressEvent (startTime : Z) (length processedCount : nat) (now : Z)
  : ProgressInfo :=
  let elapsed := inject_Z (now - startTime) in
  {| current := processedCount;
     total := length;
     percentage := Math_round (Q_of_nat processedCount / Q_of_nat length * 100);
     stage := Processing;
     message := Some ("Processing issue " ++ string_of_nat processedCount
                      ++ " of " ++ string_of_nat length);
     startTime := startTime;
     estimatedTimeRemaining :=
       Some (Math_round ((elapsed / Q_of_nat processedCount * Q_of_nat length
                          - elapsed) / 1000)) |}.

(** The events of a loop that starts at count [c] and clock reading number
    [t] and gets through [k] issues. *)
Fixpoint loopEvents (startTime : Z) (length c t k : nat) : list ProgressInfo :=
  match k with
  | O => []
  | S k' =>
      if (S c mod 10 =? 0)%nat
      then progressEvent startTime length (S c) (clock t)
             :: loopEvents startTime length (S c) (S t) k'
      else loopEvents startTime length (S c) t k'
  end.

(** An event without a time estimate. *)
Definition plainEvent (cur n : nat) (pct : Z) (stg : Stage) (msg : string) (st : Z)
  : ProgressInfo :=
  {| current := cur; total := n; percentage := pct; stage := stg;
     message := Some msg; startTime := st; estimatedTimeRemaining := None |}.

Definition mkWorld (t : nat) (evs : list ProgressInfo) (files : list Artifact) : World :=
  {| ticks := t; events := evs; saved := files |}.

(** The first event of a run, sent before the format is looked at. *)
Definition startEvent (issues : list JsVal) (config : ExportConfig) : ProgressInfo :=
  plainEvent 0 (List.length issues) 0 Processing
    ("Starting " ++ toUpperCase (format config) ++ " export...") (clock 0).

(** The event sent from the [catch] block. *)
Definition errorEvent (issues : list JsVal) (e : Exn) : ProgressInfo :=
  plainEvent 0 (List.length issues) 0 Error (failure_message e) (clock 0).

(** The world in which the [try] block is entered. *)
Definition entered (issues : list JsVal) (config : ExportConfig) : World :=
  mkWorld 1 [startEvent issues config] [].

(** [issue.fields.k] on an issue whose [fields] can be read. *)
Definition field (issue : JsVal) (k : string) : JsVal :=
  prop (prop issue "fields") k.

(** [v?.k]. *)
Definition optprop (v : JsVal) (k : string) : JsVal :=
  if nullish v then JUndefined else prop v k.

(** A key that is present when [c] holds. *)
Definition block (c : bool) (k : string) : list string := if c then [k] else [].

(** The keys of the three opening literals, in order. *)
Definition jsonCoreKeys : list string :=
  ["id"; "key"; "self"; "summary"; "description"; "issueType"; "project"; "status";
   "priority"; "assignee"; "reporter"; "created"; "updated"; "resolutionDate";
   "dueDate"; "labels"; "components"; "fixVersions"; "versions"].

Definition xmlCoreKeys : list string :=
  ["@_id"; "title"; "link"; "project-key"; "description"; "environment"; "key";
   "summary"; "type"; "priority"; "status"; "resolution"; "assignee"; "reporter";
   "created"; "updated"; "resolved"; "version"; "fix-version"; "component";
   "labels"; "due-date"].

(** The fixed columns of a CSV row, in order. *)
Definition csvCoreColumns : list string :=
  ["Issue ID"; "Issue Key"; "Summary"; "Description"; "Issue Type"; "Project Key";
   "Project Name"; "Status"; "Priority"; "Assignee"; "Reporter"; "Created";
   "Updated"; "Resolution Date"; "Due Date"; "Labels"; "Components";
   "Fix Versions"; "Versions"].

(** The custom fields an XML item carries: the keys of the include list that
    start with [customfield_] and whose value on the issue is neither
    [undefined] nor [null], each with its normalised value. *)
Definition customFieldsOf (fields : JsVal) (keys : list string) : Props :=
  fold_left (fun customFields fieldKey =>
               if String.prefix "customfield_" fieldKey
               then if negb (is_undefined (prop fields fieldKey))
                       && negb (is_null (prop fields fieldKey))
                    then obj_set customFields fieldKey
                           (normalizeCustomField (prop fields fieldKey))
                    else customFields
               else customFields)
            keys [].

(** The keys each projector adds after its opening literal, in order, each
    with the condition under which it is added. *)
Definition jsonOptionalKeys (issue : JsVal) (config : ExportConfig) : list string :=
  (block (includeComments config
          && truthy (optprop (field issue "comment") "comments")) "comments"
   ++ block (includeAttachments config && truthy (field issue "attachment")) "attachments"
   ++ block (includeWorklog config
             && truthy (optprop (field issue "worklog") "worklogs")) "worklogs"
   ++ block (includeSubtasks config && truthy (field issue "subtasks")) "subtasks"
   ++ block (includeLinks config && truthy (field issue "issuelinks")) "issueLinks"
   ++ block (truthy (field issue "parent")) "parent")%list.

Definition xmlOptionalKeys (issue : JsVal) (config : ExportConfig) : list string :=
  (block (includeComments config
          && truthy (optprop (field issue "comment") "comments")) "comments"
   ++ block (includeAttachments config && truthy (field issue "attachment")) "attachments"
   ++ block (includeWorklog config
             && truthy (optprop (field issue "worklog") "worklogs")) "worklogs"
   ++ block (includeSubtasks config && truthy (field issue "subtasks")) "subtasks"
   ++ block (truthy (field issue "parent")) "parent"
   ++ block (includeLinks config && truthy (field issue "issuelinks")) "issuelinks"
   ++ block (0 <? List.length
                    (Object_keys (customFieldsOf (prop issue "fields")
                                    (includeFields config))))%nat
        "customfields")%list.

Definition csvOptionalColumns (issue : JsVal) (config : ExportConfig) : list string :=
  let subtasks := includeSubtasks config && truthy (field issue "subtasks") in
  let worklog := includeWorklog config && truthy (field issue "worklog") in
  (block (truthy (field issue "parent")) "Parent Key"
   ++ block (truthy (field issue "parent")) "Parent Summary"
   ++ block subtasks "Subtasks Count"
   ++ block subtasks "Subtasks"
   ++ block (includeComments config && truthy (field issue "comment")) "Comments Count"
   ++ block (includeAttachments config && truthy (field issue "attachment"))
        "Attachments Count"
   ++ block worklog "Worklog Count"
   ++ block worklog "Total Time Spent (seconds)"
   ++ block worklog "Total Time Spent (hours)")%list.

(** Every inclusion setting of the configuration switched off. *)
Definition flags_off (config : ExportConfig) : Prop :=
  includeComments config = false /\ includeAttachments config = false /\
  includeWorklog config = false /\ includeSubtasks config = false /\
  includeLinks config = false.

(** An event of the preparation phase, and one of the closing phase. *)
Definition opening (n : nat) (ev : ProgressInfo) : Prop :=
  current ev = 0%nat /\ total ev = n /\ percentage ev = 0%Z /\ stage ev = Processing.

Definition closing (n : nat) (stg : Stage) (ev : ProgressInfo) : Prop :=
  current ev = n /\ total ev = n /\ percentage ev = 100%Z /\ stage ev = stg.

(** The percentage reported at [p] issues of [n]. *)
Definition percentAt (n p : nat) : Z :=
  Math_round (Q_of_nat p / Q_of_nat n * 100).

(** *** Well-formed issues

    What the interfaces [JiraIssue] and [JiraIssueFields] promise of an
    issue, as far as the projectors depend on it: the sub-objects they read
    without a test are there, and a collection that is there is an array
    whose elements carry the sub-objects read from them. *)

Definition isOk {A : Type} (r : result A) : bool :=
  match r with
  | Ok _ => true
  | Throw _ => false
  end.

Definition present (v : JsVal) : bool := negb (nullish v).

Definition arrayOf (ok : JsVal -> bool) (v : JsVal) : bool :=
  match v with
  | JArr items => forallb ok items
  | _ => false
  end.

(** An optional collection: absent, or an array of elements that are [ok]. *)
Definition optArrayOf (ok : JsVal -> bool) (v : JsVal) : bool :=
  nullish v || arrayOf ok v.

(** A comment, an attachment or a worklog entry: it has an [author]. *)
Definition wfAuthored (v : JsVal) : bool :=
  present v && present (prop v "author").

(** A subtask: its [fields] have an [issuetype] and a [status]. *)
Definition wfIssueRef (v : JsVal) : bool :=
  present v && present (prop v "fields")
  && present (prop (prop v "fields") "issuetype")
  && present (prop (prop v "fields") "status").

(** [link.outwardIssue || link.inwardIssue]. *)
Definition linkedIssueOf (link : JsVal) : JsVal :=
  or_val (prop link "outwardIssue") (prop link "inwardIssue").

(** An issue link: it has a [type], and the issue it links to, when there is
    one, has [fields]. *)
Definition wfLink (link : JsVal) : bool :=
  present link && present (prop link "type")
  && (nullish (linkedIssueOf link) || present (prop (linkedIssueOf link) "fields")).

Definition wellFormed (issue : JsVal) : bool :=
  present issue && present (prop issue "fields")
  && present (field issue "issuetype")
  && present (field issue "project")
  && present (field issue "status")
  && present (prop (field issue "status") "statusCategory")
  && optArrayOf (fun _ => true) (field issue "labels")
  && optArrayOf present (field issue "components")
  && optArrayOf present (field issue "fixVersions")
  && optArrayOf present (field issue "versions")
  && optArrayOf wfAuthored (optprop (field issue "comment") "comments")
  && optArrayOf wfAuthored (field issue "attachment")
  && optArrayOf wfAuthored (optprop (field issue "worklog") "worklogs")
  && optArrayOf wfIssueRef (field issue "subtasks")
  && optArrayOf wfLink (field issue "issuelinks")
  && (negb (truthy (field issue "parent"))
      || present (prop (field issue "parent") "fields")).

(** *** More specification-side definitions *)

(** The text [join] gives an element of an array. *)
Definition cell (x : JsVal) : string := if nullish x then "" else ToString x.

(** A value that is a number or [undefined]. *)
Definition is_number_or_undefined (v : JsVal) : bool :=
  match v with
  | JNum _ | JUndefined => true
  | _ => false
  end.

(** The MIME type of the file saved for a format. *)
Definition mimeOf (fmt : string) : string :=
  if fmt =? "xml" then "application/xml;charset=utf-8"
  else if fmt =? "json" then "application/json;charset=utf-8"
  else "text/csv;charset=utf-8".

(** The file saved by an export in format [fmt] when the clock read [now]. *)
Definition exportFile (fmt text : string) (now : Z) : Artifact :=
  {| content := text;
     mimeType := mimeOf fmt;
     filename := "jira-export-" ++ before_T (toISOString now) ++ "." ++ fmt |}.

(** What a run leaves behind apart from the events: its result and the
    files saved. *)
Definition outcome (r : result unit * World) : result unit * list Artifact :=
  (fst r, saved (snd r)).

(** ** State and exceptions, for any state

    The client, the storage service and the stores each have a state of
    their own. *)

Definition ST (S A : Type) : Type := S -> result A * S.

Definition retS {S A : Type} (a : A) : ST S A := fun s => (Ok a, s).

Definition bindS {S A B : Type} (m : ST S A) (k : A -> ST S B) : ST S B :=
  fun s => match m s with
           | (Ok a, s') => k a s'
           | (Throw e, s') => (Throw e, s')
           end.

Notation "x <== m ;; k" := (bindS m (fun x => k))
  (at level 100, m at next level, right associativity) : js_scope.
Notation "m ;;> k" := (bindS m (fun _ => k))
  (at level 100, right associativity) : js_scope.

Definition liftS {S A : Type} (r : result A) : ST S A := fun s => (r, s).

Definition throwS {S A : Type} (e : Exn) : ST S A := fun s => (Throw e, s).

(** [try { body } catch (error) { handler }]. *)
Definition try_catchS {S A : Type} (body : ST S A) (handler : Exn -> ST S A) : ST S A :=
  fun s => match body s with
           | (Ok a, s') => (Ok a, s')
           | (Throw e, s') => handler e s'
           end.

(** The value a [catch] clause binds. *)
Definition caught (e : Exn) : JsVal :=
  match e with
  | ErrorObj message => JObj [("message", JStr message)]
  | Thrown v => v
  end.

Definition of_Z (z : Z) : JsVal := JNum (Fin (inject_Z z)).

(** [v === n] for a number literal [n]. *)
Definition is_number (v : JsVal) (n : Z) : bool :=
  match v with
  | JNum (Fin q) => Qeq_bool q (inject_Z n)
  | _ => false
  end.

(** [v === s] for a string literal [s]. *)
Definition is_text (v : JsVal) (s : string) : bool :=
  match v with
  | JStr s' => s' =? s
  | _ => false
  end.

(** [Array.isArray]. *)
Definition is_array (v : JsVal) : bool :=
  match v with
  | JArr _ => true
  | _ => false
  end.

(** [a >= b] on numbers. *)
Definition num_ge (a b : Number) : bool :=
  match a, b with
  | NaN, _ | _, NaN => false
  | Fin x, Fin y => Qle_bool y x
  | Inf s, Inf s' => negb s || s'
  | Inf s, Fin _ => negb s
  | Fin _, Inf s' => s'
  end.

(** ** JiraClient *)

(** [s.replace(/\/$/, '')]: a slash that ends the string is dropped. *)
Fixpoint dropTrailingSlash (s : string) : string :=
  match s with
  | EmptyString => EmptyString
  | String c EmptyString => if Ascii.eqb c "/"%char then EmptyString else s
  | String c tl => String c (dropTrailingSlash tl)
  end.

(** Whether the last character of [s] is a slash. *)
Fixpoint endsWithSlash (s : string) : bool :=
  match s with
  | EmptyString => false
  | String c EmptyString => Ascii.eqb c "/"%char
  | String _ tl => endsWithSlash tl
  end.

(** The client: its two fields and the defaults of its axios instance. *)
Record JiraClient : Type := {
  serverUrl : string;
  token : string;
  baseURL : string;
  timeout : Z;
  headers : list (string * string)
}.

(** The constructor. *)
Definition newJiraClient (serverUrl token : string) : JiraClient :=
  let serverUrl := dropTrailingSlash serverUrl in
  {| serverUrl := serverUrl;
     token := token;
     baseURL := serverUrl ++ "/rest/api/2";
     timeout := 30000;
     headers := [("Content-Type", "application/json");
                 ("Accept", "application/json");
                 ("Authorization", "Bearer " ++ token)] |}.

(** [headers[k] = v]. *)
Fixpoint header_set (hs : list (string * string)) (k v : string)
  : list (string * string) :=
  match hs with
  | [] => [(k, v)]
  | (k', v') :: tl => if k' =? k then (k', v) :: tl else (k', v') :: header_set tl k v
  end.

Definition updateConfig (c : JiraClient) (serverUrl token : string) : JiraClient :=
  let serverUrl := dropTrailingSlash serverUrl in
  {| serverUrl := serverUrl;
     token := token;
     baseURL := serverUrl ++ "/rest/api/2";
     timeout := timeout c;
     headers := header_set (headers c) "Authorization" ("Bearer " ++ token) |}.

(** [getErrorMessage]: the message for an error of axios. *)
Definition getErrorMessage (error : JsVal) : result JsVal :=
  let status := optChain (Ok error $. "response") (fun r => getp r "status") in
  let fallback :=
    s <- status ;;
    if is_number s 401
    then Ok (JStr "Authentication failed. Please check your credentials.")
    else if is_number s 403
    then Ok (JStr "Access denied. You do not have permission to perform this operation.")
    else if is_number s 404
    then Ok (JStr "Resource not found. Please check the server URL.")
    else
      code <- Ok error $. "code" ;;
      if is_text code "ECONNREFUSED"
      then Ok (JStr "Connection refused. Please check the server URL and network connectivity.")
      else if is_text code "ENOTFOUND"
      then Ok (JStr "Server not found. Please check the server URL.")
      else Ok error $. "message" <||> Ok (JStr "An unexpected error occurred") in
  data <- optChain (Ok error $. "response") (fun r => getp r "data") ;;
  if truthy data
  then
    errorMessages <- Ok data $. "errorMessages" ;;
    if truthy errorMessages && is_array errorMessages
    then js_join errorMessages "data.errorMessages.join" "; "
    else
      message <- Ok data $. "message" ;;
      if truthy message then Ok message else fallback
  else fallback.

Section Host.
Context {browser : Browser}.

(** The [ApiError] the response interceptor throws for an error of axios,
    when the clock reads [now]. *)
Definition apiError (error : JsVal) (now : Z) : result JsVal :=
  mkObj [
    ("status", optChain (Ok error $. "response") (fun r => getp r "status")
               <||> Ok (of_Z 0));
    ("message", getErrorMessage error);
    ("details", cond (optChain (Ok error $. "response") (fun r => getp r "data"))
                  (data <- Ok error $. "response" $. "data" ;;
                   Ok (JStr (JSON_stringify data)))
                  (Ok JUndefined));
    ("timestamp", Ok (Date_object now))].

(** A request as axios sends it, and what comes back: a response, or the
    error axios rejects with. *)
Record Request : Type := {
  method : string;
  url : string;
  requestHeaders : list (string * string);
  params : Props;
  body : JsVal
}.

Inductive Reply : Type :=
| Response (response : JsVal)
| Failure (error : JsVal).

(** The server and the network: the reply to the [n]-th request. *)
Definition Server : Type := nat -> Request -> Reply.

(** What [searchAll] hands out: a page to its consumer, a count to
    [onProgress]. *)
Inductive SearchStep : Type :=
| Yielded (response : JsVal)
| Reported (current total : JsVal).

(** The requests sent so far, the number of clock readings taken and the
    steps [searchAll] has made. *)
Record Net : Type := {
  sent : list Request;
  readings : nat;
  received : list SearchStep
}.

Definition offline : Net := {| sent := []; readings := 0; received := [] |}.

(** [this.client.get] and [this.client.post], with the response
    interceptor: a failure is thrown as an [ApiError]. *)
Definition send (server : Server) (c : JiraClient) (method path : string)
  (params : Props) (body : JsVal) : ST Net JsVal :=
  fun n =>
    let request := {| method := method; url := baseURL c ++ path;
                      requestHeaders := headers c; params := params; body := body |} in
    let n' := {| sent := sent n ++ [request]; readings := readings n;
                 received := received n |} in
    match server (List.length (sent n)) request with
    | Response response => (Ok response, n')
    | Failure error =>
        match apiError error (clock (readings n)) with
        | Ok e => (Throw (Thrown e),
                   {| sent := sent n'; readings := S (readings n);
                      received := received n |})
        | Throw e => (Throw e, n')
        end
    end.

Definition testConnection (server : Server) (c : JiraClient) : ST Net JsVal :=
  response <== send server c "GET" "/myself" [] JUndefined ;;
  liftS (getp response "data").

Definition getServerInfo (server : Server) (c : JiraClient) : ST Net JsVal :=
  response <== send server c "GET" "/serverInfo" [] JUndefined ;;
  liftS (getp response "data").

(** A parameter with a default value: the default stands in for
    [undefined]. *)
Definition orDefault (v d : JsVal) : JsVal :=
  match v with
  | JUndefined => d
  | _ => v
  end.

(** [search]: [fields] and [expand] are [None] when the argument is left
    out. *)
Definition search (server : Server) (c : JiraClient) (jql : string)
  (startAt maxResults : JsVal) (fields expand : option (list string)) : ST Net JsVal :=
  let startAt := orDefault startAt (of_Z 0) in
  let maxResults := orDefault maxResults (of_Z 50) in
  let params := [("jql", JStr jql); ("startAt", startAt);
                 ("maxResults", maxResults)] in
  let params := match fields with
                | Some (f :: fs) => obj_set params "fields" (JStr (String.concat "," (f :: fs)))
                | _ => params
                end in
  let params := match expand with
                | Some (e :: es) => obj_set params "expand" (JStr (String.concat "," (e :: es)))
                | _ => params
                end in
  response <== send server c "GET" "/search" params JUndefined ;;
  liftS (getp response "data").

Definition getFields (server : Server) (c : JiraClient) : ST Net JsVal :=
  response <== send server c "GET" "/field" [] JUndefined ;;
  liftS (getp response "data").

Definition getProjects (server : Server) (c : JiraClient) : ST Net JsVal :=
  response <== send server c "GET" "/project" [] JUndefined ;;
  liftS (getp response "data").

Definition getIssueTypes (server : Server) (c : JiraClient) : ST Net JsVal :=
  response <== send server c "GET" "/issuetype" [] JUndefined ;;
  liftS (getp response "data").

Definition validateJql (server : Server) (c : JiraClient) (jql : string)
  : ST Net JsVal :=
  try_catchS
    (send server c "POST" "/jql/parse" [] (JObj [("queries", JArr [JStr jql])]) ;;>
     retS (JObj [("valid", JBool true)]))
    (fun error =>
       message <== liftS (getp (caught error) "message") ;;
       retS (JObj [("valid", JBool false); ("errors", JArr [message])])).

Definition getIssueCount (server : Server) (c : JiraClient) (jql : string)
  : ST Net JsVal :=
  response <== search server c jql (of_Z 0) (of_Z 0) (Some ["id"]) None ;;
  liftS (getp response "total").

Definition hand (step : SearchStep) : ST Net unit :=
  fun n => (Ok tt, {| sent := sent n; readings := readings n;
                      received := received n ++ [step] |}).

(** Whether the generator ran to its end, or is still in its loop after
    the passes through the loop body it was given. *)
Inductive Progress : Type := Finished | Running.

(** The [do ... while (true)] loop of [searchAll], for up to [fuel] passes
    through its body: a consumer that goes on asking for pages drives the
    generator through them, and a run cut short is the beginning of the
    longer ones. *)
Fixpoint searchAll_loop (fuel : nat) (server : Server) (c : JiraClient) (jql : string)
  (batchSize : Z) (fields expand : option (list string)) (onProgress : bool)
  (startAt : Z) (total : JsVal) : ST Net Progress :=
  match fuel with
  | O => retS Running
  | S fuel' =>
      response <== search server c jql (of_Z startAt) (of_Z batchSize) fields expand ;;
      total <== (if is_number total 0 then liftS (getp response "total")
                 else retS total) ;;
      hand (Yielded response) ;;>
      (if onProgress
       then length <== liftS (Ok response $. "issues" $. "length") ;;
            hand (Reported (js_add (of_Z startAt) length) total)
       else retS tt) ;;>
      let startAt := (startAt + batchSize)%Z in
      (* Break if we've received all issues *)
      responseTotal <== liftS (getp response "total") ;;
      if num_ge (Fin (inject_Z startAt)) (ToNumber responseTotal)
      then retS Finished
      else searchAll_loop fuel' server c jql batchSize fields expand onProgress
             startAt total
  end.

Definition searchAll (fuel : nat) (server : Server) (c : JiraClient) (jql : string)
  (batchSize : Z) (fields expand : option (list string)) (onProgress : bool)
  : ST Net Progress :=
  searchAll_loop fuel server c jql batchSize fields expand onProgress 0 (of_Z 0).

(** The [/search] request for the page that starts at [startAt]. *)
Definition searchRequest (c : JiraClient) (jql : string) (batchSize : Z)
  (fields expand : option (list string)) (startAt : Z) : Request :=
  let params := [("jql", JStr jql); ("startAt", of_Z startAt);
                 ("maxResults", of_Z batchSize)] in
  let params := match fields with
                | Some (f :: fs) => obj_set params "fields" (JStr (String.concat "," (f :: fs)))
                | _ => params
                end in
  let params := match expand with
                | Some (e :: es) => obj_set params "expand" (JStr (String.concat "," (e :: es)))
                | _ => params
                end in
  {| method := "GET"; url := baseURL c ++ "/search"; requestHeaders := headers c;
     params := params; body := JUndefined |}.

(** The number of pages of [batchSize] issues that cover [total] issues,
    one at least. *)
Definition pagesOf (total batchSize : Z) : nat :=
  Z.to_nat (Z.max 1 ((total + batchSize - 1) / batchSize)).

(** The offsets of [k] pages from [startAt] on. *)
Fixpoint offsets (k : nat) (startAt batchSize : Z) : list Z :=
  match k with
  | O => []
  | S k' => startAt :: offsets k' (startAt + batchSize) batchSize
  end.

(** ** StorageService *)

(** The two storages of the browser, the number of clock readings taken
    and what was written to the console. *)
Record Stores : Type := {
  localStorage : list (string * string);
  sessionStorage : list (string * string);
  clockReadings : nat;
  console : list string
}.

Definition emptyStores : Stores :=
  {| localStorage := []; sessionStorage := []; clockReadings := 0; console := [] |}.

(** Stores with one item in the local storage and nothing else. *)
Definition storing (key text : string) : Stores :=
  {| localStorage := [(key, text)]; sessionStorage := []; clockReadings := 0;
     console := [] |}.

Definition CONNECTION : string := "jira-extractor-connection".
Definition QUERY_TEMPLATES : string := "jira-extractor-templates".
Definition APP_SETTINGS : string := "jira-extractor-settings".
Definition QUERY_HISTORY : string := "jira-extractor-history".

(** [getItem]: [None] is the [null] of a key that is not there. *)
Fixpoint getItem (items : list (string * string)) (key : string) : option string :=
  match items with
  | [] => None
  | (k, v) :: tl => if k =? key then Some v else getItem tl key
  end.

Fixpoint putItem (items : list (string * string)) (key value : string)
  : list (string * string) :=
  match items with
  | [] => [(key, value)]
  | (k, v) :: tl => if k =? key then (k, value) :: tl else (k, v) :: putItem tl key value
  end.

Definition dropItem (items : list (string * string)) (key : string)
  : list (string * string) :=
  filter (fun kv => negb (fst kv =? key)) items.

(** [!stored] for what [getItem] returned. *)
Definition nothingStored (stored : option string) : bool :=
  match stored with
  | None => true
  | Some s => s =? ""
  end.

Definition textOf (stored : option string) : string :=
  match stored with
  | Some s => s
  | None => ""
  end.

Definition localStorage_getItem (key : string) : ST Stores (option string) :=
  fun s => (Ok (getItem (localStorage s) key), s).

Definition sessionStorage_getItem (key : string) : ST Stores (option string) :=
  fun s => (Ok (getItem (sessionStorage s) key), s).

Definition localStorage_setItem (key value : string) : ST Stores unit :=
  fun s =>
    if storage_accepts (localStorage s) key value
    then (Ok tt, {| localStorage := putItem (localStorage s) key value;
                    sessionStorage := sessionStorage s;
                    clockReadings := clockReadings s; console := console s |})
    else (Throw QuotaExceededError, s).

Definition sessionStorage_setItem (key value : string) : ST Stores unit :=
  fun s =>
    if storage_accepts (sessionStorage s) key value
    then (Ok tt, {| localStorage := localStorage s;
                    sessionStorage := putItem (sessionStorage s) key value;
                    clockReadings := clockReadings s; console := console s |})
    else (Throw QuotaExceededError, s).

Definition localStorage_removeItem (key : string) : ST Stores unit :=
  fun s => (Ok tt, {| localStorage := dropItem (localStorage s) key;
                      sessionStorage := sessionStorage s;
                      clockReadings := clockReadings s; console := console s |}).

Definition sessionStorage_removeItem (key : string) : ST Stores unit :=
  fun s => (Ok tt, {| localStorage := localStorage s;
                      sessionStorage := dropItem (sessionStorage s) key;
                      clockReadings := clockReadings s; console := console s |}).

(** [console.warn] and [console.error]: the text they begin with is kept. *)
Definition console_log (text : string) : ST Stores unit :=
  fun s => (Ok tt, {| localStorage := localStorage s; sessionStorage := sessionStorage s;
                      clockReadings := clockReadings s;
                      console := console s ++ [text] |}).

(** [new Date()] as a value. *)
Definition new_Date : ST Stores JsVal :=
  fun s => (Ok (Date_object (clock (clockReadings s))),
            {| localStorage := localStorage s; sessionStorage := sessionStorage s;
               clockReadings := S (clockReadings s); console := console s |}).

Definition saveConnection (config : JsVal) (rememberCredentials : bool)
  : ST Stores unit :=
  dataToStore <== liftS (mkObj [
    ("serverUrl", Ok config $. "serverUrl");
    ("email", if rememberCredentials then Ok config $. "email" else Ok (JStr ""));
    ("token", if rememberCredentials then Ok config $. "token" else Ok (JStr ""));
    ("isConnected", Ok (JBool false))]) ;;
  sessionStorage_setItem CONNECTION (JSON_stringify dataToStore).

Definition loadConnection : ST Stores JsVal :=
  stored <== sessionStorage_getItem CONNECTION ;;
  if nothingStored stored then retS (JObj [])
  else
    try_catchS
      (config <== liftS (JSON_parse (textOf stored)) ;;
       liftS (mkObj [
         ("serverUrl", Ok config $. "serverUrl" <||> Ok (JStr ""));
         ("email", Ok config $. "email" <||> Ok (JStr ""));
         ("token", Ok config $. "token" <||> Ok (JStr ""));
         ("isConnected", Ok (JBool false));
         ("isLoading", Ok (JBool false))]))
      (fun error =>
         console_log "Failed to load connection config:" ;;>
         retS (JObj [])).

Definition clearConnection : ST Stores unit :=
  sessionStorage_removeItem CONNECTION.

Definition saveQueryTemplates (templates : JsVal) : ST Stores unit :=
  try_catchS
    (localStorage_setItem QUERY_TEMPLATES (JSON_stringify templates))
    (fun error => console_log "Failed to save query templates:").

Definition defaultTemplate (id name description jql : string) (isFavorite : bool)
  : ST Stores JsVal :=
  createdAt <== new_Date ;;
  retS (JObj [("id", JStr id); ("name", JStr name); ("description", JStr description);
              ("jql", JStr jql); ("createdAt", createdAt);
              ("isFavorite", JBool isFavorite)]).

Definition getDefaultQueryTemplates : ST Stores JsVal :=
  t1 <== defaultTemplate "all-open" "All Open Issues"
           "All issues that are not resolved or closed"
           "status NOT IN (Resolved, Closed, Done)" false ;;
  t2 <== defaultTemplate "assigned-to-me" "Assigned to Me"
           "Issues assigned to current user"
           "assignee = currentUser() AND status != Done" true ;;
  t3 <== defaultTemplate "reported-by-me" "Reported by Me"
           "Issues reported by current user"
           "reporter = currentUser()" false ;;
  t4 <== defaultTemplate "updated-recently" "Updated Recently"
           "Issues updated in the last 7 days"
           "updated >= -7d ORDER BY updated DESC" false ;;
  t5 <== defaultTemplate "high-priority" "High Priority Issues"
           "Issues with high or highest priority"
           "priority IN (High, Highest) AND status != Done ORDER BY priority DESC" false ;;
  retS (JArr [t1; t2; t3; t4; t5]).

Definition loadQueryTemplates : ST Stores JsVal :=
  stored <== localStorage_getItem QUERY_TEMPLATES ;;
  if nothingStored stored then getDefaultQueryTemplates
  else
    try_catchS
      (templates <== liftS (JSON_parse (textOf stored)) ;;
       if is_array templates then retS templates else getDefaultQueryTemplates)
      (fun error =>
         console_log "Failed to load query templates:" ;;>
         getDefaultQueryTemplates).

(** [a === b] for two values that share no object: an object is equal to
    itself only. *)
Definition strict_eq (a b : JsVal) : bool :=
  match a, b with
  | JUndefined, JUndefined | JNull, JNull => true
  | JBool x, JBool y => Bool.eqb x y
  | JNum (Fin x), JNum (Fin y) => Qeq_bool x y
  | JNum (Inf s), JNum (Inf s') => Bool.eqb s s'
  | JStr x, JStr y => x =? y
  | _, _ => false
  end.

(** [l.findIndex(f)], [None] for -1, from index [i] on. *)
Fixpoint findIndex (f : JsVal -> result bool) (l : list JsVal) (i : nat)
  : result (option nat) :=
  match l with
  | [] => Ok None
  | x :: tl => b <- f x ;; if b then Ok (Some i) else findIndex f tl (S i)
  end.

(** [l.filter(f)]. *)
Fixpoint filterM (f : JsVal -> result bool) (l : list JsVal) : result (list JsVal) :=
  match l with
  | [] => Ok []
  | x :: tl => b <- f x ;; rest <- filterM f tl ;; Ok (if b then x :: rest else rest)
  end.

(** [l[i] = v] inside the list. *)
Fixpoint setAt (l : list JsVal) (i : nat) (v : JsVal) : list JsVal :=
  match l, i with
  | [], _ => []
  | _ :: tl, O => v :: tl
  | x :: tl, S i' => x :: setAt tl i' v
  end.

(** The elements of what [loadQueryTemplates] and [loadQueryHistory]
    return, which is an array. *)
Definition elements (v : JsVal) : list JsVal :=
  match v with
  | JArr items => items
  | _ => []
  end.

Definition saveQueryTemplate (template : JsVal) : ST Stores unit :=
  templates <== loadQueryTemplates ;;
  existingIndex <== liftS (findIndex (fun t => id <- Ok t $. "id" ;;
                                               id' <- Ok template $. "id" ;;
                                               Ok (strict_eq id id'))
                             (elements templates) 0) ;;
  let templates := match existingIndex with
                   | Some i => setAt (elements templates) i template
                   | None => (elements templates ++ [template])%list
                   end in
  saveQueryTemplates (JArr templates).

Definition deleteQueryTemplate (templateId : string) : ST Stores unit :=
  templates <== loadQueryTemplates ;;
  filtered <== liftS (filterM (fun t => id <- Ok t $. "id" ;;
                                        Ok (negb (is_text id templateId)))
                        (elements templates)) ;;
  saveQueryTemplates (JArr filtered).

Definition saveSettings (settings : JsVal) : ST Stores unit :=
  try_catchS
    (localStorage_setItem APP_SETTINGS (JSON_stringify settings))
    (fun error => console_log "Failed to save app settings:").

Definition getDefaultSettings : Props :=
  [("theme", JStr "light"); ("maxResults", of_nat 100); ("autoSave", JBool true);
   ("showAdvancedOptions", JBool false); ("defaultExportFormat", JStr "xml");
   ("rememberCredentials", JBool false)].

(** The own enumerable properties an object spread copies from a value. *)
Fixpoint indexed (l : list JsVal) (i : nat) : Props :=
  match l with
  | [] => []
  | x :: tl => (string_of_nat i, x) :: indexed tl (S i)
  end.

Fixpoint characters (s : string) : list JsVal :=
  match s with
  | EmptyString => []
  | String c tl => JStr (String c EmptyString) :: characters tl
  end.

Definition ownProperties (v : JsVal) : Props :=
  match v with
  | JObj props => props
  | JArr items => indexed items 0
  | JStr s => indexed (characters s) 0
  | _ => []
  end.

(** [{ ...target, ...source }] for an object [target]. *)
Definition spread (target : Props) (source : JsVal) : Props :=
  fold_left (fun acc kv => obj_set acc (fst kv) (snd kv)) (ownProperties source) target.

Definition loadSettings : ST Stores JsVal :=
  stored <== localStorage_getItem APP_SETTINGS ;;
  if nothingStored stored then retS (JObj getDefaultSettings)
  else
    try_catchS
      (settings <== liftS (JSON_parse (textOf stored)) ;;
       retS (JObj (spread getDefaultSettings settings)))
      (fun error =>
         console_log "Failed to load app settings:" ;;>
         retS (JObj getDefaultSettings)).

Definition loadQueryHistory : ST Stores JsVal :=
  stored <== localStorage_getItem QUERY_HISTORY ;;
  if nothingStored stored then retS (JArr [])
  else
    try_catchS
      (history <== liftS (JSON_parse (textOf stored)) ;;
       if is_array history
       then liftS (js_map history "history.map" (fun item =>
                     executedAt <- Ok item $. "executedAt" ;;
                     Ok (JObj (obj_set (spread [] item) "executedAt"
                                 (Date_from executedAt)))))
       else retS (JArr []))
      (fun error =>
         console_log "Failed to load query history:" ;;>
         retS (JArr [])).

Definition addToQueryHistory (jql : string) (resultCount : JsVal) : ST Stores unit :=
  history <== loadQueryHistory ;;
  (* Remove existing entry for this JQL if it exists *)
  filtered <== liftS (filterM (fun item => j <- Ok item $. "jql" ;;
                                           Ok (negb (is_text j jql)))
                        (elements history)) ;;
  (* Add new entry at the beginning *)
  executedAt <== new_Date ;;
  let filtered := JObj [("jql", JStr jql); ("resultCount", resultCount);
                        ("executedAt", executedAt)] :: filtered in
  (* Keep only last 50 queries *)
  let trimmed := firstn 50 filtered in
  try_catchS
    (localStorage_setItem QUERY_HISTORY (JSON_stringify (JArr trimmed)))
    (fun error => console_log "Failed to save query history:").

Definition clearQueryHistory : ST Stores unit :=
  localStorage_removeItem QUERY_HISTORY.

Definition clearAllData : ST Stores unit :=
  localStorage_removeItem CONNECTION ;;> sessionStorage_removeItem CONNECTION ;;>
  localStorage_removeItem QUERY_TEMPLATES ;;> sessionStorage_removeItem QUERY_TEMPLATES ;;>
  localStorage_removeItem APP_SETTINGS ;;> sessionStorage_removeItem APP_SETTINGS ;;>
  localStorage_removeItem QUERY_HISTORY ;;> sessionStorage_removeItem QUERY_HISTORY.

(** [StorageService.exportData]. *)
Definition exportAllData : ST Stores string :=
  templates <== loadQueryTemplates ;;
  settings <== loadSettings ;;
  history <== loadQueryHistory ;;
  now <== (fun s => (Ok (clock (clockReadings s)),
                     {| localStorage := localStorage s; sessionStorage := sessionStorage s;
                        clockReadings := S (clockReadings s); console := console s |})) ;;
  liftS (JSON_stringify_indented
           (JObj [("templates", templates); ("settings", settings);
                  ("history", history); ("exportedAt", JStr (toISOString now))])).

Definition importData (jsonData : string) : ST Stores bool :=
  try_catchS
    (data <== liftS (JSON_parse jsonData) ;;
     templates <== liftS (Ok data $. "templates") ;;
     (if truthy templates && is_array templates
      then saveQueryTemplates templates else retS tt) ;;>
     settings <== liftS (Ok data $. "settings") ;;
     (if truthy settings
      then saveSettings (JObj (spread getDefaultSettings settings)) else retS tt) ;;>
     history <== liftS (Ok data $. "history") ;;
     (if truthy history && is_array history
      then localStorage_setItem QUERY_HISTORY (JSON_stringify history) else retS tt) ;;>
     retS true)
    (fun error => console_log "Failed to import data:" ;;> retS false).


(** ** The export store

    The state of the store that drives an export, and its [exportData]
    action over the results of the last query. A call creates its own
    progress callback, which sets the store at each event it receives. *)

Record ExportState : Type := {
  isExporting : bool;
  progress : Z;
  error : option string;
  lastExportedAt : option Z;
  totalItems : option nat;
  processedItems : option nat
}.

Record ExportStore : Type := {
  config : ExportConfig;
  state : ExportState;
  progressInfo : option ProgressInfo
}.

Definition defaultConfig : ExportConfig :=
  {| format := "xml"; includeFields := [];
     includeComments := false; includeAttachments := false;
     includeWorklog := false; includeSubtasks := true; includeLinks := false |}.

Definition initialExportStore : ExportStore :=
  {| config := defaultConfig;
     state := {| isExporting := false; progress := 0; error := None;
                 lastExportedAt := None; totalItems := None; processedItems := None |};
     progressInfo := None |}.

(** The callback handed to [exportService.export]. *)
Definition onProgressSet (st : ExportStore) (p : ProgressInfo) : ExportStore :=
  {| config := config st;
     state := {| isExporting := true; progress := percentage p; error := None;
                 lastExportedAt := None; totalItems := Some (total p);
                 processedItems := Some (current p) |};
     progressInfo := Some p |}.

(** The store's [exportData] action on the query's [results]. *)
Definition exportStore_exportData (results : list JsVal) (st : ExportStore) (w : World)
  : ExportStore * World :=
  if Nat.eqb (List.length results) 0 then
    ({| config := config st;
        state := {| isExporting := false; progress := 0;
                    error := Some "No data to export. Please execute a query first.";
                    lastExportedAt := None; totalItems := None; processedItems := None |};
        progressInfo := progressInfo st |}, w)
  else
    let startTime := clock (ticks w) in
    let w := {| ticks := S (ticks w); events := []; saved := saved w |} in
    let st1 :=
      {| config := config st;
         state := {| isExporting := true; progress := 0; error := None;
                     lastExportedAt := None; totalItems := Some (List.length results);
                     processedItems := Some 0%nat |};
         progressInfo :=
           Some {| current := 0; total := List.length results; percentage := 0;
                   stage := Processing; message := Some "Starting export...";
                   startTime := startTime; estimatedTimeRemaining := None |} |} in
    match export results (config st) true w with
    | (Ok _, w) =>
        let st2 := fold_left onProgressSet (events w) st1 in
        ({| config := config st2;
            state := {| isExporting := false; progress := 100; error := None;
                        lastExportedAt := Some (clock (ticks w));
                        totalItems := Some (List.length results);
                        processedItems := Some (List.length results) |};
            progressInfo := None |},
         {| ticks := S (ticks w); events := events w; saved := saved w |})
    | (Throw e, w) =>
        let st2 := fold_left onProgressSet (events w) st1 in
        let errorMessage := failure_message e in
        ({| config := config st2;
            state := {| isExporting := false; progress := 0; error := Some errorMessage;
                        lastExportedAt := None; totalItems := None;
                        processedItems := None |};
            progressInfo :=
              Some {| current := 0; total := List.length results; percentage := 0;
                      stage := Error; message := Some errorMessage;
                      startTime := startTime; estimatedTimeRemaining := None |} |}, w)
    end.

(** ** The connection store and the query store

    The state of the store that holds the connection and of the store that
    holds the query and its results, and their actions on a page whose
    client talks to [server]. Strings are kept in fields that are declared
    as strings and only ever set from strings; what comes from the server
    is kept as the value it is. The stores, the network and the storages
    read one clock. *)

Record ConnectionStore : Type := {
  storeServerUrl : string;
  storeToken : string;
  isConnected : bool;
  isLoading : bool;
  storeError : JsVal;
  client : option JiraClient;
  userInfo : JsVal
}.

Definition initialConnectionStore : ConnectionStore :=
  {| storeServerUrl := ""; storeToken := ""; isConnected := false; isLoading := false;
     storeError := JUndefined; client := None; userInfo := JNull |}.

Record QueryStore : Type := {
  jql : string;
  results : JsVal;
  totalCount : JsVal;
  queryLoading : bool;
  queryError : JsVal;
  startAt : JsVal;
  maxResults : JsVal;
  queryHistory : JsVal
}.

Definition initialQueryStore : QueryStore :=
  {| jql := ""; results := JArr []; totalCount := of_Z 0; queryLoading := false;
     queryError := JUndefined; startAt := of_Z 0; maxResults := of_Z 50;
     queryHistory := JArr [] |}.

Record Session : Type := {
  connection : ConnectionStore;
  query : QueryStore;
  net : Net;
  stores : Stores
}.

(** A step of the client, and a step of the storage service. *)
Definition onNet {A : Type} (m : ST Net A) : ST Session A :=
  fun a =>
    let (r, n) := m (net a) in
    (r, {| connection := connection a; query := query a; net := n;
           stores := {| localStorage := localStorage (stores a);
                        sessionStorage := sessionStorage (stores a);
                        clockReadings := readings n;
                        console := console (stores a) |} |}).

Definition onStores {A : Type} (m : ST Stores A) : ST Session A :=
  fun a =>
    let (r, s) := m (stores a) in
    (r, {| connection := connection a; query := query a;
           net := {| sent := sent (net a); readings := clockReadings s;
                     received := received (net a) |};
           stores := s |}).

(** [get()] and [set(...)] of the two stores. *)
Definition getState : ST Session ConnectionStore :=
  fun a => (Ok (connection a), a).

Definition setState (f : ConnectionStore -> ConnectionStore) : ST Session unit :=
  fun a => (Ok tt, {| connection := f (connection a); query := query a; net := net a;
                      stores := stores a |}).

Definition getQuery : ST Session QueryStore :=
  fun a => (Ok (query a), a).

Definition setQuery (f : QueryStore -> QueryStore) : ST Session unit :=
  fun a => (Ok tt, {| connection := connection a; query := f (query a); net := net a;
                      stores := stores a |}).

(** The store's [testConnection]. *)
Definition connectionStore_testConnection (server : Server) : ST Session bool :=
  state <== getState ;;
  if (storeServerUrl state =? "") || (storeToken state =? "")
  then
    setState (fun st =>
      {| storeServerUrl := storeServerUrl st; storeToken := storeToken st;
         isConnected := isConnected st; isLoading := isLoading st;
         storeError := JStr "Please provide server URL and API token";
         client := client st; userInfo := userInfo st |}) ;;>
    retS false
  else
    setState (fun st =>
      {| storeServerUrl := storeServerUrl st; storeToken := storeToken st;
         isConnected := isConnected st; isLoading := true;
         storeError := JUndefined;
         client := client st; userInfo := userInfo st |}) ;;>
    try_catchS
      (let client := newJiraClient (storeServerUrl state) (storeToken state) in
       userInfo <== onNet (testConnection server client) ;;
       setState (fun st =>
         {| storeServerUrl := storeServerUrl st; storeToken := storeToken st;
            isConnected := true; isLoading := false; storeError := JUndefined;
            client := Some client; userInfo := userInfo |}) ;;>
       (* Save connection config (respecting user preferences) *)
       settings <== onStores loadSettings ;;
       rememberCredentials <== liftS (getp settings "rememberCredentials") ;;
       onStores
         (saveConnection
            (JObj [("serverUrl", JStr (storeServerUrl state));
                   ("token", JStr (storeToken state));
                   ("isConnected", JBool true); ("isLoading", JBool false)])
            (truthy rememberCredentials)) ;;>
       retS true)
      (fun error =>
         message <== liftS (getp (caught error) "message") ;;
         setState (fun st =>
           {| storeServerUrl := storeServerUrl st; storeToken := storeToken st;
              isConnected := false; isLoading := false; storeError := message;
              client := None; userInfo := JNull |}) ;;>
         retS false).

(** The store's [disconnect]. *)
Definition connectionStore_disconnect : ST Session unit :=
  setState (fun st =>
    {| storeServerUrl := storeServerUrl st; storeToken := storeToken st;
       isConnected := false; isLoading := isLoading st; storeError := JUndefined;
       client := None; userInfo := JNull |}) ;;>
  (* Clear stored credentials *)
  onStores clearConnection.

(** [s.trim()] for a string of ASCII characters. *)
Definition is_space (c : ascii) : bool :=
  let n := nat_of_ascii c in
  Nat.eqb n 32 || (Nat.leb 9 n && Nat.leb n 13).

Fixpoint trimStart (s : string) : string :=
  match s with
  | EmptyString => EmptyString
  | String c tl => if is_space c then trimStart tl else s
  end.

Fixpoint trimEnd (s : string) : string :=
  match s with
  | EmptyString => EmptyString
  | String c tl =>
      match trimEnd tl with
      | EmptyString => if is_space c then EmptyString else String c EmptyString
      | tl' => String c tl'
      end
  end.

Definition trim (s : string) : string := trimEnd (trimStart s).

(** [a >= b]: two strings are compared as strings, anything else as
    numbers. *)
Definition js_ge (a b : JsVal) : bool :=
  match ToPrimitive a, ToPrimitive b with
  | JStr x, JStr y => negb (String.ltb x y)
  | pa, pb => num_ge (ToNumber pa) (ToNumber pb)
  end.

(** [...v] inside an array literal: arrays and strings can be iterated. *)
Definition iterate (v : JsVal) (what : string) : result (list JsVal) :=
  match v with
  | JArr items => Ok items
  | JStr s => Ok (characters s)
  | _ => Throw (ErrorObj (what ++ " is not iterable"))
  end.

(** The query store's [executeQuery]. *)
Definition queryStore_executeQuery (server : Server) : ST Session unit :=
  state <== getQuery ;;
  connectionState <== getState ;;
  match client connectionState with
  | None =>
      setQuery (fun st =>
        {| jql := jql st; results := results st; totalCount := totalCount st;
           queryLoading := queryLoading st; queryError := JStr "Not connected to JIRA";
           startAt := startAt st; maxResults := maxResults st;
           queryHistory := queryHistory st |})
  | Some client =>
      if trim (jql state) =? ""
      then
        setQuery (fun st =>
          {| jql := jql st; results := results st; totalCount := totalCount st;
             queryLoading := queryLoading st;
             queryError := JStr "Please enter a JQL query";
             startAt := startAt st; maxResults := maxResults st;
             queryHistory := queryHistory st |})
      else
        setQuery (fun st =>
          {| jql := jql st; results := JArr []; totalCount := of_Z 0;
             queryLoading := true; queryError := JUndefined;
             startAt := of_Z 0; maxResults := maxResults st;
             queryHistory := queryHistory st |}) ;;>
        try_catchS
          (response <== onNet (search server client (jql state) (of_Z 0)
                                 (maxResults state)
                                 (Some ["*all"]) (* Include all fields *)
                                 (Some ["changelog"])) ;;
           issues <== liftS (getp response "issues") ;;
           total <== liftS (getp response "total") ;;
           next <== liftS (first <- getp response "startAt" ;;
                           length <- Ok response $. "issues" $. "length" ;;
                           Ok (js_add first length)) ;;
           setQuery (fun st =>
             {| jql := jql st; results := issues; totalCount := total;
                queryLoading := false; queryError := JUndefined;
                startAt := next; maxResults := maxResults st;
                queryHistory := queryHistory st |}) ;;>
           (* Add to query history *)
           total <== liftS (getp response "total") ;;
           onStores (addToQueryHistory (jql state) total) ;;>
           history <== onStores loadQueryHistory ;;
           setQuery (fun st =>
             {| jql := jql st; results := results st; totalCount := totalCount st;
                queryLoading := queryLoading st; queryError := queryError st;
                startAt := startAt st; maxResults := maxResults st;
                queryHistory := history |}))
          (fun error =>
             message <== liftS (getp (caught error) "message") ;;
             setQuery (fun st =>
               {| jql := jql st; results := JArr []; totalCount := of_Z 0;
                  queryLoading := false; queryError := message;
                  startAt := startAt st; maxResults := maxResults st;
                  queryHistory := queryHistory st |}))
  end.

(** The query store's [loadMoreResults]. *)
Definition queryStore_loadMoreResults (server : Server) : ST Session unit :=
  state <== getQuery ;;
  connectionState <== getState ;;
  match client connectionState with
  | None => retS tt
  | Some client =>
      if queryLoading state || js_ge (startAt state) (totalCount state)
      then retS tt
      else
        setQuery (fun st =>
          {| jql := jql st; results := results st; totalCount := totalCount st;
             queryLoading := true; queryError := queryError st;
             startAt := startAt st; maxResults := maxResults st;
             queryHistory := queryHistory st |}) ;;>
        try_catchS
          (response <== onNet (search server client (jql state) (startAt state)
                                 (maxResults state)
                                 (Some ["*all"]) (Some ["changelog"])) ;;
           loaded <== liftS (iterate (results state) "state.results") ;;
           issues <== liftS (getp response "issues") ;;
           more <== liftS (iterate issues "response.issues") ;;
           length <== liftS (Ok response $. "issues" $. "length") ;;
           setQuery (fun st =>
             {| jql := jql st; results := JArr (loaded ++ more);
                totalCount := totalCount st;
                queryLoading := false; queryError := queryError st;
                startAt := js_add (startAt state) length; maxResults := maxResults st;
                queryHistory := queryHistory st |}))
          (fun error =>
             message <== liftS (getp (caught error) "message") ;;
             setQuery (fun st =>
               {| jql := jql st; results := results st; totalCount := totalCount st;
                  queryLoading := false; queryError := message;
                  startAt := startAt st; maxResults := maxResults st;
                  queryHistory := queryHistory st |}))
  end.

(** The query store's [clearResults]. *)
Definition queryStore_clearResults : ST Session unit :=
  setQuery (fun st =>
    {| jql := jql st; results := JArr []; totalCount := of_Z 0;
       queryLoading := queryLoading st; queryError := JUndefined;
       startAt := of_Z 0; maxResults := maxResults st;
       queryHistory := queryHistory st |}).

End Host.

(** ** The per-issue loop *)

#[local] Arguments Nat.modulo : simpl never.
#[local] Arguments Nat.div : simpl never.
#[local] Arguments Nat.mul : simpl never.

Lemma world_eta (w : World) : mkWorld (ticks w) (events w) (saved w) = w.
Proof. destruct w; reflexivity. Qed.

Lemma reportProgress_spec (st : Z) (n p : nat) (w : World) :
  reportProgress true st n p w =
  (Ok tt,
   if (p mod 10 =? 0)%nat
   then mkWorld (S (ticks w)) (events w ++ [progressEvent st n p (clock (ticks w))])
          (saved w)
   else w).
Proof.
  unfold reportProgress. rewrite andb_true_l.
  destruct (p mod 10 =? 0)%nat; reflexivity.
Qed.

Lemma forEachIssue_step (project : JsVal -> result Props) (cb : bool) (st : Z)
  (n : nat) (issue : JsVal) (rest : list JsVal) (c : nat) (out : list Props)
  (w : World) :
  forEachIssue project cb st n (issue :: rest) c out w =
  match project issue with
  | Ok record =>
      forEachIssue project cb st n rest (S c) (out ++ [record])
        (snd (reportProgress cb st n (S c) w))
  | Throw e => (Throw e, w)
  end.
Proof.
  cbn [forEachIssue]. unfold bindM at 1, lift.
  destruct (project issue) as [record|e]; [|reflexivity].
  unfold bindM at 1.
  destruct (reportProgress cb st n (S c) w) as [[[]|e] w'] eqn:E; [reflexivity|].
  unfold reportProgress in E.
  destruct (cb && (S c mod 10 =? 0)%nat); discriminate.
Qed.

Lemma forEachIssue_spec (project : JsVal -> result Props) (st : Z) (n : nat)
  (issues : list JsVal) :
  forall (c : nat) (out : list Props) (w : World),
    forEachIssue project true st n issues c out w =
    (rs <- mapM project issues ;; Ok ((c + List.length issues)%nat, (out ++ rs)%list),
     let evs := loopEvents st n c (ticks w) (okPrefix project issues) in
     mkWorld (ticks w + List.length evs) (events w ++ evs) (saved w)).
Proof.
  induction issues as [|issue rest IH]; intros c out w.
  - cbn. unfold ret. rewrite !Nat.add_0_r, !app_nil_r, world_eta. reflexivity.
  - rewrite forEachIssue_step. cbn [mapM okPrefix List.length].
    destruct (project issue) as [record|e]; cbn [bind].
    + rewrite IH, reportProgress_spec. cbn [snd loopEvents].
      replace (c + S (List.length rest))%nat with (S c + List.length rest)%nat by lia.
      f_equal.
      * destruct (mapM project rest); cbn [bind]; [|reflexivity].
        now rewrite <- app_assoc.
      * destruct (S c mod 10 =? 0)%nat; cbn -[Nat.modulo Nat.div]; [|reflexivity].
        unfold mkWorld. f_equal; [lia|]. now rewrite <- app_assoc.
    + cbn. rewrite !Nat.add_0_r, !app_nil_r, world_eta. reflexivity.
Qed.

Lemma forEachIssue_silent (project : JsVal -> result Props) (st : Z) (n : nat)
  (issues : list JsVal) :
  forall (c : nat) (out : list Props) (w : World),
    forEachIssue project false st n issues c out w =
    (rs <- mapM project issues ;; Ok ((c + List.length issues)%nat, (out ++ rs)%list), w).
Proof.
  induction issues as [|issue rest IH]; intros c out w.
  - cbn. unfold ret. now rewrite Nat.add_0_r, app_nil_r.
  - rewrite forEachIssue_step. cbn [mapM List.length].
    destruct (project issue) as [record|e]; cbn [bind]; [|reflexivity].
    rewrite IH. unfold reportProgress. cbn [andb snd ret].
    replace (c + S (List.length rest))%nat with (S c + List.length rest)%nat by lia.
    destruct (mapM project rest); cbn [bind]; [|reflexivity].
    now rewrite <- app_assoc.
Qed.

Lemma okPrefix_le {A B : Type} (f : A -> result B) (l : list A) :
  (okPrefix f l <= List.length l)%nat.
Proof.
  induction l as [|x tl IH]; simpl; [lia|].
  destruct (f x); lia.
Qed.

Lemma mapM_ok_prefix {A B : Type} (f : A -> result B) (l : list A) (ys : list B) :
  mapM f l = Ok ys -> okPrefix f l = List.length l /\ List.length ys = List.length l.
Proof.
  revert ys. induction l as [|x tl IH]; simpl; intros ys H.
  - inversion H. auto.
  - destruct (f x); simpl in H; [|discriminate].
    destruct (mapM f tl) as [ys'|]; simpl in H; [|discriminate].
    inversion H; subst. destruct (IH ys' eq_refl). simpl. lia.
Qed.

(** The loop's events in closed form: the [j]-th one is sent at count
    [10 * j] with the [j]-th reading of the clock since the loop began. *)
Lemma loopEvents_from (st : Z) (n : nat) :
  forall (k c t : nat),
    loopEvents st n c t k =
    map (fun j => progressEvent st n (10 * (c / 10 + j)) (clock (t + j - 1)))
      (seq 1 ((c + k) / 10 - c / 10)).
Proof.
  induction k as [|k IH]; intros c t; cbn [loopEvents].
  - rewrite Nat.add_0_r, Nat.sub_diag. reflexivity.
  - destruct (S c mod 10 =? 0)%nat eqn:E.
    + apply Nat.eqb_eq in E.
      assert (Hd : (S c / 10 = S (c / 10))%nat).
      { pose proof (Nat.div_mod_eq (S c) 10). pose proof (Nat.div_mod_eq c 10).
        pose proof (Nat.mod_upper_bound c 10). lia. }
      assert (Hc : (S c = 10 * (c / 10 + 1))%nat).
      { pose proof (Nat.div_mod_eq (S c) 10). lia. }
      assert (Hk : ((c + S k) / 10 - c / 10 = S ((S c + k) / 10 - S c / 10))%nat).
      { replace (c + S k)%nat with (S c + k)%nat by lia.
        assert (S c / 10 <= (S c + k) / 10)%nat
          by (apply Nat.Div0.div_le_mono; lia).
        lia. }
      rewrite Hk, IH. cbn [seq map]. f_equal.
      * rewrite <- Hc. f_equal. f_equal. lia.
      * rewrite <- (seq_shift _ 1), map_map. apply map_ext. intros j.
        rewrite Hd. f_equal; [lia|]. f_equal. lia.
    + apply Nat.eqb_neq in E.
      assert (Hd : (S c / 10 = c / 10)%nat).
      { pose proof (Nat.div_mod_eq (S c) 10). pose proof (Nat.div_mod_eq c 10).
        pose proof (Nat.mod_upper_bound c 10).
        pose proof (Nat.mod_upper_bound (S c) 10). lia. }
      rewrite IH, Hd. replace (c + S k)%nat with (S c + k)%nat by lia.
      reflexivity.
Qed.

Lemma loopEvents_closed (st : Z) (n k t : nat) :
  loopEvents st n 0 t k =
  map (fun j => progressEvent st n (10 * j) (clock (t + j - 1))) (seq 1 (k / 10)).
Proof.
  rewrite loopEvents_from. simpl Nat.add.
  rewrite Nat.Div0.div_0_l, Nat.sub_0_r. reflexivity.
Qed.

Lemma loopEvents_length (st : Z) (n k t : nat) :
  List.length (loopEvents st n 0 t k) = (k / 10)%nat.
Proof. now rewrite loopEvents_closed, length_map, length_seq. Qed.

(** ** What each exporter does to the world *)

Lemma exportJson_spec (issues : list JsVal) (config : ExportConfig) (w : World) :
  exportJson issues config true w =
  let st := clock (ticks w) in
  let n := List.length issues in
  let project := fun issue => processIssueForJson issue config in
  let evs := loopEvents st n 0 (ticks w + 2) (okPrefix project issues) in
  let t1 := (ticks w + 2 + List.length evs)%nat in
  let exporting := plainEvent n n 100 Exporting "Generating JSON..." st in
  match mapM project issues with
  | Throw e => (Throw e, mkWorld t1 (events w ++ evs) (saved w))
  | Ok rs =>
      match JSON_stringify_indented
              (exportData (toISOString (clock (S (ticks w)))) n rs) with
      | Throw e => (Throw e, mkWorld t1 (events w ++ evs ++ [exporting]) (saved w))
      | Ok text =>
          (Ok tt,
           mkWorld (S t1)
             (events w ++ evs
              ++ [exporting; plainEvent n n 100 Complete "JSON export complete" st])
             (saved w
              ++ [{| content := text;
                     mimeType := "application/json;charset=utf-8";
                     filename := "jira-export-" ++ before_T (toISOString (clock t1))
                                 ++ ".json" |}]))
      end
  end.
Proof.
  unfold exportJson. cbv zeta.
  unfold bindM at 1, Date_now at 1. cbn [ticks events saved].
  unfold bindM at 1, Date_now at 1. cbn [ticks events saved].
  unfold bindM at 1. rewrite forEachIssue_spec. cbn [ticks events saved].
  replace (S (S (ticks w))) with (ticks w + 2)%nat by lia.
  destruct (mapM (fun issue => processIssueForJson issue config) issues) as [rs|e];
    cbn [bind fst snd]; [|reflexivity].
  unfold bindM at 1, emit at 1. cbn [ticks events saved mkWorld].
  unfold bindM at 1, lift at 1.
  destruct (JSON_stringify_indented _) as [text|e].
  - unfold bindM at 1, export_filename, bindM at 1, Date_now, ret.
    cbn [ticks events saved].
    unfold bindM, saveAs, emit, mkWorld, plainEvent. cbn [ticks events saved].
    rewrite <- !app_assoc. reflexivity.
  - unfold mkWorld, plainEvent. rewrite <- !app_assoc. reflexivity.
Qed.

Lemma exportCsv_spec (issues : list JsVal) (config : ExportConfig) (w : World) :
  exportCsv issues config true w =
  let st := clock (ticks w) in
  let n := List.length issues in
  let project := fun issue => processIssueForCsv issue config in
  let preparing := plainEvent 0 n 0 Processing "Preparing CSV export..." st in
  let evs := loopEvents st n 0 (ticks w + 1) (okPrefix project issues) in
  let t1 := (ticks w + 1 + List.length evs)%nat in
  match mapM project issues with
  | Throw e => (Throw e, mkWorld t1 (events w ++ preparing :: evs) (saved w))
  | Ok rows =>
      (Ok tt,
       mkWorld (S t1)
         (events w ++ preparing :: evs
          ++ [plainEvent n n 100 Exporting "Generating CSV..." st;
              plainEvent n n 100 Complete "CSV export complete" st])
         (saved w
          ++ [{| content := Papa_unparse rows;
                 mimeType := "text/csv;charset=utf-8";
                 filename := "jira-export-" ++ before_T (toISOString (clock t1))
                             ++ ".csv" |}]))
  end.
Proof.
  unfold exportCsv. cbv zeta.
  unfold bindM at 1, Date_now at 1. cbn [ticks events saved].
  unfold bindM at 1, emit at 1. cbn [ticks events saved].
  unfold bindM at 1. rewrite forEachIssue_spec. cbn [ticks events saved].
  replace (S (ticks w)) with (ticks w + 1)%nat by lia.
  destruct (mapM (fun issue => processIssueForCsv issue config) issues) as [rows|e];
    cbn [bind fst snd].
  - unfold bindM at 1, emit at 1. cbn [ticks events saved mkWorld].
    unfold bindM at 1, export_filename, bindM at 1, Date_now, ret.
    cbn [ticks events saved].
    unfold bindM, saveAs, emit, mkWorld, plainEvent. cbn [ticks events saved].
    rewrite <- !app_assoc. reflexivity.
  - unfold mkWorld, plainEvent. rewrite <- !app_assoc. reflexivity.
Qed.

Lemma exportToXml_spec (issues : list JsVal) (config : ExportConfig) (w : World) :
  exportToXml issues config true w =
  let st := clock (ticks w) in
  let n := List.length issues in
  let project := fun issue => convertIssueToXml issue config in
  let preparing := plainEvent 0 n 0 Processing "Preparing XML export..." st in
  let evs := loopEvents st n 0 (ticks w + 2) (okPrefix project issues) in
  let t1 := (ticks w + 2 + List.length evs)%nat in
  let exporting := plainEvent n n 100 Exporting "Generating XML..." st in
  match mapM project issues with
  | Throw e => (Throw e, mkWorld t1 (events w ++ preparing :: evs) (saved w))
  | Ok items =>
      match XMLBuilder_build
              (xmlData n (toISOString (clock (S (ticks w)))) items) with
      | Throw e =>
          (Throw e, mkWorld t1 (events w ++ preparing :: evs ++ [exporting]) (saved w))
      | Ok text =>
          (Ok text,
           mkWorld t1
             (events w ++ preparing :: evs
              ++ [exporting; plainEvent n n 100 Complete "Export complete" st])
             (saved w))
      end
  end.
Proof.
  unfold exportToXml. cbv zeta.
  unfold bindM at 1, Date_now at 1. cbn [ticks events saved].
  unfold bindM at 1, emit at 1. cbn [ticks events saved].
  unfold bindM at 1, Date_now at 1. cbn [ticks events saved].
  unfold bindM at 1. rewrite forEachIssue_spec. cbn [ticks events saved].
  replace (S (S (ticks w))) with (ticks w + 2)%nat by lia.
  destruct (mapM (fun issue => convertIssueToXml issue config) issues) as [items|e];
    cbn [bind fst snd].
  - unfold bindM at 1, emit at 1. cbn [ticks events saved mkWorld].
    unfold bindM at 1, lift at 1.
    destruct (XMLBuilder_build _) as [text|e].
    + unfold bindM, emit, ret, mkWorld, plainEvent. cbn [ticks events saved].
      rewrite <- !app_assoc. reflexivity.
    + unfold mkWorld, plainEvent. rewrite <- !app_assoc. reflexivity.
  - unfold mkWorld, plainEvent. rewrite <- !app_assoc. reflexivity.
Qed.

Lemma exportXml_spec (issues : list JsVal) (config : ExportConfig) (w : World) :
  exportXml issues config true w =
  match exportToXml issues config true w with
  | (Throw e, w') => (Throw e, w')
  | (Ok text, w') =>
      (Ok tt,
       mkWorld (S (ticks w')) (events w')
         (saved w'
          ++ [{| content := text;
                 mimeType := "application/xml;charset=utf-8";
                 filename := "jira-export-" ++ before_T (toISOString (clock (ticks w')))
                             ++ ".xml" |}]))
  end.
Proof.
  unfold exportXml. unfold bindM at 1.
  destruct (exportToXml issues config true w) as [[text|e] w']; [|reflexivity].
  unfold bindM, export_filename, bindM, Date_now, ret, downloadXml, saveAs, mkWorld.
  reflexivity.
Qed.

(** ** Rounded percentages *)

Lemma Q_of_nat_nonneg (n : nat) : 0 <= Q_of_nat n.
Proof.
  unfold Q_of_nat. change 0 with (inject_Z 0). rewrite <- Zle_Qle. lia.
Qed.

Lemma Q_of_nat_le (p q : nat) : (p <= q)%nat -> Q_of_nat p <= Q_of_nat q.
Proof. intros H. unfold Q_of_nat. rewrite <- Zle_Qle. lia. Qed.

Lemma ratio_le (n p q : nat) :
  (p <= q)%nat -> Q_of_nat p / Q_of_nat n * 100 <= Q_of_nat q / Q_of_nat n * 100.
Proof.
  intros H. apply Qmult_le_compat_r; [|discriminate].
  unfold Qdiv. apply Qmult_le_compat_r; [now apply Q_of_nat_le|].
  apply Qinv_le_0_compat, Q_of_nat_nonneg.
Qed.

Lemma Math_round_le (x y : Q) : x <= y -> (Math_round x <= Math_round y)%Z.
Proof.
  intros H. unfold Math_round. apply Qfloor_resp_le.
  apply Qplus_le_compat; [exact H|apply Qle_refl].
Qed.

Lemma percentAt_mono (n p q : nat) :
  (p <= q)%nat -> (percentAt n p <= percentAt n q)%Z.
Proof. intros H. apply Math_round_le, ratio_le, H. Qed.

Lemma percentAt_nonneg (n p : nat) : (0 <= percentAt n p)%Z.
Proof.
  change 0%Z with (Math_round 0). apply Math_round_le.
  apply Qmult_le_0_compat; [|discriminate].
  unfold Qdiv. apply Qmult_le_0_compat; [apply Q_of_nat_nonneg|].
  apply Qinv_le_0_compat, Q_of_nat_nonneg.
Qed.

Lemma percentAt_le_100 (n p : nat) : (p <= n)%nat -> (percentAt n p <= 100)%Z.
Proof.
  intros H. change 100%Z with (Math_round 100). apply Math_round_le.
  destruct n as [|n].
  - assert (p = 0)%nat by lia. subst p. discriminate.
  - apply Qle_trans with (Q_of_nat (S n) / Q_of_nat (S n) * 100).
    + now apply ratio_le.
    + assert (Hn : ~ Q_of_nat (S n) == 0).
      { unfold Q_of_nat, Qeq. simpl. lia. }
      unfold Qdiv. rewrite Qmult_inv_r by exact Hn. apply Qle_refl.
Qed.

(** ** Ordered lists *)

Lemma StronglySorted_app {A : Type} (R : A -> A -> Prop) (l1 l2 : list A) :
  StronglySorted R l1 -> StronglySorted R l2 ->
  (forall x y, In x l1 -> In y l2 -> R x y) ->
  StronglySorted R (l1 ++ l2).
Proof.
  induction l1 as [|a l1 IH]; intros H1 H2 H; simpl; [exact H2|].
  apply StronglySorted_inv in H1. destruct H1 as [H1 Ha].
  constructor.
  - apply IH; auto. intros x y Hx Hy. apply H; [now right|exact Hy].
  - apply Forall_app. split; [exact Ha|].
    apply Forall_forall. intros y Hy. apply H; [now left|exact Hy].
Qed.

Lemma StronglySorted_map_seq {A : Type} (R : A -> A -> Prop) (f : nat -> A)
  (a m : nat) :
  (forall i j, (i <= j)%nat -> R (f i) (f j)) ->
  StronglySorted R (map f (seq a m)).
Proof.
  intros H. revert a. induction m as [|m IH]; intros a; simpl; constructor.
  - apply IH.
  - apply Forall_forall. intros y Hy. apply in_map_iff in Hy.
    destruct Hy as [j [<- Hj]]. apply in_seq in Hj. apply H. lia.
Qed.

(** A trace that opens with [lo]s, runs through an ordered middle and closes
    with two [hi]s. *)
Lemma StronglySorted_bracket {A : Type} (R : A -> A -> Prop) (lo hi : A)
  (pre mid : list A) :
  R lo lo -> R lo hi -> R hi hi ->
  Forall (eq lo) pre ->
  StronglySorted R mid ->
  Forall (fun x => R lo x /\ R x hi) mid ->
  StronglySorted R (lo :: pre ++ mid ++ [hi; hi]).
Proof.
  intros Hll Hlh Hhh Hpre Hmid Hb.
  assert (Htail : StronglySorted R (mid ++ [hi; hi])).
  { apply StronglySorted_app; auto.
    - repeat constructor; auto.
    - intros x y Hx Hy. rewrite Forall_forall in Hb.
      destruct Hy as [<-|[<-|[]]]; now apply Hb. }
  assert (Hlo : Forall (R lo) (mid ++ [hi; hi])).
  { apply Forall_app. split.
    - eapply Forall_impl; [|exact Hb]. now intros x [Hx _].
    - repeat constructor; auto. }
  assert (Hall : Forall (R lo) (pre ++ mid ++ [hi; hi])).
  { apply Forall_app. split; [|exact Hlo].
    eapply Forall_impl; [|exact Hpre]. now intros x <-. }
  constructor; [|exact Hall].
  clear Hall. induction Hpre as [|x pre <- Hpre IH]; simpl; [exact Htail|].
  constructor; [exact IH|].
  apply Forall_app. split; [|exact Hlo].
  eapply Forall_impl; [|exact Hpre]. now intros y <-.
Qed.

(** ** The events of a run *)

Lemma export_run (issues : list JsVal) (config : ExportConfig) :
  run (export issues config true) =
  match dispatch issues config true (entered issues config) with
  | (Ok a, w1) => (Ok a, w1)
  | (Throw e, w1) =>
      (Throw e, mkWorld (ticks w1) (events w1 ++ [errorEvent issues e]) (saved w1))
  end.
Proof.
  unfold run, export, initial.
  unfold bindM at 1, Date_now at 1. cbn [ticks events saved].
  unfold bindM at 1, emit at 1. cbn [ticks events saved app].
  unfold try_catch.
  change {| ticks := 1; events := _; saved := [] |} with (entered issues config).
  destruct (dispatch issues config true (entered issues config)) as [[a|e] w1];
    reflexivity.
Qed.

Lemma mapM_okPrefix {A B : Type} (f : A -> result B) (l : list A) (ys : list B) :
  mapM f l = Ok ys -> okPrefix f l = List.length l.
Proof. intros H. now apply mapM_ok_prefix in H. Qed.

(** Whatever the format and however the run ends, the dispatched exporter
    sends preparation events, then the loop's events, then the closing ones;
    it saves a file only when it returns normally. *)
Lemma dispatch_trace (issues : list JsVal) (config : ExportConfig) (w : World)
  (r : result unit) (w' : World) :
  dispatch issues config true w = (r, w') ->
  let n := List.length issues in
  exists (st : Z) (t k : nat) (pre tail : list ProgressInfo),
    events w' = (events w ++ pre ++ loopEvents st n 0 t k ++ tail)%list /\
    (k <= n)%nat /\
    Forall (opening n) pre /\
    match r with
    | Ok _ =>
        k = n /\
        exists e1 e2, tail = [e1; e2] /\ closing n Exporting e1 /\ closing n Complete e2
    | Throw _ =>
        (tail = [] \/ exists e1, tail = [e1] /\ closing n Exporting e1) /\
        saved w' = saved w
    end.
Proof.
  intros H n. unfold dispatch in H.
  destruct (format config =? "xml").
  { rewrite exportXml_spec, exportToXml_spec in H. cbv zeta in H. fold n in H.
    pose proof (okPrefix_le (fun issue => convertIssueToXml issue config) issues) as Hk.
    destruct (mapM _ issues) as [items|e] eqn:Hm.
    - apply mapM_okPrefix in Hm. rewrite Hm in H. fold n in H.
      destruct (XMLBuilder_build _) as [text|e]; inversion H; subst; clear H;
        cbn [events saved mkWorld];
        eexists _, _, n, [_], _; (split; [reflexivity|]);
        (split; [lia|]); (split; [repeat constructor|]).
      + split; [reflexivity|]. eexists _, _. repeat split.
      + split; [|reflexivity]. right. eexists. repeat split.
    - inversion H; subst; clear H. cbn [events saved mkWorld].
      eexists _, _, _, [_], []. rewrite app_nil_r.
      split; [reflexivity|]. split; [exact Hk|]. split; [repeat constructor|].
      split; [now left|reflexivity]. }
  destruct (format config =? "json").
  { rewrite exportJson_spec in H. cbv zeta in H. fold n in H.
    pose proof (okPrefix_le (fun issue => processIssueForJson issue config) issues) as Hk.
    destruct (mapM _ issues) as [rs|e] eqn:Hm.
    - apply mapM_okPrefix in Hm. rewrite Hm in H. fold n in H.
      destruct (JSON_stringify_indented _) as [text|e]; inversion H; subst; clear H;
        cbn [events saved mkWorld];
        eexists _, _, n, [], _; (split; [reflexivity|]);
        (split; [lia|]); (split; [constructor|]).
      + split; [reflexivity|]. eexists _, _. repeat split.
      + split; [|reflexivity]. right. eexists. repeat split.
    - inversion H; subst; clear H. cbn [events saved mkWorld].
      eexists _, _, _, [], []. rewrite app_nil_r.
      split; [reflexivity|]. split; [exact Hk|]. split; [constructor|].
      split; [now left|reflexivity]. }
  destruct (format config =? "csv").
  { rewrite exportCsv_spec in H. cbv zeta in H. fold n in H.
    pose proof (okPrefix_le (fun issue => processIssueForCsv issue config) issues) as Hk.
    destruct (mapM _ issues) as [rows|e] eqn:Hm.
    - apply mapM_okPrefix in Hm. rewrite Hm in H. fold n in H.
      inversion H; subst; clear H. cbn [events saved mkWorld].
      eexists _, _, n, [_], _. split; [reflexivity|].
      split; [lia|]. split; [repeat constructor|].
      split; [reflexivity|]. eexists _, _. repeat split.
    - inversion H; subst; clear H. cbn [events saved mkWorld].
      eexists _, _, _, [_], []. rewrite app_nil_r.
      split; [reflexivity|]. split; [exact Hk|]. split; [repeat constructor|].
      split; [now left|reflexivity]. }
  unfold throw in H. inversion H; subst; clear H.
  exists 0%Z, 0%nat, 0%nat, [], []. cbn. rewrite app_nil_r.
  repeat split; auto with arith.
Qed.

Lemma loopEvents_currents (st : Z) (n t k : nat) :
  map current (loopEvents st n 0 t k) = map (fun j => (10 * j)%nat) (seq 1 (k / 10)).
Proof. rewrite loopEvents_closed, map_map. reflexivity. Qed.

Lemma loopEvents_percentages (st : Z) (n t k : nat) :
  map percentage (loopEvents st n 0 t k) =
  map (fun j => percentAt n (10 * j)) (seq 1 (k / 10)).
Proof. rewrite loopEvents_closed, map_map. reflexivity. Qed.

Lemma loopEvents_shape (st : Z) (n t k : nat) :
  (k <= n)%nat ->
  Forall (fun ev => stage ev = Processing /\ total ev = n /\
                    (10 <= current ev <= n)%nat)
    (loopEvents st n 0 t k).
Proof.
  intros Hk. rewrite loopEvents_closed. apply Forall_forall. intros ev Hev.
  apply in_map_iff in Hev. destruct Hev as [j [<- Hj]]. apply in_seq in Hj.
  cbn [progressEvent stage total current].
  pose proof (Nat.Div0.mul_div_le k 10). repeat split; lia.
Qed.

(** ** Failing runs *)

Lemma failing_run_trace (issues : list JsVal) (config : ExportConfig) (e : Exn) :
  fst (run (export issues config true)) = Throw e ->
  fst (dispatch issues config true (entered issues config)) = Throw e /\
  saved (snd (run (export issues config true))) = [] /\
  exists pre,
    events (snd (run (export issues config true)))
    = (startEvent issues config :: pre ++ [errorEvent issues e])%list /\
    Forall (fun ev => stage ev <> Error) pre.
Proof.
  rewrite export_run.
  destruct (dispatch issues config true (entered issues config)) as [r w1] eqn:Hd.
  destruct r as [a|e']; cbn [fst snd]; intros H; [discriminate|].
  inversion H; subst e'; clear H. split; [reflexivity|].
  apply dispatch_trace in Hd. cbv zeta in Hd.
  destruct Hd as (st & t & k & pre & tail & Hev & Hk & Hpre & Htail & Hsaved).
  cbn [saved events mkWorld]. split; [exact Hsaved|].
  rewrite Hev. cbn [entered events mkWorld app].
  exists (pre ++ loopEvents st (List.length issues) 0 t k ++ tail)%list.
  split; [now rewrite <- !app_assoc|].
  apply Forall_app. split.
  - eapply Forall_impl; [|exact Hpre]. intros ev (_ & _ & _ & Hs). now rewrite Hs.
  - apply Forall_app. split.
    + eapply Forall_impl; [|apply loopEvents_shape, Hk].
      intros ev (Hs & _). now rewrite Hs.
    + destruct Htail as [->|[e1 [-> (_ & _ & _ & Hs)]]]; repeat constructor.
      now rewrite Hs.
Qed.

(** C2: when the dispatched exporter raises an exception, whether a
    projector, the encoder or the serialiser threw it, [export] rethrows the
    same exception, the callback receives exactly one event of stage [Error]
    (the last one, carrying the failure's message) and nothing is saved. *)
Theorem export_failure_reported_once (issues : list JsVal) (config : ExportConfig)
  (e : Exn) :
  fst (dispatch issues config true (entered issues config)) = Throw e ->
  fst (run (export issues config true)) = Throw e /\
  (exists pre,
     events (snd (run (export issues config true)))
     = (pre ++ [{| current := 0; total := List.length issues; percentage := 0;
                   stage := Error; message := Some (failure_message e);
                   startTime := clock 0; estimatedTimeRemaining := None |}])%list /\
     Forall (fun ev => stage ev <> Error) pre) /\
  saved (snd (run (export issues config true))) = [].
Proof.
  intros Hd.
  assert (Hr : fst (run (export issues config true)) = Throw e).
  { rewrite export_run.
    destruct (dispatch issues config true (entered issues config)) as [[a|e'] w1];
      cbn [fst] in *; [discriminate|exact Hd]. }
  destruct (failing_run_trace issues config e Hr) as (_ & Hsaved & pre & Hev & Hpre).
  split; [exact Hr|]. split; [|exact Hsaved].
  exists (startEvent issues config :: pre). split; [exact Hev|].
  constructor; [discriminate|exact Hpre].
Qed.

(** C9: in a failing run the event sent from the [catch] block comes after
    at least one other event and carries [current = 0] and
    [percentage = 0], whatever counts the events before it reported. *)
Theorem error_event_resets_counts (issues : list JsVal) (config : ExportConfig)
  (e : Exn) :
  fst (run (export issues config true)) = Throw e ->
  exists pre ev,
    pre <> [] /\
    events (snd (run (export issues config true))) = (pre ++ [ev])%list /\
    stage ev = Error /\ current ev = 0%nat /\ percentage ev = 0%Z.
Proof.
  intros Hr.
  destruct (failing_run_trace issues config e Hr) as (_ & _ & pre & Hev & _).
  exists (startEvent issues config :: pre), (errorEvent issues e).
  split; [discriminate|]. split; [exact Hev|]. repeat split.
Qed.


(** ** Successful runs *)

Lemma successful_run_trace (issues : list JsVal) (config : ExportConfig) :
  fst (run (export issues config true)) = Ok tt ->
  let n := List.length issues in
  exists (st : Z) (t : nat) (pre : list ProgressInfo) (e1 e2 : ProgressInfo),
    events (snd (run (export issues config true)))
    = (startEvent issues config :: pre ++ loopEvents st n 0 t n ++ [e1; e2])%list /\
    Forall (opening n) pre /\ closing n Exporting e1 /\ closing n Complete e2.
Proof.
  rewrite export_run.
  destruct (dispatch issues config true (entered issues config)) as [r w1] eqn:Hd.
  destruct r as [[]|e]; cbn [fst snd]; intros H; [|discriminate].
  apply dispatch_trace in Hd. cbv zeta in Hd.
  destruct Hd as (st & t & k & pre & tail & Hev & Hk & Hpre & -> & e1 & e2 & -> & H1 & H2).
  exists st, t, pre, e1, e2. rewrite Hev.
  split; [reflexivity|]. split; [assumption|]. split; assumption.
Qed.



(** ** Reading the projectors *)

Lemma mkProps_inv (k : string) (e : result JsVal) (tl : list (string * result JsVal))
  (ps : Props) :
  mkProps ((k, e) :: tl) = Ok ps ->
  exists v rest, e = Ok v /\ mkProps tl = Ok rest /\ ps = (k, v) :: rest.
Proof.
  cbn [mkProps]. destruct e as [v|]; cbn [bind]; [|discriminate].
  destruct (mkProps tl) as [rest|]; cbn [bind]; [|discriminate].
  intros H. inversion H. eauto.
Qed.

Lemma mkProps_nil_inv (ps : Props) : mkProps [] = Ok ps -> ps = [].
Proof. cbn. now inversion 1. Qed.

Lemma getr_inv (e : result JsVal) (k : string) (v : JsVal) :
  e $. k = Ok v -> exists b, e = Ok b /\ nullish b = false /\ v = prop b k.
Proof.
  unfold getr, getp. destruct e as [b|]; cbn [bind]; [|discriminate].
  destruct (nullish b) eqn:Hb; [discriminate|]. intros H. inversion H.
  exists b. auto.
Qed.

Lemma getr_Ok (v : JsVal) (k : string) :
  nullish v = false -> Ok v $. k = Ok (prop v k).
Proof. intros H. unfold getr, getp. cbn [bind]. now rewrite H. Qed.

Lemma fields_Ok (issue : JsVal) (k : string) :
  nullish issue = false -> nullish (prop issue "fields") = false ->
  Ok issue $. "fields" $. k = Ok (field issue k).
Proof. intros H1 H2. now rewrite (getr_Ok issue), (getr_Ok _ k). Qed.

Lemma lookup_obj_set_other (obj : Props) (k k' : string) (v : JsVal) :
  (k' =? k) = false -> lookup k (obj_set obj k' v) = lookup k obj.
Proof.
  intros Hk. induction obj as [|[k0 v0] tl IH]; cbn [obj_set lookup].
  - now rewrite Hk.
  - destruct (k0 =? k') eqn:E; cbn [lookup].
    + apply String.eqb_eq in E. subst k0. now rewrite Hk.
    + now rewrite IH.
Qed.

Lemma lookup_obj_set_same (obj : Props) (k : string) (v : JsVal) :
  lookup k (obj_set obj k v) = Some v.
Proof.
  induction obj as [|[k0 v0] tl IH]; cbn [obj_set lookup].
  - now rewrite String.eqb_refl.
  - destruct (k0 =? k) eqn:E; cbn [lookup]; now rewrite E.
Qed.

Lemma keys_obj_set (obj : Props) (k : string) (v : JsVal) :
  Object_keys (obj_set obj k v)
  = if existsb (String.eqb k) (Object_keys obj) then Object_keys obj
    else (Object_keys obj ++ [k])%list.
Proof.
  unfold Object_keys.
  induction obj as [|[k0 v0] tl IH]; cbn [obj_set map existsb app fst].
  - reflexivity.
  - rewrite (String.eqb_sym k k0).
    destruct (k0 =? k); cbn [map orb fst]; [reflexivity|].
    rewrite IH. now destruct (existsb _ _).
Qed.

Lemma truthy_not_nullish (v : JsVal) : truthy v = true -> nullish v = false.
Proof. destruct v; cbn; congruence. Qed.

Lemma cond_Ok (v : JsVal) (t e : result JsVal) :
  cond (Ok v) t e = if truthy v then t else e.
Proof. reflexivity. Qed.

Lemma js_or_Ok (a b : JsVal) : Ok a <||> Ok b = Ok (or_val a b).
Proof. unfold js_or, or_val. cbn [bind]. now destruct (truthy a). Qed.

Lemma optChain_getp (v : JsVal) (k : string) :
  optChain (Ok v) (fun c => getp c k) = Ok (optprop v k).
Proof.
  unfold optChain, optprop, getp. cbn [bind]. now destruct (nullish v).
Qed.

Lemma gate_inv (flag : bool) (e : result JsVal) (x a : JsVal) :
  e = Ok x ->
  (if flag then e else Ok (JBool false)) = Ok a ->
  truthy a = flag && truthy x.
Proof. intros -> H. destruct flag; inversion H; subst; reflexivity. Qed.

(** Inverting an object literal that evaluated: one value per property. *)
Ltac inv_props H :=
  repeat (let v := fresh "v" in
          let rest := fresh "rest" in
          let Hv := fresh "Hv" in
          let Hrest := fresh "Hrest" in
          apply mkProps_inv in H;
          destruct H as (v & rest & Hv & Hrest & ->);
          rename Hrest into H);
  apply mkProps_nil_inv in H; subst.

(** Going through the binds of a projector that returned. *)
Ltac walk H :=
  repeat match type of H with
         | bind ?e _ = Ok _ =>
             let E := fresh "E" in
             destruct e eqn:E; cbn [bind] in H; [|discriminate]
         end.

(** One [if (...) { obj[k] = v }] block that went through. *)
Ltac open_block E :=
  unfold push_if in E;
  lazymatch type of E with
  | bind ?v _ = Ok _ =>
      let V := fresh "V" in
      destruct v eqn:V; cbn [bind] in E; [|discriminate];
      inversion E; subst; clear E
  | Ok _ = Ok _ => inversion E; subst; clear E
  | (if ?c then _ else _) = Ok _ =>
      let T := fresh "T" in
      destruct c eqn:T;
      [ match type of E with
        | bind ?v _ = Ok _ =>
            let V := fresh "V" in
            destruct v eqn:V; cbn [bind] in E; [|discriminate]
        end | ];
      inversion E; subst; clear E
  end.

Ltac use_gates :=
  repeat match goal with
         | G : true = andb _ _ |- _ => rewrite <- G; clear G
         | G : false = andb _ _ |- _ => rewrite <- G; clear G
         | T : truthy (field _ _) = _ |- _ => rewrite T
         | T : Nat.ltb _ _ = _ |- _ => rewrite T
         end.

Lemma parent_block_inv (p : JsVal) (k1 k2 k3 : string) (v : JsVal) :
  mkObj [(k1, Ok p $. "id"); (k2, Ok p $. "key");
         (k3, Ok p $. "fields" $. "summary")] = Ok v ->
  v = JObj [(k1, prop p "id"); (k2, prop p "key");
            (k3, prop (prop p "fields") "summary")].
Proof.
  unfold mkObj. destruct (mkProps _) as [ps|] eqn:E; cbn [bind]; [|discriminate].
  intros H. inversion H; subst v; clear H. inv_props E.
  apply getr_inv in Hv, Hv0, Hv1.
  destruct Hv as (b & Hb & _ & ->). inversion Hb; subst b.
  destruct Hv0 as (b & Hb0 & _ & ->). inversion Hb0; subst b.
  destruct Hv1 as (b & Hb1 & _ & ->).
  apply getr_inv in Hb1. destruct Hb1 as (b' & Hb' & _ & ->).
  inversion Hb'; subst b'. reflexivity.
Qed.

(** What a record of [processIssueForJson] is made of: the opening literal,
    then the optional blocks that apply, the parent among them. *)
Lemma processIssueForJson_inv (issue : JsVal) (config : ExportConfig) (r : Props) :
  processIssueForJson issue config = Ok r ->
  jsonCore issue = Ok (firstn 19 r) /\
  Object_keys (skipn 19 r) = jsonOptionalKeys issue config /\
  (truthy (field issue "parent") = true ->
   lookup "parent" (skipn 19 r)
   = Some (JObj [("id", prop (field issue "parent") "id");
                 ("key", prop (field issue "parent") "key");
                 ("summary", prop (prop (field issue "parent") "fields") "summary")])).
Proof.
  intros H. unfold processIssueForJson in H. cbv zeta in H.
  walk H. inversion H; subst r; clear H.
  unfold jsonCore in E. cbv zeta in E. inv_props E.
  apply getr_inv in Hv. destruct Hv as (b & Hb & Hn & _). inversion Hb; subst b.
  apply getr_inv in Hv2. destruct Hv2 as (f & Hf & Hnf & _).
  rewrite (getr_Ok issue) in Hf by exact Hn. inversion Hf; subst f.
  rewrite !(fields_Ok issue) in E0, E2, E4, E6, E8, E10 by assumption.
  rewrite ?optChain_getp in E0, E4.
  apply (gate_inv _ _ _ _ eq_refl) in E0, E2, E4, E6, E8.
  inversion E10; subst a10; clear E10.
  clear Hv0 Hv1 Hv3 Hv4 Hv5 Hv6 Hv7 Hv8 Hv9 Hv10 Hv11 Hv12 Hv13 Hv14 Hv15 Hv16 Hv17.
  unfold jsonOptionalKeys.
  open_block E1; open_block E3; open_block E5; open_block E7; open_block E9;
    open_block E11; use_gates;
    (split; [reflexivity|]); (split; [reflexivity|]);
    intros Hp; try discriminate Hp;
    match goal with V : mkObj _ = Ok _ |- _ => apply parent_block_inv in V; subst end;
    reflexivity.
Qed.

Lemma collectCustomFields_Ok (issue : JsVal) (keys : list string) :
  nullish issue = false -> nullish (prop issue "fields") = false ->
  collectCustomFields (Ok issue $. "fields") keys
  = Ok (customFieldsOf (prop issue "fields") keys).
Proof.
  intros Hn Hnf. unfold collectCustomFields, customFieldsOf.
  generalize (@nil (string * JsVal)).
  induction keys as [|k tl IH]; intros acc; cbn [foldM fold_left]; [reflexivity|].
  destruct (String.prefix "customfield_" k); cbn [bind]; [|apply IH].
  rewrite (fields_Ok issue) by assumption. cbn [bind]. unfold field.
  destruct (negb (is_undefined _) && negb (is_null _)); cbn [bind]; apply IH.
Qed.

(** What an item of [convertIssueToXml] is made of. *)
Lemma convertIssueToXml_inv (issue : JsVal) (config : ExportConfig) (x : Props) :
  convertIssueToXml issue config = Ok x ->
  xmlCore issue = Ok (firstn 22 x) /\
  Object_keys (skipn 22 x) = xmlOptionalKeys issue config /\
  (truthy (field issue "parent") = true ->
   lookup "parent" (skipn 22 x)
   = Some (JObj [("@_id", prop (field issue "parent") "id");
                 ("@_key", prop (field issue "parent") "key");
                 ("#text", prop (prop (field issue "parent") "fields") "summary")])) /\
  ((0 <? List.length
           (Object_keys (customFieldsOf (prop issue "fields") (includeFields config))))%nat
   = true ->
   lookup "customfields" (skipn 22 x)
   = Some (JObj (customFieldsOf (prop issue "fields") (includeFields config)))).
Proof.
  intros H. unfold convertIssueToXml in H. cbv zeta in H.
  walk H. inversion H; subst x; clear H.
  unfold xmlCore in E. cbv zeta in E. inv_props E.
  apply getr_inv in Hv. destruct Hv as (b & Hb & Hn & _). inversion Hb; subst b.
  apply getr_inv in Hv0. destruct Hv0 as (f & Hf & Hnf & _).
  rewrite (getr_Ok issue) in Hf by exact Hn. inversion Hf; subst f.
  rewrite !(fields_Ok issue) in E0, E2, E4, E6, E8, E10 by assumption.
  rewrite ?optChain_getp in E0, E4.
  apply (gate_inv _ _ _ _ eq_refl) in E0, E2, E4, E6, E10.
  inversion E8; subst a8; clear E8.
  clear Hv1 Hv2 Hv3 Hv4 Hv5 Hv6 Hv7 Hv8 Hv9 Hv10 Hv11 Hv12 Hv13 Hv14 Hv15 Hv16 Hv17
    Hv18 Hv19 Hv20.
  assert (E13 : push_if
                  (0 <? List.length
                          (Object_keys (customFieldsOf (prop issue "fields")
                                          (includeFields config))))%nat
                  "customfields"
                  (Ok (JObj (customFieldsOf (prop issue "fields") (includeFields config))))
                  a11 = Ok a12).
  { destruct (includeFields config) as [|k ks]; [exact E12|].
    cbn [List.length Nat.ltb Nat.leb] in E12.
    rewrite collectCustomFields_Ok in E12 by assumption. exact E12. }
  clear E12. unfold xmlOptionalKeys.
  open_block E1; open_block E3; open_block E5; open_block E7; open_block E9;
    open_block E11; open_block E13; use_gates;
    (split; [reflexivity|]); (split; [reflexivity|]);
    (split; [intros Hp; try discriminate Hp;
             match goal with
             | V : mkObj [("@_id", _); _; _] = Ok _ |- _ =>
                 apply parent_block_inv in V; subst
             end; reflexivity
            |intros Hc; try discriminate Hc;
             match goal with
             | V : Ok (JObj _) = Ok _ |- _ => inversion V; subst
             end; reflexivity]).
Qed.

Lemma get1_inv (p : JsVal) (k : string) (a : JsVal) :
  Ok p $. k = Ok a -> a = prop p k.
Proof.
  intros H. apply getr_inv in H. destruct H as (b & Hb & _ & ->).
  now inversion Hb.
Qed.

Lemma get2_inv (p : JsVal) (k1 k2 : string) (a : JsVal) :
  Ok p $. k1 $. k2 = Ok a -> a = prop (prop p k1) k2.
Proof.
  intros H. apply getr_inv in H. destruct H as (b & Hb & _ & ->).
  apply get1_inv in Hb. now subst b.
Qed.

(** What a row of [processIssueForCsv] is made of. *)
Lemma processIssueForCsv_inv (issue : JsVal) (config : ExportConfig) (row : Props) :
  processIssueForCsv issue config = Ok row ->
  csvCore issue = Ok (firstn 19 row) /\
  Object_keys (skipn 19 row) = csvOptionalColumns issue config /\
  (truthy (field issue "parent") = true ->
   lookup "Parent Key" (skipn 19 row) = Some (prop (field issue "parent") "key") /\
   lookup "Parent Summary" (skipn 19 row)
   = Some (prop (prop (field issue "parent") "fields") "summary")).
Proof.
  intros H. unfold processIssueForCsv in H. cbv zeta in H.
  walk H. inversion H; subst row; clear H.
  unfold csvCore in E. cbv zeta in E. inv_props E.
  apply getr_inv in Hv. destruct Hv as (b & Hb & Hn & _). inversion Hb; subst b.
  apply getr_inv in Hv1. destruct Hv1 as (f & Hf & Hnf & _).
  rewrite (getr_Ok issue) in Hf by exact Hn. inversion Hf; subst f.
  rewrite !(fields_Ok issue) in E0, E3, E6, E8, E10 by assumption.
  apply (gate_inv _ _ _ _ eq_refl) in E3, E6, E8, E10.
  inversion E0; subst a0; clear E0.
  clear Hv0 Hv2 Hv3 Hv4 Hv5 Hv6 Hv7 Hv8 Hv9 Hv10 Hv11 Hv12 Hv13 Hv14 Hv15 Hv16 Hv17.
  unfold csvOptionalColumns. cbv zeta.
  open_block E1; open_block E2; open_block E4; open_block E5; open_block E7;
    open_block E9; open_block E11; open_block E13; open_block E14; use_gates;
    (split; [reflexivity|]); (split; [reflexivity|]);
    intros Hp; try discriminate Hp;
    repeat match goal with
           | V : Ok _ $. "fields" $. "summary" = Ok _ |- _ => apply get2_inv in V; subst
           | V : Ok _ $. "key" = Ok _ |- _ => apply get1_inv in V; subst
           end;
    split; reflexivity.
Qed.

Lemma relation2_inv (p : JsVal) (k1 k1' k2 k2' : string) (d v : JsVal) :
  (if truthy p then mkObj [(k1, Ok p $. k1'); (k2, Ok p $. k2')] else Ok d) = Ok v ->
  v = if truthy p then JObj [(k1, prop p k1'); (k2, prop p k2')] else d.
Proof.
  destruct (truthy p) eqn:T; [|now inversion 1].
  rewrite !getr_Ok by now apply truthy_not_nullish. cbn. now inversion 1.
Qed.

Lemma relation3_inv (p : JsVal) (k1 k1' k2 k2' k3 k3' : string) (d v : JsVal) :
  (if truthy p
   then mkObj [(k1, Ok p $. k1'); (k2, Ok p $. k2'); (k3, Ok p $. k3')]
   else Ok d) = Ok v ->
  v = if truthy p
      then JObj [(k1, prop p k1'); (k2, prop p k2'); (k3, prop p k3')]
      else d.
Proof.
  destruct (truthy p) eqn:T; [|now inversion 1].
  rewrite !getr_Ok by now apply truthy_not_nullish. cbn. now inversion 1.
Qed.

Lemma user_inv (p : JsVal) (d v : JsVal) :
  (if truthy p
   then mkObj [("@_username", Ok p $. "name" <||> Ok p $. "key");
               ("#text", Ok p $. "displayName")]
   else Ok d) = Ok v ->
  v = if truthy p
      then JObj [("@_username", or_val (prop p "name") (prop p "key"));
                 ("#text", prop p "displayName")]
      else d.
Proof.
  destruct (truthy p) eqn:T; [|now inversion 1].
  rewrite !getr_Ok by now apply truthy_not_nullish.
  rewrite js_or_Ok. cbn. now inversion 1.
Qed.

Lemma optname_inv (p : JsVal) (k : string) (v : JsVal) :
  optChain (Ok p) (fun x => getp x k) <||> Ok (JStr "") = Ok v ->
  v = or_val (optprop p k) (JStr "").
Proof. rewrite optChain_getp, js_or_Ok. now inversion 1. Qed.

Ltac core_start H Hn Hnf :=
  cbv zeta in H; inv_props H;
  match goal with
  | Hv : Ok ?issue $. "id" = Ok _ |- _ =>
      let b := fresh "b" in let Hb := fresh "Hb" in
      apply getr_inv in Hv; destruct Hv as (b & Hb & Hn & _);
      inversion Hb; subst b; clear Hb
  end;
  match goal with
  | Hv : Ok ?issue $. "fields" $. "summary" = Ok _ |- _ =>
      let f := fresh "f" in let Hf := fresh "Hf" in
      apply getr_inv in Hv; destruct Hv as (f & Hf & Hnf & _);
      rewrite (getr_Ok issue) in Hf by exact Hn; inversion Hf; subst f; clear Hf
  end;
  match goal with
  | Hn : nullish ?issue = false, Hnf : nullish (prop ?issue "fields") = false |- _ =>
      rewrite ?(fields_Ok issue) in * by assumption
  end;
  rewrite ?cond_Ok in *.

Ltac relations :=
  repeat match goal with
         | H : (if truthy _ then mkObj _ else _) = Ok ?v |- _ =>
             first [apply user_inv in H | apply relation2_inv in H
                   | apply relation3_inv in H];
             subst v
         | H : optChain (Ok _) (fun x => getp x _) <||> Ok (JStr "") = Ok ?v |- _ =>
             apply optname_inv in H; subst v
         end.

(** The opening literals: which keys they have and how they render the
    optional relations of the issue. *)
Lemma jsonCore_inv (issue : JsVal) (base : Props) :
  jsonCore issue = Ok base ->
  Object_keys base = jsonCoreKeys /\
  lookup "priority" base
  = Some (if truthy (field issue "priority")
          then JObj [("id", prop (field issue "priority") "id");
                     ("name", prop (field issue "priority") "name")]
          else JNull) /\
  lookup "assignee" base
  = Some (if truthy (field issue "assignee")
          then JObj [("displayName", prop (field issue "assignee") "displayName");
                     ("emailAddress", prop (field issue "assignee") "emailAddress")]
          else JNull) /\
  lookup "reporter" base
  = Some (if truthy (field issue "reporter")
          then JObj [("displayName", prop (field issue "reporter") "displayName");
                     ("emailAddress", prop (field issue "reporter") "emailAddress")]
          else JNull).
Proof.
  intros H. unfold jsonCore in H. core_start H Hn Hnf. relations.
  repeat split.
Qed.

Lemma xmlCore_inv (issue : JsVal) (base : Props) :
  xmlCore issue = Ok base ->
  Object_keys base = xmlCoreKeys /\
  lookup "priority" base
  = Some (if truthy (field issue "priority")
          then JObj [("@_id", prop (field issue "priority") "id");
                     ("@_iconUrl", prop (field issue "priority") "iconUrl");
                     ("#text", prop (field issue "priority") "name")]
          else JUndefined) /\
  lookup "resolution" base
  = Some (if truthy (field issue "resolution")
          then JObj [("@_id", prop (field issue "resolution") "id");
                     ("#text", prop (field issue "resolution") "name")]
          else JUndefined) /\
  lookup "assignee" base
  = Some (if truthy (field issue "assignee")
          then JObj [("@_username", or_val (prop (field issue "assignee") "name")
                                      (prop (field issue "assignee") "key"));
                     ("#text", prop (field issue "assignee") "displayName")]
          else JUndefined) /\
  lookup "reporter" base
  = Some (if truthy (field issue "reporter")
          then JObj [("@_username", or_val (prop (field issue "reporter") "name")
                                      (prop (field issue "reporter") "key"));
                     ("#text", prop (field issue "reporter") "displayName")]
          else JUndefined).
Proof.
  intros H. unfold xmlCore in H. core_start H Hn Hnf. relations.
  repeat split.
Qed.

Lemma csvCore_inv (issue : JsVal) (base : Props) :
  csvCore issue = Ok base ->
  Object_keys base = csvCoreColumns /\
  lookup "Priority" base
  = Some (or_val (optprop (field issue "priority") "name") (JStr "")) /\
  lookup "Assignee" base
  = Some (or_val (optprop (field issue "assignee") "displayName") (JStr "")) /\
  lookup "Reporter" base
  = Some (or_val (optprop (field issue "reporter") "displayName") (JStr "")).
Proof.
  intros H. unfold csvCore in H. core_start H Hn Hnf. relations.
  repeat split.
Qed.

(** ** Looking keys up in a projected record *)

Lemma lookup_app (k : string) (l1 l2 : Props) :
  lookup k (l1 ++ l2)
  = match lookup k l1 with
    | Some v => Some v
    | None => lookup k l2
    end.
Proof.
  induction l1 as [|[k0 v0] tl IH]; cbn [lookup app]; [reflexivity|].
  now destruct (k0 =? k).
Qed.

Lemma lookup_absent (k : string) (l : Props) :
  existsb (String.eqb k) (Object_keys l) = false -> lookup k l = None.
Proof.
  unfold Object_keys. induction l as [|[k0 v0] tl IH]; cbn [lookup map existsb fst].
  - reflexivity.
  - rewrite (String.eqb_sym k k0). destruct (k0 =? k); cbn [orb]; [discriminate|].
    exact IH.
Qed.

Lemma lookup_present (k : string) (l : Props) (v : JsVal) :
  lookup k l = Some v -> l <> [].
Proof. destruct l; [discriminate|discriminate]. Qed.

Lemma existsb_app_false {A : Type} (f : A -> bool) (l1 l2 : list A) :
  existsb f l1 = false -> existsb f l2 = false -> existsb f (l1 ++ l2) = false.
Proof. intros H1 H2. now rewrite existsb_app, H1, H2. Qed.

Lemma existsb_block (k k' : string) (c : bool) :
  (k =? k') = false -> existsb (String.eqb k) (block c k') = false.
Proof. intros H. destruct c; cbn; [now rewrite H|reflexivity]. Qed.

(** A key that is none of the keys a projector can produce is absent. *)
Ltac absent_key :=
  apply lookup_absent;
  match goal with
  | H : Object_keys _ = _ |- _ => rewrite H
  end;
  repeat (apply existsb_app_false; [try reflexivity; apply existsb_block; reflexivity|]);
  try reflexivity; apply existsb_block; reflexivity.

Lemma keys_split (n : nat) (r : Props) :
  Object_keys r = (Object_keys (firstn n r) ++ Object_keys (skipn n r))%list.
Proof. unfold Object_keys. now rewrite <- map_app, firstn_skipn. Qed.

Lemma lookup_split (n : nat) (k : string) (r : Props) :
  lookup k r
  = match lookup k (firstn n r) with
    | Some v => Some v
    | None => lookup k (skipn n r)
    end.
Proof. now rewrite <- lookup_app, firstn_skipn. Qed.

(** The keys of the records, whole. *)
Lemma processIssueForJson_keys (issue : JsVal) (config : ExportConfig) (r : Props) :
  processIssueForJson issue config = Ok r ->
  Object_keys r = (jsonCoreKeys ++ jsonOptionalKeys issue config)%list.
Proof.
  intros H. apply processIssueForJson_inv in H. destruct H as (Hc & Ho & _).
  apply jsonCore_inv in Hc. destruct Hc as (Hk & _).
  now rewrite (keys_split 19), Hk, Ho.
Qed.

Lemma convertIssueToXml_keys (issue : JsVal) (config : ExportConfig) (x : Props) :
  convertIssueToXml issue config = Ok x ->
  Object_keys x = (xmlCoreKeys ++ xmlOptionalKeys issue config)%list.
Proof.
  intros H. apply convertIssueToXml_inv in H. destruct H as (Hc & Ho & _).
  apply xmlCore_inv in Hc. destruct Hc as (Hk & _).
  now rewrite (keys_split 22), Hk, Ho.
Qed.

Lemma processIssueForCsv_keys (issue : JsVal) (config : ExportConfig) (row : Props) :
  processIssueForCsv issue config = Ok row ->
  Object_keys row = (csvCoreColumns ++ csvOptionalColumns issue config)%list.
Proof.
  intros H. apply processIssueForCsv_inv in H. destruct H as (Hc & Ho & _).
  apply csvCore_inv in Hc. destruct Hc as (Hk & _).
  now rewrite (keys_split 19), Hk, Ho.
Qed.

(** ** Well-formed issues go through the projectors *)

Lemma isOk_exists {A : Type} (r : result A) : isOk r = true -> exists a, r = Ok a.
Proof. destruct r as [a|]; [eauto|discriminate]. Qed.

Lemma mkProps_total (l : list (string * result JsVal)) :
  Forall (fun kv => isOk (snd kv) = true) l -> isOk (mkProps l) = true.
Proof.
  induction 1 as [|[k e] tl He _ IH]; [reflexivity|].
  cbn [mkProps]. cbn [snd] in He.
  destruct e as [v|]; [|discriminate]. cbn [bind].
  destruct (mkProps tl); [reflexivity|discriminate].
Qed.

Lemma mkObj_total (l : list (string * result JsVal)) :
  Forall (fun kv => isOk (snd kv) = true) l -> isOk (mkObj l) = true.
Proof.
  intros H. apply mkProps_total in H. unfold mkObj.
  destruct (mkProps l); [reflexivity|discriminate].
Qed.

Lemma mapM_total {A B : Type} (f : A -> result B) (ok : A -> bool) (l : list A) :
  (forall x, ok x = true -> isOk (f x) = true) ->
  forallb ok l = true -> isOk (mapM f l) = true.
Proof.
  intros Hf. induction l as [|x tl IH]; cbn [forallb mapM]; [reflexivity|].
  intros H. apply andb_prop in H. destruct H as [Hx Htl].
  specialize (Hf x Hx). destruct (f x); [|discriminate]. cbn [bind].
  specialize (IH Htl). destruct (mapM f tl); [reflexivity|discriminate].
Qed.

Lemma js_map_total (ok : JsVal -> bool) (arr : JsVal) (what : string)
  (f : JsVal -> result JsVal) :
  arrayOf ok arr = true ->
  (forall x, ok x = true -> isOk (f x) = true) ->
  isOk (js_map arr what f) = true.
Proof.
  intros Ha Hf. destruct arr; try discriminate. cbn [js_map arrayOf] in *.
  pose proof (mapM_total f ok items Hf Ha) as H.
  destruct (mapM f items); [reflexivity|discriminate].
Qed.

Lemma optArray_array (ok : JsVal -> bool) (v : JsVal) :
  optArrayOf ok v = true -> nullish v = false -> arrayOf ok v = true.
Proof. unfold optArrayOf. intros H Hn. rewrite Hn in H. exact H. Qed.

Lemma js_or_total (a b : result JsVal) :
  isOk a = true -> isOk b = true -> isOk (a <||> b) = true.
Proof.
  destruct a as [v|]; [|discriminate]. intros _ Hb. unfold js_or. cbn [bind].
  now destruct (truthy v).
Qed.

Lemma optChain_total (v : JsVal) (rest : JsVal -> result JsVal) :
  (nullish v = false -> isOk (rest v) = true) -> isOk (optChain (Ok v) rest) = true.
Proof. unfold optChain. cbn [bind]. destruct (nullish v); auto. Qed.

Lemma push_if_total (c : bool) (k : string) (v : result JsVal) (obj : Props) :
  (c = true -> isOk v = true) -> exists obj', push_if c k v obj = Ok obj'.
Proof.
  unfold push_if. destruct c; [|eauto]. intros H. specialize (H eq_refl).
  destruct v; [|discriminate]. cbn [bind]. eauto.
Qed.

Lemma gate_total (flag : bool) (x : JsVal) :
  exists a, (if flag then Ok x else Ok (JBool false)) = Ok a /\
            (truthy a = true -> a = x).
Proof. destruct flag; eexists; split; try reflexivity. discriminate. Qed.

Lemma truthy_optprop (v : JsVal) (k : string) :
  truthy (optprop v k) = true -> nullish v = false.
Proof. unfold optprop. now destruct (nullish v). Qed.

Lemma present_nullish (v : JsVal) : present v = true -> nullish v = false.
Proof. unfold present. now destruct (nullish v). Qed.


Lemma js_join_total (ok : JsVal -> bool) (arr : JsVal) (what sep : string) :
  arrayOf ok arr = true -> isOk (js_join arr what sep) = true.
Proof. destruct arr; try discriminate. reflexivity. Qed.

Lemma js_map_join_total (ok : JsVal -> bool) (arr : JsVal) (what what' sep : string)
  (f : JsVal -> result JsVal) :
  arrayOf ok arr = true ->
  (forall x, ok x = true -> isOk (f x) = true) ->
  isOk (mapped <- js_map arr what f ;; js_join mapped what' sep) = true.
Proof.
  intros Ha Hf. destruct arr; try discriminate. cbn [js_map arrayOf] in *.
  pose proof (mapM_total f ok items Hf Ha) as H.
  destruct (mapM f items); [reflexivity|discriminate].
Qed.

Ltac wf_facts H :=
  repeat (let W := fresh "W" in apply andb_prop in H; destruct H as [H W]);
  repeat match goal with
         | W : present _ = true |- _ => apply present_nullish in W
         end.

Lemma guarded_present (li p : JsVal) :
  nullish li || present p = true -> nullish li = false -> nullish p = false.
Proof. intros H Hn. rewrite Hn in H. now apply present_nullish. Qed.

Lemma guarded_truthy (v p : JsVal) :
  negb (truthy v) || present p = true -> truthy v = true -> nullish p = false.
Proof. intros H T. rewrite T in H. now apply present_nullish. Qed.

Lemma optprop_present (v : JsVal) (k : string) :
  nullish v = false -> optprop v k = prop v k.
Proof. unfold optprop. now intros ->. Qed.

Lemma foldM_total {A B : Type} (f : A -> B -> result A) (ok : B -> bool) (l : list B) :
  (forall a x, ok x = true -> isOk (f a x) = true) ->
  forallb ok l = true -> forall a, isOk (foldM f l a) = true.
Proof.
  intros Hf. induction l as [|x tl IH]; cbn [forallb foldM]; [reflexivity|].
  intros H a. apply andb_prop in H. destruct H as [Hx Htl].
  specialize (Hf a x Hx). destruct (f a x); [|discriminate]. cbn [bind].
  now apply IH.
Qed.

Lemma js_reduce_total (ok : JsVal -> bool) (arr : JsVal) (what : string)
  (f : JsVal -> JsVal -> result JsVal) (init : JsVal) :
  arrayOf ok arr = true ->
  (forall a x, ok x = true -> isOk (f a x) = true) ->
  isOk (js_reduce arr what f init) = true.
Proof.
  intros Ha Hf. destruct arr; try discriminate. cbn [js_reduce arrayOf] in *.
  now apply (foldM_total f ok).
Qed.

Ltac solve_nn :=
  first [ assumption
        | apply truthy_not_nullish; assumption
        | eapply truthy_optprop; eassumption
        | eapply guarded_present; [eassumption | apply truthy_not_nullish; assumption]
        | eapply guarded_present; [eassumption | assumption]
        | eapply guarded_truthy; eassumption ].

Ltac split_entries :=
  repeat (apply Forall_cons; [cbn [snd]|]); try apply Forall_nil.

Ltac entry :=
  repeat first
    [ lazymatch goal with |- isOk (Ok _) = true => reflexivity end
    | rewrite getr_Ok by solve_nn
    | rewrite js_or_Ok
    | rewrite cond_Ok
    | rewrite optChain_getp
    | lazymatch goal with
      | |- isOk (if truthy ?v then _ else _) = true =>
          let T := fresh "T" in destruct (truthy v) eqn:T
      | |- isOk (mkObj _) = true => apply mkObj_total; split_entries
      | |- isOk (_ <||> _) = true => apply js_or_total
      | |- isOk (optChain (Ok _) _) = true =>
          apply optChain_total; intros ?; cbv beta
      | |- isOk (js_map _ _ _) = true =>
          let x := fresh "x" in
          let Hx := fresh "Hx" in
          eapply js_map_total;
          [ first [eassumption | apply optArray_array; [eassumption|solve_nn]]
          | intros x Hx; cbv beta ]
      | |- isOk (bind (js_map _ _ _) (fun mapped => js_join mapped _ _)) = true =>
          let x := fresh "x" in
          let Hx := fresh "Hx" in
          eapply js_map_join_total;
          [ first [eassumption | apply optArray_array; [eassumption|solve_nn]]
          | intros x Hx; cbv beta ]
      | |- isOk (js_join _ _ _) = true =>
          eapply js_join_total;
          first [eassumption | apply optArray_array; [eassumption|solve_nn]]
      end
    | match goal with
      | Hx : present _ = true |- _ => apply present_nullish in Hx
      | Hx : wfAuthored _ = true |- _ => unfold wfAuthored in Hx; wf_facts Hx
      | Hx : wfIssueRef _ = true |- _ => unfold wfIssueRef in Hx; wf_facts Hx
      | Hx : wfLink _ = true |- _ =>
          unfold wfLink, linkedIssueOf in Hx; wf_facts Hx
      end ].

Lemma jsonCore_total (issue : JsVal) :
  wellFormed issue = true -> isOk (jsonCore issue) = true.
Proof.
  intros H. unfold wellFormed in H. wf_facts H.
  unfold jsonCore. cbv zeta. apply mkProps_total.
  rewrite !(fields_Ok issue) by assumption.
  split_entries; entry.
Qed.

Lemma xmlCore_total (issue : JsVal) :
  wellFormed issue = true -> isOk (xmlCore issue) = true.
Proof.
  intros H. unfold wellFormed in H. wf_facts H.
  unfold xmlCore. cbv zeta. apply mkProps_total.
  rewrite !(fields_Ok issue) by assumption.
  split_entries; entry.
Qed.

Lemma csvCore_total (issue : JsVal) :
  wellFormed issue = true -> isOk (csvCore issue) = true.
Proof.
  intros H. unfold wellFormed in H. wf_facts H.
  unfold csvCore. cbv zeta. apply mkProps_total.
  rewrite !(fields_Ok issue) by assumption.
  split_entries; entry.
Qed.


(** One statement of a projector after its opening literal. *)
Ltac statement :=
  lazymatch goal with
  | |- isOk (bind (if ?flag then Ok ?x else Ok (JBool false)) _) = true =>
      let a := fresh "a" in
      let E := fresh "E" in
      let Ha := fresh "Ha" in
      destruct (gate_total flag x) as (a & E & Ha); rewrite E; clear E; cbn [bind]
  | |- isOk (bind (push_if ?c ?k ?v ?obj) _) = true =>
      let o := fresh "o" in
      let E := fresh "E" in
      let T := fresh "T" in
      destruct (push_if_total c k v obj) as (o & E);
      [ intros T;
        repeat match goal with
               | Ha : truthy ?a = true -> ?a = _ |- _ =>
                   first [specialize (Ha T); subst a | clear Ha]
               end;
        entry
      | rewrite E; clear E; cbn [bind] ]
  | |- isOk (bind (Ok _) _) = true => cbn [bind]
  end.

Lemma processIssueForJson_total (issue : JsVal) (config : ExportConfig) :
  wellFormed issue = true -> isOk (processIssueForJson issue config) = true.
Proof.
  intros Hwf. destruct (isOk_exists _ (jsonCore_total issue Hwf)) as [base Hc].
  unfold wellFormed in Hwf. wf_facts Hwf.
  unfold processIssueForJson. cbv zeta. rewrite Hc. cbn [bind].
  rewrite !(fields_Ok issue) by assumption. rewrite ?optChain_getp.
  repeat statement.
  reflexivity.
Qed.


Lemma convertIssueToXml_total (issue : JsVal) (config : ExportConfig) :
  wellFormed issue = true -> isOk (convertIssueToXml issue config) = true.
Proof.
  intros Hwf. destruct (isOk_exists _ (xmlCore_total issue Hwf)) as [base Hc].
  unfold wellFormed in Hwf. wf_facts Hwf.
  unfold convertIssueToXml. cbv zeta. rewrite Hc. cbn [bind].
  rewrite !(fields_Ok issue) by assumption. rewrite ?optChain_getp.
  rewrite collectCustomFields_Ok by assumption.
  repeat statement.
  destruct (0 <? List.length (includeFields config))%nat; cbn [bind]; [|reflexivity].
  repeat statement. reflexivity.
Qed.

Lemma processIssueForCsv_total (issue : JsVal) (config : ExportConfig) :
  wellFormed issue = true -> isOk (processIssueForCsv issue config) = true.
Proof.
  intros Hwf. destruct (isOk_exists _ (csvCore_total issue Hwf)) as [base Hc].
  unfold wellFormed in Hwf. wf_facts Hwf.
  unfold processIssueForCsv. cbv zeta. rewrite Hc. cbn [bind].
  rewrite !(fields_Ok issue) by assumption.
  repeat statement.
  match goal with
  | |- isOk (bind ?r _) = true =>
      assert (Hr : isOk r = true); [|destruct (isOk_exists _ Hr) as [tts ->]; cbn [bind]]
  end.
  { destruct (truthy a2) eqn:T; [|reflexivity].
    specialize (Ha2 eq_refl). subst a2.
    rewrite getr_Ok by solve_nn. apply js_or_total; [|reflexivity].
    apply optChain_total. intros Hn.
    rewrite <- (optprop_present _ "worklogs") in * by solve_nn.
    eapply js_reduce_total; [apply optArray_array; eassumption|].
    intros acc w Hw. cbv beta. unfold wfAuthored in Hw. wf_facts Hw.
    rewrite getr_Ok by assumption. reflexivity. }
  repeat statement. reflexivity.
Qed.

(** On a well-formed issue the three projectors return, whatever the
    configuration. *)
Lemma projectors_return (issue : JsVal) (config : ExportConfig) :
  wellFormed issue = true ->
  exists r x row,
    processIssueForJson issue config = Ok r /\
    convertIssueToXml issue config = Ok x /\
    processIssueForCsv issue config = Ok row.
Proof.
  intros H.
  destruct (isOk_exists _ (processIssueForJson_total issue config H)) as [r Hr].
  destruct (isOk_exists _ (convertIssueToXml_total issue config H)) as [x Hx].
  destruct (isOk_exists _ (processIssueForCsv_total issue config H)) as [row Hrow].
  exists r, x, row. auto.
Qed.

(** An export of well-formed issues in one of the three formats returns and
    saves one file, as long as the serialiser of the format returns. *)
Lemma well_formed_export_returns (issues : list JsVal) (config : ExportConfig) :
  forallb wellFormed issues = true ->
  (forall v, isOk (JSON_stringify_indented v) = true) ->
  (forall v, isOk (XMLBuilder_build v) = true) ->
  format config = "xml" \/ format config = "json" \/ format config = "csv" ->
  fst (run (export issues config true)) = Ok tt /\
  List.length (saved (snd (run (export issues config true)))) = 1%nat.
Proof.
  intros Hwf Hjson Hxml Hfmt. rewrite export_run. unfold dispatch.
  destruct Hfmt as [E | [E | E]]; rewrite E; cbn [String.eqb Ascii.eqb Bool.eqb].
  - rewrite exportXml_spec, exportToXml_spec. cbv zeta.
    destruct (isOk_exists _ (mapM_total (fun issue => convertIssueToXml issue config)
                               wellFormed issues
                               (fun x Hx => convertIssueToXml_total x config Hx) Hwf))
      as [items ->].
    destruct (isOk_exists _ (Hxml (xmlData (List.length issues)
                                     (toISOString (clock (S (ticks (entered issues config)))))
                                     items))) as [text ->].
    split; reflexivity.
  - rewrite exportJson_spec. cbv zeta.
    destruct (isOk_exists _ (mapM_total (fun issue => processIssueForJson issue config)
                               wellFormed issues
                               (fun x Hx => processIssueForJson_total x config Hx) Hwf))
      as [rs ->].
    destruct (isOk_exists _ (Hjson (exportData
                                      (toISOString (clock (S (ticks (entered issues config)))))
                                      (List.length issues) rs))) as [text ->].
    split; reflexivity.
  - rewrite exportCsv_spec. cbv zeta.
    destruct (isOk_exists _ (mapM_total (fun issue => processIssueForCsv issue config)
                               wellFormed issues
                               (fun x Hx => processIssueForCsv_total x config Hx) Hwf))
      as [rows ->].
    split; reflexivity.
Qed.

Lemma falsy_optprop (p : JsVal) (k : string) :
  truthy p = false -> (k =? "length") = false ->
  or_val (optprop p k) (JStr "") = JStr "".
Proof.
  intros Hp Hk. unfold optprop.
  destruct p as [| |b|n|s|items|props]; cbn in *; try reflexivity; try discriminate.
  now rewrite Hk.
Qed.

(** C7 (as amended): when an optional relation of the issue is absent
    ([undefined], [null] or any other falsy value), the JSON record renders
    priority, assignee and reporter as [null], the XML item renders
    priority, resolution, assignee and reporter as [undefined] (the builder
    leaves such a node out), and the CSV row renders Priority, Assignee and
    Reporter as the empty string; the JSON record and the CSV row have no
    resolution entry at all.  The three projectors return a record for every
    well-formed issue. *)
Theorem absent_relations_by_format (issue : JsVal) (config : ExportConfig) :
  (forall r, processIssueForJson issue config = Ok r ->
     (truthy (field issue "priority") = false -> lookup "priority" r = Some JNull) /\
     (truthy (field issue "assignee") = false -> lookup "assignee" r = Some JNull) /\
     (truthy (field issue "reporter") = false -> lookup "reporter" r = Some JNull) /\
     lookup "resolution" r = None) /\
  (forall x, convertIssueToXml issue config = Ok x ->
     (truthy (field issue "priority") = false ->
      lookup "priority" x = Some JUndefined) /\
     (truthy (field issue "resolution") = false ->
      lookup "resolution" x = Some JUndefined) /\
     (truthy (field issue "assignee") = false ->
      lookup "assignee" x = Some JUndefined) /\
     (truthy (field issue "reporter") = false ->
      lookup "reporter" x = Some JUndefined)) /\
  (forall row, processIssueForCsv issue config = Ok row ->
     (truthy (field issue "priority") = false ->
      lookup "Priority" row = Some (JStr "")) /\
     (truthy (field issue "assignee") = false ->
      lookup "Assignee" row = Some (JStr "")) /\
     (truthy (field issue "reporter") = false ->
      lookup "Reporter" row = Some (JStr "")) /\
     lookup "Resolution" row = None) /\
  (wellFormed issue = true ->
   exists r x row,
     processIssueForJson issue config = Ok r /\
     convertIssueToXml issue config = Ok x /\
     processIssueForCsv issue config = Ok row).
Proof.
  split; [|split; [|split]]; [| | |apply projectors_return].
  - intros r H. pose proof (processIssueForJson_keys _ _ _ H) as Hkeys.
    apply processIssueForJson_inv in H. destruct H as (Hc & _).
    apply jsonCore_inv in Hc. destruct Hc as (_ & Hp & Ha & Hr).
    repeat split; try (intros Hf; rewrite (lookup_split 19)).
    + now rewrite Hp, Hf.
    + now rewrite Ha, Hf.
    + now rewrite Hr, Hf.
    + unfold jsonOptionalKeys in Hkeys. absent_key.
  - intros x H. apply convertIssueToXml_inv in H. destruct H as (Hc & _).
    apply xmlCore_inv in Hc. destruct Hc as (_ & Hp & Hs & Ha & Hr).
    repeat split; intros Hf; rewrite (lookup_split 22).
    + now rewrite Hp, Hf.
    + now rewrite Hs, Hf.
    + now rewrite Ha, Hf.
    + now rewrite Hr, Hf.
  - intros row H. pose proof (processIssueForCsv_keys _ _ _ H) as Hkeys.
    apply processIssueForCsv_inv in H. destruct H as (Hc & _).
    apply csvCore_inv in Hc. destruct Hc as (_ & Hp & Ha & Hr).
    repeat split; try (intros Hf; rewrite (lookup_split 19)).
    + now rewrite Hp, falsy_optprop.
    + now rewrite Ha, falsy_optprop.
    + now rewrite Hr, falsy_optprop.
    + unfold csvOptionalColumns in Hkeys. cbv zeta in Hkeys. absent_key.
Qed.

Lemma block_false (k : string) : block false k = [].
Proof. reflexivity. Qed.


(** ** Custom fields *)

Lemma customFields_step_keeps (fields : JsVal) (k : string) (keys : list string) :
  forall acc,
    lookup k acc = Some (normalizeCustomField (prop fields k)) ->
    lookup k
      (fold_left (fun customFields fieldKey =>
                    if String.prefix "customfield_" fieldKey
                    then if negb (is_undefined (prop fields fieldKey))
                            && negb (is_null (prop fields fieldKey))
                         then obj_set customFields fieldKey
                                (normalizeCustomField (prop fields fieldKey))
                         else customFields
                    else customFields) keys acc)
    = Some (normalizeCustomField (prop fields k)).
Proof.
  induction keys as [|k0 tl IH]; intros acc Hacc; cbn [fold_left]; [exact Hacc|].
  apply IH.
  destruct (String.prefix "customfield_" k0); [|exact Hacc].
  destruct (negb _ && negb _); [|exact Hacc].
  destruct (k0 =? k) eqn:E.
  - apply String.eqb_eq in E. subst k0. apply lookup_obj_set_same.
  - rewrite lookup_obj_set_other by exact E. exact Hacc.
Qed.

Lemma customFieldsOf_lookup (fields : JsVal) (k : string) (keys : list string) :
  In k keys -> String.prefix "customfield_" k = true ->
  is_undefined (prop fields k) = false -> is_null (prop fields k) = false ->
  lookup k (customFieldsOf fields keys) = Some (normalizeCustomField (prop fields k)).
Proof.
  intros Hin Hpre Hu Hnull. unfold customFieldsOf.
  generalize (@nil (string * JsVal)).
  induction keys as [|k0 tl IH]; intros acc; [destruct Hin|].
  cbn [fold_left]. destruct Hin as [->|Hin].
  - rewrite Hpre, Hu, Hnull. cbn [negb andb].
    apply customFields_step_keeps, lookup_obj_set_same.
  - apply IH, Hin.
Qed.

Lemma existsb_block_eq (f : string -> bool) (c : bool) (k : string) :
  existsb f (block c k) = c && f k.
Proof. destruct c; cbn; [apply orb_false_r|reflexivity]. Qed.

Lemma prefix_neq (p k k' : string) :
  String.prefix p k = true -> String.prefix p k' = false -> (k =? k') = false.
Proof.
  intros H H'. apply String.eqb_neq. intros ->. congruence.
Qed.

(** No key that starts with [customfield_] is among the given fixed keys. *)
Ltac no_custom_key Hpre :=
  apply lookup_absent;
  match goal with
  | H : Object_keys _ = _ |- _ => rewrite H
  end;
  unfold jsonCoreKeys, csvCoreColumns;
  rewrite ?existsb_app; cbn [existsb]; rewrite ?existsb_block_eq;
  repeat match goal with
         | |- context [String.eqb ?k ?lit] =>
             rewrite (prefix_neq "customfield_" k lit Hpre eq_refl)
         end;
  rewrite ?andb_false_r; reflexivity.

(** C3 (as amended): only the XML item carries custom fields.  For every
    key of the include list that starts with [customfield_] and whose value
    on the issue is neither [undefined] nor [null], the item's
    [customfields] object maps the key to the normalised value; the JSON
    record and the CSV row have no custom field entry.  The rule: an array
    is mapped element by element, an element that is an object becoming
    the first truthy one of its [value], [name] and [displayName], else its
    JSON text, any other element staying as it is; an object that is not an
    array becomes the first of its [value], [name] and [displayName] that
    is not [undefined], else its JSON text; a scalar stays as it is.  The
    three projectors return a record for every well-formed issue. *)
Theorem custom_fields_projected_by_xml_only (issue : JsVal) (config : ExportConfig) :
  (forall x k,
     convertIssueToXml issue config = Ok x ->
     In k (includeFields config) -> String.prefix "customfield_" k = true ->
     is_undefined (field issue k) = false -> is_null (field issue k) = false ->
     exists customFields,
       lookup "customfields" x = Some (JObj customFields) /\
       lookup k customFields = Some (normalizeCustomField (field issue k))) /\
  (forall r k,
     processIssueForJson issue config = Ok r ->
     String.prefix "customfield_" k = true ->
     lookup k r = None /\ lookup "customfields" r = None) /\
  (forall row k,
     processIssueForCsv issue config = Ok row ->
     String.prefix "customfield_" k = true ->
     lookup k row = None /\ lookup "customfields" row = None) /\
  (forall items,
     normalizeCustomField (JArr items)
     = JArr (map (fun item =>
                    if is_object item
                    then or_val (prop item "value")
                           (or_val (prop item "name")
                              (or_val (prop item "displayName")
                                 (JStr (JSON_stringify item))))
                    else item) items)) /\
  (forall props,
     normalizeCustomField (JObj props)
     = if negb (is_undefined (prop (JObj props) "value"))
       then prop (JObj props) "value"
       else if negb (is_undefined (prop (JObj props) "name"))
            then prop (JObj props) "name"
            else if negb (is_undefined (prop (JObj props) "displayName"))
                 then prop (JObj props) "displayName"
                 else JStr (JSON_stringify (JObj props))) /\
  (forall v, is_object v = false -> normalizeCustomField v = v) /\
  (wellFormed issue = true ->
   exists r x row,
     processIssueForJson issue config = Ok r /\
     convertIssueToXml issue config = Ok x /\
     processIssueForCsv issue config = Ok row).
Proof.
  split; [|split; [|split; [|split; [|split; [|split]]]]].
  - intros x k H Hin Hpre Hu Hnull.
    apply convertIssueToXml_inv in H. destruct H as (Hc & _ & _ & Hcf).
    apply xmlCore_inv in Hc. destruct Hc as (Hk & _).
    pose proof (customFieldsOf_lookup (prop issue "fields") k (includeFields config)
                  Hin Hpre Hu Hnull) as Hl.
    exists (customFieldsOf (prop issue "fields") (includeFields config)).
    split; [|exact Hl].
    rewrite (lookup_split 22), (lookup_absent "customfields" (firstn 22 x)).
    + apply Hcf. unfold Object_keys. rewrite length_map.
      destruct (customFieldsOf _ _); [discriminate Hl|reflexivity].
    + now rewrite Hk.
  - intros r k H Hpre. apply processIssueForJson_keys in H.
    unfold jsonOptionalKeys in H. split; [no_custom_key Hpre|absent_key].
  - intros row k H Hpre. apply processIssueForCsv_keys in H.
    unfold csvOptionalColumns in H. cbv zeta in H.
    split; [no_custom_key Hpre|absent_key].
  - reflexivity.
  - reflexivity.
  - intros v Hv. destruct v; try reflexivity; discriminate.
  - apply projectors_return.
Qed.

(** C10: an object inside an array is reduced by truthiness, the same
    object at top level by definedness, so the two can differ: [{value: ""}]
    is [""] at top level, but inside an array it falls through to [name],
    [displayName] or the JSON text. *)
Theorem normalizeCustomField_array_vs_object :
  (forall items,
     normalizeCustomField (JArr items)
     = JArr (map (fun item =>
                    if is_object item
                    then or_val (prop item "value")
                           (or_val (prop item "name")
                              (or_val (prop item "displayName")
                                 (JStr (JSON_stringify item))))
                    else item) items)) /\
  (forall props,
     normalizeCustomField (JObj props)
     = if negb (is_undefined (prop (JObj props) "value"))
       then prop (JObj props) "value"
       else if negb (is_undefined (prop (JObj props) "name"))
            then prop (JObj props) "name"
            else if negb (is_undefined (prop (JObj props) "displayName"))
                 then prop (JObj props) "displayName"
                 else JStr (JSON_stringify (JObj props))) /\
  (let o := JObj [("value", JStr "")] in
   normalizeCustomField o = JStr "" /\
   normalizeCustomField (JArr [o]) = JArr [JStr (JSON_stringify o)]) /\
  (let o := JObj [("value", JStr ""); ("name", JStr "n")] in
   normalizeCustomField o = JStr "" /\
   normalizeCustomField (JArr [o]) = JArr [JStr "n"]) /\
  (let o := JObj [("value", JStr ""); ("displayName", JStr "d")] in
   normalizeCustomField o = JStr "" /\
   normalizeCustomField (JArr [o]) = JArr [JStr "d"]).
Proof. repeat split. Qed.

(** C6 (as amended): exporting an empty issue list as CSV succeeds and
    saves the empty document, with no data row and no header row: the
    serialiser takes the columns from the first row and there is none.  The
    callback receives the four events of a run without issues.  Every row
    the projector builds starts with the same nineteen title-cased columns,
    and those head the document of a non-empty export. *)
Theorem empty_csv_export_saves_empty_document (config : ExportConfig) :
  format config = "csv" ->
  run (export [] config true)
  = (Ok tt,
     mkWorld 3
       [startEvent [] config;
        plainEvent 0 0 0 Processing "Preparing CSV export..." (clock 1);
        plainEvent 0 0 100 Exporting "Generating CSV..." (clock 1);
        plainEvent 0 0 100 Complete "CSV export complete" (clock 1)]
       [{| content := "";
           mimeType := "text/csv;charset=utf-8";
           filename := "jira-export-" ++ before_T (toISOString (clock 2)) ++ ".csv" |}]) /\
  List.length csvCoreColumns = 19%nat /\
  (forall issue row,
     processIssueForCsv issue config = Ok row ->
     firstn 19 (Object_keys row) = csvCoreColumns) /\
  (forall issue row rows,
     processIssueForCsv issue config = Ok row ->
     Papa_unparse (row :: rows)
     = String.concat "," (map (fun f => papa_safe (JStr f)) (Object_keys row))
       ++ CRLF ++ String.concat CRLF (map (papa_line (Object_keys row)) (row :: rows))).
Proof.
  intros Hf. split; [|split; [reflexivity|split]].
  - rewrite export_run. unfold dispatch. rewrite Hf. cbn [String.eqb Ascii.eqb Bool.eqb].
    rewrite exportCsv_spec. reflexivity.
  - intros issue row H. apply processIssueForCsv_keys in H. now rewrite H.
  - intros issue row rows H. apply processIssueForCsv_keys in H.
    unfold Papa_unparse. rewrite H. reflexivity.
Qed.

(** ** More about the projectors *)

(** An issue that is [undefined] or [null], or whose [fields] are, makes
    each of the three projectors throw the [TypeError] of the first property
    read that fails: [id] of the issue, [summary] of its fields. *)
Theorem projectors_reject_issue_without_fields (issue : JsVal) (config : ExportConfig) :
  (nullish issue = true ->
   processIssueForJson issue config = Throw (type_error_read issue "id") /\
   convertIssueToXml issue config = Throw (type_error_read issue "id") /\
   processIssueForCsv issue config = Throw (type_error_read issue "id")) /\
  (nullish issue = false -> nullish (prop issue "fields") = true ->
   let e := type_error_read (prop issue "fields") "summary" in
   processIssueForJson issue config = Throw e /\
   convertIssueToXml issue config = Throw e /\
   processIssueForCsv issue config = Throw e).
Proof.
  split.
  - intros Hn.
    assert (H : forall k, Ok issue $. k = Throw (type_error_read issue k)).
    { intros k. unfold getr, getp. cbn [bind]. now rewrite Hn. }
    unfold processIssueForJson, convertIssueToXml, processIssueForCsv,
      jsonCore, xmlCore, csvCore. cbv zeta. cbn [mkProps].
    rewrite !H. repeat split.
  - intros Hn Hf e. subst e.
    assert (H : Ok (prop issue "fields") $. "summary"
                = Throw (type_error_read (prop issue "fields") "summary")).
    { unfold getr, getp. cbn [bind]. now rewrite Hf. }
    unfold processIssueForJson, convertIssueToXml, processIssueForCsv,
      jsonCore, xmlCore, csvCore. cbv zeta. cbn [mkProps].
    rewrite !(getr_Ok issue) by exact Hn. cbn [bind].
    rewrite H. repeat split.
Qed.



Lemma mapM_getr (k : string) (items ys : list JsVal) :
  mapM (fun c => Ok c $. k) items = Ok ys -> ys = map (fun c => prop c k) items.
Proof.
  revert ys. induction items as [|c tl IH]; cbn [mapM map]; intros ys H.
  - now inversion H.
  - destruct (Ok c $. k) as [y|] eqn:E; cbn [bind] in H; [|discriminate].
    destruct (mapM _ tl) as [ys'|]; cbn [bind] in H; [|discriminate].
    inversion H; subst ys. apply get1_inv in E. subst y. now rewrite (IH ys').
Qed.

Lemma or_empty (s : string) : or_val (JStr s) (JStr "") = JStr s.
Proof.
  unfold or_val. cbn [truthy]. destruct (s =? "") eqn:E; cbn [negb]; [|reflexivity].
  apply String.eqb_eq in E. now subst s.
Qed.

Lemma joined_inv (v out : JsVal) (what : string) :
  optChain (Ok v) (fun ls => js_join ls what ", ") <||> Ok (JStr "") = Ok out ->
  (forall items, v = JArr items -> out = JStr (String.concat ", " (map cell items))) /\
  (nullish v = true -> out = JStr "").
Proof.
  intros H. split.
  - intros items ->. unfold optChain in H. cbn [bind nullish js_join] in H.
    rewrite js_or_Ok, or_empty in H. now inversion H.
  - intros Hn. unfold optChain in H. cbn [bind] in H. rewrite Hn in H.
    rewrite js_or_Ok in H. now inversion H.
Qed.

Lemma joined_names_inv (v out : JsVal) (what what' : string) :
  optChain (Ok v)
    (fun arr => mapped <- js_map arr what (fun c => Ok c $. "name") ;;
                js_join mapped what' ", ")
  <||> Ok (JStr "") = Ok out ->
  (forall items, v = JArr items ->
     out = JStr (String.concat ", " (map (fun c => cell (prop c "name")) items))) /\
  (nullish v = true -> out = JStr "").
Proof.
  intros H. split.
  - intros items ->. unfold optChain in H. cbn [bind nullish js_map] in H.
    destruct (mapM _ items) as [ys|] eqn:E; cbn [bind js_or] in H; [|discriminate].
    apply mapM_getr in E. subst ys. cbn [js_join] in H.
    rewrite js_or_Ok, or_empty, map_map in H. now inversion H.
  - intros Hn. unfold optChain in H. cbn [bind] in H. rewrite Hn in H.
    rewrite js_or_Ok in H. now inversion H.
Qed.

Lemma csvCore_collections (issue : JsVal) (base : Props) :
  csvCore issue = Ok base ->
  exists labels components fixVersions versions,
    lookup "Labels" base = Some labels /\
    lookup "Components" base = Some components /\
    lookup "Fix Versions" base = Some fixVersions /\
    lookup "Versions" base = Some versions /\
    ((forall items, field issue "labels" = JArr items ->
        labels = JStr (String.concat ", " (map cell items))) /\
     (nullish (field issue "labels") = true -> labels = JStr "")) /\
    ((forall items, field issue "components" = JArr items ->
        components = JStr (String.concat ", " (map (fun c => cell (prop c "name")) items))) /\
     (nullish (field issue "components") = true -> components = JStr "")) /\
    ((forall items, field issue "fixVersions" = JArr items ->
        fixVersions = JStr (String.concat ", " (map (fun c => cell (prop c "name")) items))) /\
     (nullish (field issue "fixVersions") = true -> fixVersions = JStr "")) /\
    ((forall items, field issue "versions" = JArr items ->
        versions = JStr (String.concat ", " (map (fun c => cell (prop c "name")) items))) /\
     (nullish (field issue "versions") = true -> versions = JStr "")).
Proof.
  intros H. unfold csvCore in H. core_start H Hn Hnf.
  apply joined_inv in Hv14. apply joined_names_inv in Hv15, Hv16, Hv17.
  eexists _, _, _, _. repeat (split; [reflexivity|]).
  repeat split; apply Hv14 || apply Hv15 || apply Hv16 || apply Hv17.
Qed.

(** A multi-valued field is one cell of the CSV row: the labels, or the
    names of the components and versions, joined by a comma and a space; the
    empty string when the issue has no such field. *)
Theorem csv_flattens_collections (issue : JsVal) (config : ExportConfig) (row : Props) :
  processIssueForCsv issue config = Ok row ->
  let names := fun items => JStr (String.concat ", " (map (fun c => cell (prop c "name")) items)) in
  ((forall items, field issue "labels" = JArr items ->
      lookup "Labels" row = Some (JStr (String.concat ", " (map cell items)))) /\
   (nullish (field issue "labels") = true -> lookup "Labels" row = Some (JStr ""))) /\
  ((forall items, field issue "components" = JArr items ->
      lookup "Components" row = Some (names items)) /\
   (nullish (field issue "components") = true ->
    lookup "Components" row = Some (JStr ""))) /\
  ((forall items, field issue "fixVersions" = JArr items ->
      lookup "Fix Versions" row = Some (names items)) /\
   (nullish (field issue "fixVersions") = true ->
    lookup "Fix Versions" row = Some (JStr ""))) /\
  ((forall items, field issue "versions" = JArr items ->
      lookup "Versions" row = Some (names items)) /\
   (nullish (field issue "versions") = true ->
    lookup "Versions" row = Some (JStr ""))).
Proof.
  intros H names. subst names. cbv beta.
  apply processIssueForCsv_inv in H. destruct H as (Hc & _).
  apply csvCore_collections in Hc.
  destruct Hc as (l & c & f & v & Hl & Hcs & Hf & Hv & [L1 L2] & [C1 C2] & [F1 F2] & [V1 V2]).
  rewrite !(lookup_split 19 _ row), Hl, Hcs, Hf, Hv.
  repeat split; intros; f_equal; auto.
Qed.

(** ** Worklog totals of a CSV row *)

Lemma push_if_lookup_other (c : bool) (k K : string) (v : result JsVal)
  (obj obj' : Props) :
  (k =? K) = false -> push_if c k v obj = Ok obj' -> lookup K obj' = lookup K obj.
Proof.
  intros Hk H. unfold push_if in H. destruct c; [|now inversion H].
  destruct v as [x|]; cbn [bind] in H; [|discriminate].
  inversion H. now apply lookup_obj_set_other.
Qed.

Lemma push_if_lookup_same (k : string) (v : result JsVal) (obj obj' : Props) :
  push_if true k v obj = Ok obj' -> exists x, v = Ok x /\ lookup k obj' = Some x.
Proof.
  unfold push_if. destruct v as [x|]; cbn [bind]; [|discriminate].
  intros H. inversion H. exists x. split; [reflexivity|apply lookup_obj_set_same].
Qed.

Lemma Qred_inject_Z (z : Z) : Qred (inject_Z z) = inject_Z z.
Proof.
  unfold Qred, inject_Z.
  pose proof (Z.ggcd_gcd z 1) as Hg. pose proof (Z.ggcd_correct_divisors z 1) as Hd.
  destruct (Z.ggcd z 1) as (g, (n, d)). cbn [fst snd] in *.
  rewrite Z.gcd_1_r in Hg. subst g. destruct Hd as [Hn Hd].
  rewrite Z.mul_1_l in Hn, Hd. now subst n d.
Qed.

Lemma js_add_of_nat (a b : nat) : js_add (of_nat a) (of_nat b) = of_nat (a + b).
Proof.
  unfold js_add, of_nat, ToPrimitive, ToNumber, ToPrimitive. cbn [is_object is_string orb num_add].
  f_equal. f_equal. rewrite Nat2Z.inj_add.
  rewrite <- (Qred_inject_Z (Z.of_nat a + Z.of_nat b)).
  apply Qred_complete. now rewrite inject_Z_plus.
Qed.

Lemma js_add_number (a : Number) (v : JsVal) :
  is_number_or_undefined v = true ->
  exists a', js_add (JNum a) v = JNum a' /\
             ((a = NaN \/ v = JUndefined) -> a' = NaN).
Proof.
  destruct v as [| | |n| | |]; try discriminate; intros _.
  - exists NaN. split; [now destruct a|auto].
  - exists (num_add a n). split; [reflexivity|].
    intros [->|H]; [reflexivity|discriminate].
Qed.

Lemma reduce_seconds_sum (entries : list JsVal) (seconds : list nat) :
  Forall2 (fun w n => prop w "timeSpentSeconds" = of_nat n) entries seconds ->
  forall (m : nat) (t : JsVal),
    foldM (fun total w => t <- Ok w $. "timeSpentSeconds" ;; Ok (js_add total t))
      entries (of_nat m) = Ok t -> t = of_nat (m + list_sum seconds).
Proof.
  induction 1 as [|w n entries seconds Hw _ IH]; intros m t H; cbn [foldM list_sum] in *.
  - inversion H. now rewrite Nat.add_0_r.
  - destruct (Ok w $. "timeSpentSeconds") as [s|] eqn:E; cbn [bind] in H; [|discriminate].
    apply get1_inv in E. rewrite Hw in E. subst s.
    rewrite js_add_of_nat in H. apply IH in H. rewrite H.
    cbn [list_sum fold_right]. now rewrite Nat.add_assoc.
Qed.

Lemma reduce_seconds_missing (entries : list JsVal) :
  Forall (fun w => is_number_or_undefined (prop w "timeSpentSeconds") = true) entries ->
  forall (a : Number) (t : JsVal),
    foldM (fun total w => t <- Ok w $. "timeSpentSeconds" ;; Ok (js_add total t))
      entries (JNum a) = Ok t ->
    exists a', t = JNum a' /\
               ((a = NaN \/ Exists (fun w => prop w "timeSpentSeconds" = JUndefined) entries)
                -> a' = NaN).
Proof.
  induction 1 as [|w entries Hw _ IH]; intros a t H; cbn [foldM] in *.
  - inversion H. exists a. split; [reflexivity|].
    intros [->|Hex]; [reflexivity|inversion Hex].
  - destruct (Ok w $. "timeSpentSeconds") as [s|] eqn:E; cbn [bind] in H; [|discriminate].
    apply get1_inv in E. subst s.
    destruct (js_add_number a _ Hw) as (a1 & Ha1 & Hnan). rewrite Ha1 in H.
    destruct (IH a1 t H) as (a' & -> & Hnan'). exists a'. split; [reflexivity|].
    intros [->|Hex]; apply Hnan'.
    + left. apply Hnan. now left.
    + inversion Hex; subst; [left; apply Hnan; now right|now right].
Qed.

Lemma or_zero (n : nat) : or_val (of_nat n) (of_nat 0) = of_nat n.
Proof.
  unfold or_val, of_nat. cbn [truthy].
  destruct (Qeq_bool (inject_Z (Z.of_nat n)) 0) eqn:E; cbn [negb]; [|reflexivity].
  apply Qeq_bool_iff in E. unfold Qeq in E. cbn [Qnum Qden inject_Z] in E.
  now replace n with 0%nat by lia.
Qed.


(** ** Exports without a progress callback *)

Lemma exportJson_silent (issues : list JsVal) (config : ExportConfig) (w : World) :
  exportJson issues config false w =
  let n := List.length issues in
  match mapM (fun issue => processIssueForJson issue config) issues with
  | Throw e => (Throw e, mkWorld (ticks w + 2) (events w) (saved w))
  | Ok rs =>
      match JSON_stringify_indented
              (exportData (toISOString (clock (S (ticks w)))) n rs) with
      | Throw e => (Throw e, mkWorld (ticks w + 2) (events w) (saved w))
      | Ok text =>
          (Ok tt,
           mkWorld (ticks w + 3) (events w)
             (saved w
              ++ [{| content := text;
                     mimeType := "application/json;charset=utf-8";
                     filename := "jira-export-"
                                 ++ before_T (toISOString (clock (ticks w + 2)))
                                 ++ ".json" |}]))
      end
  end.
Proof.
  unfold exportJson. cbv zeta.
  unfold bindM at 1, Date_now at 1. cbn [ticks events saved].
  unfold bindM at 1, Date_now at 1. cbn [ticks events saved].
  unfold bindM at 1. rewrite forEachIssue_silent.
  replace (S (S (ticks w))) with (ticks w + 2)%nat by lia.
  destruct (mapM (fun issue => processIssueForJson issue config) issues) as [rs|e];
    cbn [bind fst snd]; [|reflexivity].
  unfold bindM at 1, emit at 1.
  unfold bindM at 1, lift at 1.
  destruct (JSON_stringify_indented _) as [text|e]; [|reflexivity].
  unfold bindM at 1, export_filename, bindM at 1, Date_now, ret.
  cbn [ticks events saved].
  unfold bindM, saveAs, emit, mkWorld. cbn [ticks events saved].
  replace (S (ticks w + 2)) with (ticks w + 3)%nat by lia. reflexivity.
Qed.

Lemma exportCsv_silent (issues : list JsVal) (config : ExportConfig) (w : World) :
  exportCsv issues config false w =
  match mapM (fun issue => processIssueForCsv issue config) issues with
  | Throw e => (Throw e, mkWorld (ticks w + 1) (events w) (saved w))
  | Ok rows =>
      (Ok tt,
       mkWorld (ticks w + 2) (events w)
         (saved w
          ++ [{| content := Papa_unparse rows;
                 mimeType := "text/csv;charset=utf-8";
                 filename := "jira-export-"
                             ++ before_T (toISOString (clock (ticks w + 1)))
                             ++ ".csv" |}]))
  end.
Proof.
  unfold exportCsv. cbv zeta.
  unfold bindM at 1, Date_now at 1. cbn [ticks events saved].
  unfold bindM at 1, emit at 1.
  unfold bindM at 1. rewrite forEachIssue_silent.
  replace (S (ticks w)) with (ticks w + 1)%nat by lia.
  destruct (mapM (fun issue => processIssueForCsv issue config) issues) as [rows|e];
    cbn [bind fst snd]; [|reflexivity].
  unfold bindM at 1, emit at 1.
  unfold bindM at 1, export_filename, bindM at 1, Date_now, ret.
  cbn [ticks events saved].
  unfold bindM, saveAs, emit, mkWorld. cbn [ticks events saved].
  replace (S (ticks w + 1)) with (ticks w + 2)%nat by lia. reflexivity.
Qed.

Lemma exportXml_silent (issues : list JsVal) (config : ExportConfig) (w : World) :
  exportXml issues config false w =
  let n := List.length issues in
  match mapM (fun issue => convertIssueToXml issue config) issues with
  | Throw e => (Throw e, mkWorld (ticks w + 2) (events w) (saved w))
  | Ok items =>
      match XMLBuilder_build (xmlData n (toISOString (clock (S (ticks w)))) items) with
      | Throw e => (Throw e, mkWorld (ticks w + 2) (events w) (saved w))
      | Ok text =>
          (Ok tt,
           mkWorld (ticks w + 3) (events w)
             (saved w
              ++ [{| content := text;
                     mimeType := "application/xml;charset=utf-8";
                     filename := "jira-export-"
                                 ++ before_T (toISOString (clock (ticks w + 2)))
                                 ++ ".xml" |}]))
      end
  end.
Proof.
  unfold exportXml, exportToXml. cbv zeta.
  unfold bindM at 1. unfold bindM at 1, Date_now at 1. cbn [ticks events saved].
  unfold bindM at 1, emit at 1.
  unfold bindM at 1, Date_now at 1. cbn [ticks events saved].
  unfold bindM at 1. rewrite forEachIssue_silent.
  replace (S (S (ticks w))) with (ticks w + 2)%nat by lia.
  destruct (mapM (fun issue => convertIssueToXml issue config) issues) as [items|e];
    cbn [bind fst snd]; [|reflexivity].
  unfold bindM at 1, emit at 1.
  unfold bindM at 1, lift at 1.
  destruct (XMLBuilder_build _) as [text|e]; [|reflexivity].
  unfold bindM, emit, ret, export_filename, bindM, Date_now, ret, downloadXml, saveAs,
    mkWorld.
  cbn [ticks events saved].
  replace (S (ticks w + 2)) with (ticks w + 3)%nat by lia. reflexivity.
Qed.

Lemma export_run_silent (issues : list JsVal) (config : ExportConfig) :
  run (export issues config false) = dispatch issues config false (mkWorld 1 [] []).
Proof.
  unfold run, export, initial.
  unfold bindM at 1, Date_now at 1. cbn [ticks events saved].
  unfold bindM at 1, emit at 1. unfold try_catch, mkWorld.
  destruct (dispatch issues config false _) as [[a|e] w1]; [reflexivity|].
  unfold bindM, emit, throw. reflexivity.
Qed.

(** The result of a run and the files it saves, with or without a callback. *)
Lemma export_outcome (issues : list JsVal) (config : ExportConfig) (cb : bool) :
  let n := List.length issues in
  let date := toISOString (clock 2) in
  exists t : nat,
    outcome (run (export issues config cb)) =
    if format config =? "xml" then
      match mapM (fun issue => convertIssueToXml issue config) issues with
      | Throw e => (Throw e, [])
      | Ok items =>
          match XMLBuilder_build (xmlData n date items) with
          | Throw e => (Throw e, [])
          | Ok text => (Ok tt, [exportFile "xml" text (clock t)])
          end
      end
    else if format config =? "json" then
      match mapM (fun issue => processIssueForJson issue config) issues with
      | Throw e => (Throw e, [])
      | Ok rs =>
          match JSON_stringify_indented (exportData date n rs) with
          | Throw e => (Throw e, [])
          | Ok text => (Ok tt, [exportFile "json" text (clock t)])
          end
      end
    else if format config =? "csv" then
      match mapM (fun issue => processIssueForCsv issue config) issues with
      | Throw e => (Throw e, [])
      | Ok rows => (Ok tt, [exportFile "csv" (Papa_unparse rows) (clock t)])
      end
    else (Throw (ErrorObj ("Unsupported export format: " ++ format config)), []).
Proof.
  intros n date. subst n date. unfold outcome.
  destruct cb.
  - rewrite export_run. unfold dispatch.
    destruct (format config =? "xml").
    { rewrite exportXml_spec, exportToXml_spec. cbv zeta.
      destruct (mapM _ issues) as [items|e]; [|exists 0%nat; reflexivity].
      destruct (XMLBuilder_build _) as [text|e]; [|exists 0%nat; reflexivity].
      eexists. reflexivity. }
    destruct (format config =? "json").
    { rewrite exportJson_spec. cbv zeta.
      destruct (mapM _ issues) as [rs|e]; [|exists 0%nat; reflexivity].
      destruct (JSON_stringify_indented _) as [text|e]; [|exists 0%nat; reflexivity].
      eexists. reflexivity. }
    destruct (format config =? "csv").
    { rewrite exportCsv_spec. cbv zeta.
      destruct (mapM _ issues) as [rows|e]; [|exists 0%nat; reflexivity].
      eexists. reflexivity. }
    exists 0%nat. reflexivity.
  - rewrite export_run_silent. unfold dispatch.
    destruct (format config =? "xml").
    { rewrite exportXml_silent. cbv zeta.
      destruct (mapM _ issues) as [items|e]; [|exists 0%nat; reflexivity].
      destruct (XMLBuilder_build _) as [text|e]; [|exists 0%nat; reflexivity].
      eexists. reflexivity. }
    destruct (format config =? "json").
    { rewrite exportJson_silent. cbv zeta.
      destruct (mapM _ issues) as [rs|e]; [|exists 0%nat; reflexivity].
      destruct (JSON_stringify_indented _) as [text|e]; [|exists 0%nat; reflexivity].
      eexists. reflexivity. }
    destruct (format config =? "csv").
    { rewrite exportCsv_silent. cbv zeta.
      destruct (mapM _ issues) as [rows|e]; [|exists 0%nat; reflexivity].
      eexists. reflexivity. }
    exists 0%nat. reflexivity.
Qed.

Lemma mapM_Forall2 {A B : Type} (f : A -> result B) (l : list A) (ys : list B) :
  mapM f l = Ok ys -> Forall2 (fun x y => f x = Ok y) l ys.
Proof.
  revert ys. induction l as [|x tl IH]; cbn [mapM]; intros ys H.
  - inversion H. constructor.
  - destruct (f x) as [y|] eqn:E; cbn [bind] in H; [|discriminate].
    destruct (mapM f tl) as [ys'|]; cbn [bind] in H; [|discriminate].
    inversion H; subst ys. constructor; auto.
Qed.

Lemma export_silent_events (issues : list JsVal) (config : ExportConfig) :
  events (snd (run (export issues config false))) = [].
Proof.
  rewrite export_run_silent. unfold dispatch.
  destruct (format config =? "xml").
  { rewrite exportXml_silent. cbv zeta.
    destruct (mapM _ issues); [|reflexivity].
    destruct (XMLBuilder_build _); reflexivity. }
  destruct (format config =? "json").
  { rewrite exportJson_silent. cbv zeta.
    destruct (mapM _ issues); [|reflexivity].
    destruct (JSON_stringify_indented _); reflexivity. }
  destruct (format config =? "csv").
  { rewrite exportCsv_silent. destruct (mapM _ issues); reflexivity. }
  reflexivity.
Qed.

(** Reporting progress changes nothing of what an export produces: with and
    without a callback the call returns or throws the same, and saves files
    of the same content and type; without a callback no event is sent. *)
Theorem progress_callback_leaves_output_unchanged (issues : list JsVal)
  (config : ExportConfig) :
  fst (run (export issues config false)) = fst (run (export issues config true)) /\
  map content (saved (snd (run (export issues config false))))
  = map content (saved (snd (run (export issues config true)))) /\
  map mimeType (saved (snd (run (export issues config false))))
  = map mimeType (saved (snd (run (export issues config true)))) /\
  events (snd (run (export issues config false))) = [].
Proof.
  destruct (export_outcome issues config false) as [t1 H1].
  destruct (export_outcome issues config true) as [t2 H2].
  cbv zeta in H1, H2. unfold outcome in H1, H2.
  split; [|split; [|split; [|apply export_silent_events]]].
  all: destruct (format config =? "xml");
    [destruct (mapM _ issues);
     [destruct (XMLBuilder_build _)|]
    |destruct (format config =? "json");
     [destruct (mapM _ issues);
      [destruct (JSON_stringify_indented _)|]
     |destruct (format config =? "csv");
      [destruct (mapM _ issues)|]]];
    inversion H1 as [[R1 S1]]; inversion H2 as [[R2 S2]];
    rewrite ?R1, ?R2, ?S1, ?S2; reflexivity.
Qed.


(** The document of a JSON export that returns is the serialisation of
    [exportData]: its [metadata] give the time read when the export began,
    the number of issues, the format and the version, and its [issues] are
    the records of the issues, one each, in the order of the input. *)
Theorem json_document_lists_every_issue (issues : list JsVal) (config : ExportConfig)
  (cb : bool) :
  format config = "json" ->
  fst (run (export issues config cb)) = Ok tt ->
  exists (rs : list Props) (text : string),
    Forall2 (fun issue r => processIssueForJson issue config = Ok r) issues rs /\
    JSON_stringify_indented
      (JObj [("metadata",
              JObj [("exportDate", JStr (toISOString (clock 2)));
                    ("totalIssues", of_nat (List.length issues));
                    ("format", JStr "json");
                    ("version", JStr "1.0.0")]);
             ("issues", JArr (map JObj rs))]) = Ok text /\
    map content (saved (snd (run (export issues config cb)))) = [text].
Proof.
  intros Hf Hr. destruct (export_outcome issues config cb) as [t H].
  cbv zeta in H. unfold outcome in H. rewrite Hf in H.
  cbn [String.eqb Ascii.eqb Bool.eqb] in H.
  destruct (mapM _ issues) as [rs|e] eqn:Hm.
  - destruct (JSON_stringify_indented _) as [text|e] eqn:Hs;
      inversion H as [[R S]]; [|congruence].
    exists rs, text. split; [now apply mapM_Forall2|]. split; [exact Hs|].
    rewrite S. reflexivity.
  - inversion H as [[R S]]. congruence.
Qed.

(** The document of an XML export that returns is what the builder makes
    of [xmlData]: an [rss] channel whose description counts the issues and
    whose [item]s are the items of the issues, one each, in the order of the
    input. *)
Theorem xml_document_lists_every_issue (issues : list JsVal) (config : ExportConfig)
  (cb : bool) :
  format config = "xml" ->
  fst (run (export issues config cb)) = Ok tt ->
  exists (items : list Props) (text : string),
    Forall2 (fun issue x => convertIssueToXml issue config = Ok x) issues items /\
    XMLBuilder_build (xmlData (List.length issues) (toISOString (clock 2)) items)
    = Ok text /\
    map content (saved (snd (run (export issues config cb)))) = [text] /\
    (forall date,
       exists channel,
         prop (prop (xmlData (List.length issues) date items) "rss") "channel"
         = JObj channel /\
         lookup "description" channel
         = Some (JStr ("Exported " ++ string_of_nat (List.length issues) ++ " issues")) /\
         lookup "item" channel = Some (JArr (map JObj items))).
Proof.
  intros Hf Hr. destruct (export_outcome issues config cb) as [t H].
  cbv zeta in H. unfold outcome in H. rewrite Hf in H.
  cbn [String.eqb Ascii.eqb Bool.eqb] in H.
  destruct (mapM _ issues) as [items|e] eqn:Hm.
  - destruct (XMLBuilder_build _) as [text|e] eqn:Hs;
      inversion H as [[R S]]; [|congruence].
    exists items, text. split; [now apply mapM_Forall2|]. split; [exact Hs|].
    split; [rewrite S; reflexivity|].
    intros date. eexists. split; [reflexivity|]. split; reflexivity.
  - inversion H as [[R S]]. congruence.
Qed.

Lemma In_block (k k' : string) (c : bool) : In k (block c k') <-> c = true /\ k' = k.
Proof.
  destruct c; cbn; split.
  - intros [H|[]]. auto.
  - intros [_ H]. auto.
  - intros [].
  - intros [H _]. discriminate.
Qed.

(** The document of a CSV export that returns has a header line and one
    line per issue.  Its columns are those of the row of the first issue:
    the nineteen fixed columns and the optional columns the first issue
    has.  So the document has the parent columns exactly when the first
    issue has a parent, whatever the other issues carry. *)
Theorem csv_columns_come_from_first_issue (first : JsVal) (rest : list JsVal)
  (config : ExportConfig) (cb : bool) :
  format config = "csv" ->
  fst (run (export (first :: rest) config cb)) = Ok tt ->
  let columns := (csvCoreColumns ++ csvOptionalColumns first config)%list in
  exists rows : list Props,
    Forall2 (fun issue row => processIssueForCsv issue config = Ok row)
      (first :: rest) rows /\
    map content (saved (snd (run (export (first :: rest) config cb))))
    = [String.concat "," (map (fun f => papa_safe (JStr f)) columns)
       ++ CRLF ++ String.concat CRLF (map (papa_line columns) rows)] /\
    (In "Parent Key" columns <-> truthy (field first "parent") = true) /\
    (In "Parent Summary" columns <-> truthy (field first "parent") = true).
Proof.
  intros Hf Hr columns. destruct (export_outcome (first :: rest) config cb) as [t H].
  cbv zeta in H. unfold outcome in H. rewrite Hf in H.
  cbn [String.eqb Ascii.eqb Bool.eqb] in H.
  destruct (mapM _ (first :: rest)) as [rows|e] eqn:Hm;
    inversion H as [[R S]]; [|congruence].
  exists rows. pose proof (mapM_Forall2 _ _ _ Hm) as HF.
  split; [exact HF|]. split.
  - rewrite S. cbn [map exportFile content]. f_equal.
    inversion HF as [|x row l rows' Hrow Hrest]; subst.
    apply processIssueForCsv_keys in Hrow.
    unfold Papa_unparse. fold columns in Hrow. rewrite Hrow. reflexivity.
  - subst columns. unfold csvOptionalColumns. cbv zeta.
    split; rewrite !in_app_iff, !In_block; split.
    all: try (intros T; right; auto 10).
    all: intros [Hin|Hin];
      [cbn in Hin; repeat (destruct Hin as [Hin|Hin]; [discriminate Hin|]); destruct Hin|].
    all: repeat (destruct Hin as [Hin|Hin]); try (destruct Hin as [_ Hin]; discriminate Hin);
      destruct Hin as [Hin _]; exact Hin.
Qed.

(** What a record has after the keys of its opening literal is decided by
    the configuration and the issue together: a block is there exactly when
    its flag is on and the issue has the data (the parent needs no flag, the
    custom fields of an XML item depend on the include list), and the
    blocks come in the order of the source. *)
Theorem optional_blocks_follow_flags (issue : JsVal) (config : ExportConfig) :
  (forall r, processIssueForJson issue config = Ok r ->
     Object_keys r
     = (jsonCoreKeys
        ++ block (includeComments config
                  && truthy (optprop (field issue "comment") "comments")) "comments"
        ++ block (includeAttachments config && truthy (field issue "attachment"))
             "attachments"
        ++ block (includeWorklog config
                  && truthy (optprop (field issue "worklog") "worklogs")) "worklogs"
        ++ block (includeSubtasks config && truthy (field issue "subtasks")) "subtasks"
        ++ block (includeLinks config && truthy (field issue "issuelinks")) "issueLinks"
        ++ block (truthy (field issue "parent")) "parent")%list) /\
  (forall x, convertIssueToXml issue config = Ok x ->
     Object_keys x
     = (xmlCoreKeys
        ++ block (includeComments config
                  && truthy (optprop (field issue "comment") "comments")) "comments"
        ++ block (includeAttachments config && truthy (field issue "attachment"))
             "attachments"
        ++ block (includeWorklog config
                  && truthy (optprop (field issue "worklog") "worklogs")) "worklogs"
        ++ block (includeSubtasks config && truthy (field issue "subtasks")) "subtasks"
        ++ block (truthy (field issue "parent")) "parent"
        ++ block (includeLinks config && truthy (field issue "issuelinks")) "issuelinks"
        ++ block (negb (Nat.eqb
                          (List.length
                             (customFieldsOf (prop issue "fields") (includeFields config)))
                          0))
             "customfields")%list) /\
  (forall row, processIssueForCsv issue config = Ok row ->
     Object_keys row
     = (csvCoreColumns
        ++ block (truthy (field issue "parent")) "Parent Key"
        ++ block (truthy (field issue "parent")) "Parent Summary"
        ++ block (includeSubtasks config && truthy (field issue "subtasks"))
             "Subtasks Count"
        ++ block (includeSubtasks config && truthy (field issue "subtasks")) "Subtasks"
        ++ block (includeComments config && truthy (field issue "comment"))
             "Comments Count"
        ++ block (includeAttachments config && truthy (field issue "attachment"))
             "Attachments Count"
        ++ block (includeWorklog config && truthy (field issue "worklog"))
             "Worklog Count"
        ++ block (includeWorklog config && truthy (field issue "worklog"))
             "Total Time Spent (seconds)"
        ++ block (includeWorklog config && truthy (field issue "worklog"))
             "Total Time Spent (hours)")%list) /\
  (wellFormed issue = true ->
   exists r x row,
     processIssueForJson issue config = Ok r /\
     convertIssueToXml issue config = Ok x /\
     processIssueForCsv issue config = Ok row).
Proof.
  split; [|split; [|split]].
  - intros r H. now apply processIssueForJson_keys in H.
  - intros x H. apply convertIssueToXml_keys in H. rewrite H.
    unfold xmlOptionalKeys, Object_keys. rewrite length_map.
    now destruct (customFieldsOf _ _).
  - intros row H. now apply processIssueForCsv_keys in H.
  - apply projectors_return.
Qed.


(** ** The client, the storage and the stores *)

Section HostProperties.
Context {browser : Browser}.

(** ** JiraClient: messages for failures *)

Lemma truthy_or_val (a b : JsVal) : truthy b = true -> truthy (or_val a b) = true.
Proof. intros H. unfold or_val. destruct (truthy a) eqn:E; assumption. Qed.

Lemma getErrorMessage_spec (error : JsVal) :
  nullish error = false ->
  let data := optprop (prop error "response") "data" in
  exists m,
    getErrorMessage error = Ok m /\
    (forall items,
       truthy data = true -> prop data "errorMessages" = JArr items ->
       m = JStr (String.concat "; " (map cell items))) /\
    (truthy m = false ->
     truthy data = true /\ is_array (prop data "errorMessages") = true /\ m = JStr "").
Proof.
  intros Hn data. unfold getErrorMessage. cbv zeta.
  rewrite !(getr_Ok error) by exact Hn. rewrite !optChain_getp. cbn [bind].
  fold data.
  match goal with
  | |- exists m, (if truthy data then _ else ?fb) = Ok m /\ _ => set (fallback := fb)
  end.
  assert (Hfallback : exists m, fallback = Ok m /\ truthy m = true).
  { subst fallback.
    destruct (is_number _ 401); [eexists; split; reflexivity|].
    destruct (is_number _ 403); [eexists; split; reflexivity|].
    destruct (is_number _ 404); [eexists; split; reflexivity|].
    cbn [bind].
    destruct (is_text _ "ECONNREFUSED"); [eexists; split; reflexivity|].
    destruct (is_text _ "ENOTFOUND"); [eexists; split; reflexivity|].
    rewrite js_or_Ok. eexists. split; [reflexivity|]. now apply truthy_or_val. }
  destruct Hfallback as (mf & Hmf & Tmf). clearbody fallback.
  destruct (truthy data) eqn:Td.
  - rewrite getr_Ok by now apply truthy_not_nullish. cbn [bind].
    destruct (prop data "errorMessages") as [| | | | |items|] eqn:Em;
      cbn [truthy is_array andb js_join].
    6: { eexists. split; [reflexivity|]. split.
         - intros items' _ H. inversion H. reflexivity.
         - intros T. repeat split. cbn [truthy] in T.
           destruct (String.concat "; " _ =? "") eqn:E; [|discriminate T].
           apply String.eqb_eq in E. now rewrite E. }
    all: rewrite ?andb_false_r; cbn [andb];
      rewrite getr_Ok by (now apply truthy_not_nullish); cbn [bind];
      destruct (truthy (prop data "message")) eqn:Tm;
      [ exists (prop data "message")
      | exists mf; rewrite Hmf ];
      (split; [reflexivity|]); (split; [intros ? _ H; discriminate H|]);
      intros T; congruence.
  - exists mf. rewrite Hmf. split; [reflexivity|].
    split; [intros ? H; discriminate H|]. intros T. congruence.
Qed.

(** [getErrorMessage] returns for every error object.  A list of
    [errorMessages] in the body of the response goes before everything
    else, joined by semicolons, whatever the status; and the message
    returned is truthy, but for such a list that joins to the empty string
    (an empty list does). *)
Theorem getErrorMessage_returns_a_message (error : JsVal) :
  nullish error = false ->
  let data := optprop (prop error "response") "data" in
  exists m,
    getErrorMessage error = Ok m /\
    (forall items,
       truthy data = true -> prop data "errorMessages" = JArr items ->
       m = JStr (String.concat "; " (map cell items))) /\
    (truthy m = false ->
     truthy data = true /\ is_array (prop data "errorMessages") = true /\ m = JStr "").
Proof. apply getErrorMessage_spec. Qed.


(** ** JiraClient: requests *)

Lemma dropTrailingSlash_app (s : string) : dropTrailingSlash (s ++ "/") = s.
Proof.
  induction s as [|c tl IH]; [reflexivity|].
  cbn [append dropTrailingSlash]. rewrite IH.
  destruct tl; reflexivity.
Qed.

Lemma dropTrailingSlash_id (s : string) :
  endsWithSlash s = false -> dropTrailingSlash s = s.
Proof.
  induction s as [|c tl IH]; intros H; [reflexivity|].
  cbn [dropTrailingSlash endsWithSlash] in *. destruct tl as [|c' tl'].
  - now rewrite H.
  - f_equal. now apply IH.
Qed.

(** The server URL may be given with or without a slash at its end: the
    client has the same base URL [<server>/rest/api/2] for both (only one
    slash is dropped).  [updateConfig] leaves the client as the constructor
    would have made it. *)
Theorem client_ignores_one_trailing_slash (s token : string) :
  baseURL (newJiraClient (s ++ "/") token) = s ++ "/rest/api/2" /\
  (endsWithSlash s = false ->
   baseURL (newJiraClient s token) = s ++ "/rest/api/2" /\
   newJiraClient (s ++ "/") token = newJiraClient s token) /\
  (forall s0 token0,
     updateConfig (newJiraClient s0 token0) s token = newJiraClient s token).
Proof.
  split; [|split].
  - unfold newJiraClient. cbn [baseURL]. now rewrite dropTrailingSlash_app.
  - intros H. unfold newJiraClient. cbn [baseURL].
    rewrite dropTrailingSlash_app, (dropTrailingSlash_id s H). split; reflexivity.
  - intros s0 token0. reflexivity.
Qed.

(** [validateJql] never throws, whatever the server does: when the request
    goes through the query is valid; when it fails the answer is invalid and
    carries as its one error the message [getErrorMessage] makes of the
    failure.  One request is sent either way, a POST to [/jql/parse] with
    the query. *)
Theorem validateJql_never_throws (server : Server) (c : JiraClient) (jql : string)
  (n : Net) :
  (forall error request, server (List.length (sent n)) request = Failure error ->
                         nullish error = false) ->
  let request := {| method := "POST"; url := baseURL c ++ "/jql/parse";
                    requestHeaders := headers c; params := [];
                    body := JObj [("queries", JArr [JStr jql])] |} in
  sent (snd (validateJql server c jql n)) = (sent n ++ [request])%list /\
  match server (List.length (sent n)) request with
  | Response _ => fst (validateJql server c jql n) = Ok (JObj [("valid", JBool true)])
  | Failure error =>
      exists m,
        getErrorMessage error = Ok m /\
        fst (validateJql server c jql n)
        = Ok (JObj [("valid", JBool false); ("errors", JArr [m])])
  end.
Proof.
  intros Hserver request. unfold validateJql, try_catchS, bindS, send. fold request.
  destruct (server (List.length (sent n)) request) as [response|error] eqn:E.
  - split; reflexivity.
  - pose proof (Hserver _ _ E) as Hn.
    destruct (getErrorMessage_spec error Hn) as (m & Hm & _).
    unfold apiError, mkObj. cbn [mkProps]. rewrite Hm.
    rewrite !(getr_Ok error) by exact Hn. rewrite !optChain_getp, js_or_Ok, cond_Ok.
    cbn [bind].
    destruct (truthy (optprop (prop error "response") "data")) eqn:Td.
    + assert (Hr : nullish (prop error "response") = false).
      { unfold optprop in Td. destruct (nullish (prop error "response")); [discriminate Td|reflexivity]. }
      rewrite getr_Ok by exact Hr. cbn [bind].
      split; [reflexivity|]. exists m. split; reflexivity.
    + cbn [bind]. split; [reflexivity|]. exists m. split; reflexivity.
Qed.

(** ** JiraClient: paging through a search *)

Lemma num_ge_Z (a b : Z) :
  num_ge (Fin (inject_Z a)) (ToNumber (of_Z b)) = (b <=? a)%Z.
Proof.
  unfold of_Z, ToNumber, ToPrimitive. cbn [is_object num_ge].
  destruct (b <=? a)%Z eqn:E.
  - apply Z.leb_le in E. apply Qle_bool_iff. now rewrite <- Zle_Qle.
  - apply Z.leb_gt in E. destruct (Qle_bool _ _) eqn:Q; [|reflexivity].
    apply Qle_bool_iff in Q. rewrite <- Zle_Qle in Q. lia.
Qed.

Lemma search_sends (server : Server) (c : JiraClient) (jql : string)
  (startAt batchSize : Z) (fields expand : option (list string)) (n : Net)
  (response : JsVal) :
  server (List.length (sent n)) (searchRequest c jql batchSize fields expand startAt)
  = Response response ->
  search server c jql (of_Z startAt) (of_Z batchSize) fields expand n
  = (getp response "data",
     {| sent := sent n ++ [searchRequest c jql batchSize fields expand startAt];
        readings := readings n; received := received n |}).
Proof.
  intros H. unfold search, bindS, send. cbv zeta.
  change {| method := "GET"; url := baseURL c ++ "/search"; requestHeaders := headers c;
            params := _; body := JUndefined |}
    with (searchRequest c jql batchSize fields expand startAt).
  rewrite H. unfold liftS. destruct (getp response "data"); reflexivity.
Qed.

Lemma pagesOf_last (t b : Z) : (0 < b)%Z -> (t <= b)%Z -> pagesOf t b = 1%nat.
Proof.
  intros Hb Ht. unfold pagesOf.
  assert ((t + b - 1) / b <= 1)%Z.
  { apply Z.lt_succ_r. apply Z.div_lt_upper_bound; lia. }
  rewrite Z.max_l by lia. reflexivity.
Qed.

Lemma pagesOf_next (t b : Z) :
  (0 < b)%Z -> (b < t)%Z -> pagesOf t b = S (pagesOf (t - b) b).
Proof.
  intros Hb Ht. unfold pagesOf.
  replace (t + b - 1)%Z with ((t - b + b - 1) + 1 * b)%Z by lia.
  rewrite Z.div_add by lia.
  assert (1 <= (t - b + b - 1) / b)%Z.
  { apply Z.div_le_lower_bound; lia. }
  rewrite !Z.max_r by lia. rewrite Z2Nat.inj_add by lia. cbn. lia.
Qed.

Lemma prop_present (v : JsVal) (k : string) (z : Z) :
  prop v k = of_Z z -> nullish v = false.
Proof. destruct v; cbn; try discriminate; reflexivity. Qed.

Lemma is_number_of_Z (a b : Z) : is_number (of_Z a) b = (a =? b)%Z.
Proof.
  unfold is_number, of_Z. destruct (a =? b)%Z eqn:E.
  - apply Z.eqb_eq in E. subst. apply Qeq_bool_iff. reflexivity.
  - apply Z.eqb_neq in E. destruct (Qeq_bool _ _) eqn:Q; [|reflexivity].
    apply Qeq_bool_iff in Q. unfold Qeq in Q. cbn [Qnum Qden inject_Z] in Q. lia.
Qed.

Section Paging.

Variables (server : Server) (c : JiraClient) (jql : string) (batchSize total : Z).
Variables (fields expand : option (list string)) (onProgress : bool).

(** The server answers every request with a page of a result of [total]
    issues. *)
Hypothesis server_pages :
  forall k request,
    exists response,
      server k request = Response response /\
      nullish response = false /\
      prop (prop response "data") "total" = of_Z total /\
      nullish (prop (prop response "data") "issues") = false.

Lemma searchAll_step (fuel : nat) (startAt : Z) (seen : JsVal) (n : Net) :
  seen = of_Z 0 \/ seen = of_Z total ->
  exists steps n',
    sent n' = (sent n ++ [searchRequest c jql batchSize fields expand startAt])%list /\
    readings n' = readings n /\
    received n' = (received n ++ steps)%list /\
    List.length steps = (if onProgress then 2 else 1)%nat /\
    Forall (fun step => match step with
                        | Yielded _ => True
                        | Reported _ reported => reported = of_Z total
                        end) steps /\
    searchAll_loop (S fuel) server c jql batchSize fields expand onProgress startAt seen n
    = if (total <=? startAt + batchSize)%Z then (Ok Finished, n')
      else searchAll_loop fuel server c jql batchSize fields expand onProgress
             (startAt + batchSize) (of_Z total) n'.
Proof.
  intros Hseen.
  destruct (server_pages (List.length (sent n))
              (searchRequest c jql batchSize fields expand startAt))
    as (response & Hr & Hn & Ht & Hi).
  pose proof (prop_present _ _ _ Ht) as Hd.
  cbn [searchAll_loop]. unfold bindS at 1. rewrite (search_sends _ _ _ _ _ _ _ _ _ Hr).
  unfold getp at 1. rewrite Hn.
  assert (Hseen' : (if is_number seen 0 then liftS (getp (prop response "data") "total")
                    else retS seen)
                   = (retS (of_Z total) : ST Net JsVal)).
  { unfold getp. rewrite Hd, Ht. unfold liftS, retS.
    destruct Hseen as [->| ->]; rewrite is_number_of_Z; [reflexivity|].
    destruct (total =? 0)%Z eqn:E; [reflexivity|reflexivity]. }
  rewrite Hseen'. unfold bindS at 1, retS at 1.
  unfold bindS at 1, hand at 1. cbn [sent readings received].
  destruct onProgress.
  - rewrite (getr_Ok (prop response "data")) by exact Hd.
    rewrite getr_Ok by exact Hi.
    unfold bindS at 1, bindS at 1, liftS at 1, hand at 1. cbn [sent readings received].
    unfold bindS at 1, liftS at 1, getp at 1. rewrite Hd, Ht, num_ge_Z.
    eexists [_; _], _. split; [|split; [|split; [|split; [|split]]]].
    6: { destruct (total <=? startAt + batchSize)%Z; unfold retS; reflexivity. }
    all: cbn [sent readings received]; try reflexivity.
    + now rewrite <- app_assoc.
    + repeat constructor.
  - unfold bindS at 1, retS at 1.
    unfold bindS at 1, liftS at 1, getp at 1. rewrite Hd, Ht, num_ge_Z.
    eexists [_], _. split; [|split; [|split; [|split; [|split]]]].
    6: { destruct (total <=? startAt + batchSize)%Z; unfold retS; reflexivity. }
    all: cbn [sent readings received]; try reflexivity.
    repeat constructor.
Qed.


Let reportsTotal (step : SearchStep) : Prop :=
  match step with
  | Yielded _ => True
  | Reported _ reported => reported = of_Z total
  end.

Lemma searchAll_loop_pages :
  (0 < batchSize)%Z ->
  forall (fuel : nat) (startAt : Z) (seen : JsVal) (n : Net),
    seen = of_Z 0 \/ seen = of_Z total ->
    let pages := pagesOf (total - startAt) batchSize in
    exists steps n',
      searchAll_loop fuel server c jql batchSize fields expand onProgress startAt seen n
      = (Ok (if (pages <=? fuel)%nat then Finished else Running), n') /\
      sent n' = (sent n ++ map (searchRequest c jql batchSize fields expand)
                             (offsets (Nat.min fuel pages) startAt batchSize))%list /\
      received n' = (received n ++ steps)%list /\
      List.length steps = ((if onProgress then 2 else 1) * Nat.min fuel pages)%nat /\
      Forall reportsTotal steps.
Proof.
  intros Hb. induction fuel as [|fuel IH]; intros startAt seen n Hseen pages.
  - exists [], n. cbn [searchAll_loop Nat.min offsets map]. unfold retS.
    assert (1 <= pages)%nat by (unfold pages, pagesOf; lia).
    destruct (pages <=? 0)%nat eqn:E; [apply Nat.leb_le in E; lia|].
    rewrite !app_nil_r, Nat.mul_0_r. repeat split. constructor.
  - destruct (searchAll_step fuel startAt seen n Hseen)
      as (steps & n1 & Hs & Hr & Hrec & Hlen & Hall & Hstep).
    rewrite Hstep. destruct (total <=? startAt + batchSize)%Z eqn:E.
    + apply Z.leb_le in E.
      assert (Hp : pages = 1%nat) by (apply pagesOf_last; lia).
      rewrite Hp. replace (Nat.min (S fuel) 1) with 1%nat by lia.
      cbn [Nat.leb offsets map].
      exists steps, n1. rewrite Hlen, Nat.mul_1_r. repeat split; assumption.
    + apply Z.leb_gt in E.
      assert (Hp : pages = S (pagesOf (total - (startAt + batchSize)) batchSize)).
      { unfold pages. rewrite pagesOf_next by lia. do 2 f_equal. lia. }
      destruct (IH (startAt + batchSize)%Z (of_Z total) n1 (or_intror eq_refl))
        as (steps' & n' & Hloop & Hs' & Hrec' & Hlen' & Hall').
      cbv zeta in Hloop, Hs', Hlen'. rewrite Hp.
      replace (Nat.min (S fuel) (S (pagesOf (total - (startAt + batchSize)) batchSize)))
        with (S (Nat.min fuel (pagesOf (total - (startAt + batchSize)) batchSize)))
        by lia.
      exists (steps ++ steps')%list, n'. cbn [Nat.leb offsets map].
      split; [exact Hloop|]. split; [|split; [|split]].
      * rewrite Hs', Hs, <- app_assoc. reflexivity.
      * rewrite Hrec', Hrec, <- app_assoc. reflexivity.
      * rewrite length_app, Hlen, Hlen'. destruct onProgress; lia.
      * apply Forall_app. split; assumption.
Qed.

Lemma searchAll_loop_runs :
  (batchSize <= 0)%Z -> (0 < total)%Z ->
  forall (fuel : nat) (startAt : Z) (seen : JsVal) (n : Net),
    (startAt <= 0)%Z -> seen = of_Z 0 \/ seen = of_Z total ->
    exists n',
      searchAll_loop fuel server c jql batchSize fields expand onProgress startAt seen n
      = (Ok Running, n') /\
      sent n' = (sent n ++ map (searchRequest c jql batchSize fields expand)
                             (offsets fuel startAt batchSize))%list.
Proof.
  intros Hb Ht. induction fuel as [|fuel IH]; intros startAt seen n Hs Hseen.
  - exists n. cbn [searchAll_loop offsets map]. rewrite app_nil_r. split; reflexivity.
  - destruct (searchAll_step fuel startAt seen n Hseen)
      as (steps & n1 & Hs1 & _ & _ & _ & _ & Hstep).
    rewrite Hstep. destruct (total <=? startAt + batchSize)%Z eqn:E;
      [apply Z.leb_le in E; lia|].
    destruct (IH (startAt + batchSize)%Z (of_Z total) n1 ltac:(lia) (or_intror eq_refl))
      as (n' & Hloop & Hs').
    exists n'. split; [exact Hloop|].
    rewrite Hs', Hs1, <- app_assoc. reflexivity.
Qed.

End Paging.


(** With a batch size of zero (or less) and a result that has issues,
    [searchAll] never comes to its end: after any number of passes
    through its loop it is still in it, having asked for a page each time,
    at offset 0 again and again when the batch size is 0. *)
Theorem searchAll_needs_a_batch_size (server : Server) (c : JiraClient) (jql : string)
  (batchSize total : Z) (fields expand : option (list string)) (onProgress : bool)
  (fuel : nat) :
  (forall k request,
     exists response,
       server k request = Response response /\
       nullish response = false /\
       prop (prop response "data") "total" = of_Z total /\
       nullish (prop (prop response "data") "issues") = false) ->
  (batchSize <= 0)%Z -> (0 < total)%Z ->
  exists n',
    searchAll fuel server c jql batchSize fields expand onProgress offline
    = (Ok Running, n') /\
    sent n' = map (searchRequest c jql batchSize fields expand)
                (offsets fuel 0 batchSize).
Proof.
  intros Hserver Hb Ht.
  destruct (searchAll_loop_runs server c jql batchSize total fields expand onProgress
              Hserver Hb Ht fuel 0%Z (of_Z 0) offline (Z.le_refl 0) (or_introl eq_refl))
    as (n' & Hloop & Hs).
  exists n'. split; [exact Hloop|exact Hs].
Qed.


(** ** StorageService: the connection *)

Lemma getItem_putItem (items : list (string * string)) (key value : string) :
  getItem (putItem items key value) key = Some value.
Proof.
  induction items as [|[k v] tl IH]; cbn [putItem getItem].
  - now rewrite String.eqb_refl.
  - destruct (k =? key) eqn:E; cbn [getItem]; now rewrite E.
Qed.

Lemma getItem_putItem_other (items : list (string * string)) (key key' value : string) :
  (key' =? key) = false ->
  getItem (putItem items key' value) key = getItem items key.
Proof.
  intros H. induction items as [|[k v] tl IH]; cbn [putItem getItem].
  - now rewrite H.
  - destruct (k =? key') eqn:E; cbn [getItem].
    + apply String.eqb_eq in E. subst k. now rewrite H.
    + now rewrite IH.
Qed.

Lemma getItem_dropItem (items : list (string * string)) (key : string) :
  getItem (dropItem items key) key = None.
Proof.
  unfold dropItem. induction items as [|[k v] tl IH]; cbn [filter getItem fst]; [reflexivity|].
  destruct (k =? key) eqn:E; cbn [negb getItem]; [exact IH|]. now rewrite E.
Qed.

Lemma getItem_dropItem_other (items : list (string * string)) (key key' : string) :
  (key' =? key) = false ->
  getItem (dropItem items key') key = getItem items key.
Proof.
  intros H. unfold dropItem.
  induction items as [|[k v] tl IH]; cbn [filter getItem fst]; [reflexivity|].
  destruct (k =? key') eqn:E; cbn [negb getItem].
  - apply String.eqb_eq in E. subst k. now rewrite H.
  - now rewrite IH.
Qed.

(** What [saveConnection] writes is the serialised
    [{serverUrl, email, token, isConnected: false}], to the session storage
    only.  Unless the credentials are to be remembered the email and the
    token written are empty, so that two configurations with the same
    server URL leave the same stores; and [isConnected] is written as
    [false] whatever the configuration says. *)
Theorem saveConnection_keeps_credentials_out (config : JsVal)
  (rememberCredentials : bool) (s : Stores) :
  nullish config = false ->
  let email := if rememberCredentials then prop config "email" else JStr "" in
  let token := if rememberCredentials then prop config "token" else JStr "" in
  let text := JSON_stringify (JObj [("serverUrl", prop config "serverUrl");
                                    ("email", email); ("token", token);
                                    ("isConnected", JBool false)]) in
  (storage_accepts (sessionStorage s) CONNECTION text = true ->
   exists s',
     saveConnection config rememberCredentials s = (Ok tt, s') /\
     getItem (sessionStorage s') CONNECTION = Some text /\
     localStorage s' = localStorage s) /\
  (storage_accepts (sessionStorage s) CONNECTION text = false ->
   saveConnection config rememberCredentials s = (Throw QuotaExceededError, s)) /\
  (forall config',
     nullish config' = false -> rememberCredentials = false ->
     prop config' "serverUrl" = prop config "serverUrl" ->
     saveConnection config' false s = saveConnection config false s).
Proof.
  intros Hn email token text.
  assert (Hsave : forall c r, nullish c = false ->
            saveConnection c r s
            = sessionStorage_setItem CONNECTION
                (JSON_stringify (JObj [("serverUrl", prop c "serverUrl");
                                       ("email", if r then prop c "email" else JStr "");
                                       ("token", if r then prop c "token" else JStr "");
                                       ("isConnected", JBool false)])) s).
  { intros c r Hc. unfold saveConnection, bindS, liftS, mkObj. cbn [mkProps].
    rewrite !(getr_Ok c) by exact Hc. destruct r; reflexivity. }
  split; [|split].
  - intros Ha. rewrite (Hsave _ _ Hn). unfold sessionStorage_setItem.
    fold email token text. rewrite Ha. eexists. split; [reflexivity|].
    cbn [sessionStorage localStorage]. split; [apply getItem_putItem|reflexivity].
  - intros Ha. rewrite (Hsave _ _ Hn). unfold sessionStorage_setItem.
    fold email token text. now rewrite Ha.
  - intros config' Hn' _ Hurl. rewrite (Hsave _ _ Hn), (Hsave _ _ Hn'), Hurl. reflexivity.
Qed.

(** [loadConnection] never throws and writes to neither storage.  What it
    returns is the empty object (always so when nothing is stored, or what
    is stored is not JSON) or a configuration that is not connected and not
    loading, whose server URL, email and token are each what was stored or
    the empty string. *)
Theorem loadConnection_is_never_connected (s : Stores) :
  exists v s',
    loadConnection s = (Ok v, s') /\
    localStorage s' = localStorage s /\ sessionStorage s' = sessionStorage s /\
    (nothingStored (getItem (sessionStorage s) CONNECTION) = true -> v = JObj []) /\
    (forall e, JSON_parse (textOf (getItem (sessionStorage s) CONNECTION)) = Throw e ->
               v = JObj []) /\
    (v = JObj [] \/
     exists config,
       JSON_parse (textOf (getItem (sessionStorage s) CONNECTION)) = Ok config /\
       v = JObj [("serverUrl", or_val (prop config "serverUrl") (JStr ""));
                 ("email", or_val (prop config "email") (JStr ""));
                 ("token", or_val (prop config "token") (JStr ""));
                 ("isConnected", JBool false);
                 ("isLoading", JBool false)]).
Proof.
  unfold loadConnection, bindS, sessionStorage_getItem.
  destruct (nothingStored (getItem (sessionStorage s) CONNECTION)) eqn:E.
  - exists (JObj []), s. unfold retS. repeat split; auto.
  - unfold try_catchS, liftS.
    destruct (JSON_parse (textOf (getItem (sessionStorage s) CONNECTION)))
      as [config|e] eqn:Hp.
    + destruct (nullish config) eqn:Hn.
      * assert (Ht : Ok config $. "serverUrl" = Throw (type_error_read config "serverUrl")).
        { unfold getr, getp. cbn [bind]. now rewrite Hn. }
        unfold mkObj. cbn [mkProps]. rewrite Ht. cbn [js_or bind].
        unfold console_log, retS. eexists _, _. split; [reflexivity|].
        cbn [localStorage sessionStorage]. repeat split; auto; discriminate.
      * unfold mkObj. cbn [mkProps]. rewrite !(getr_Ok config) by exact Hn.
        rewrite !js_or_Ok. cbn [bind].
        eexists _, _. split; [reflexivity|]. repeat split; try discriminate.
        right. exists config. split; reflexivity.
    + unfold console_log, retS. eexists _, _. split; [reflexivity|].
      cbn [localStorage sessionStorage]. repeat split; auto; discriminate.
Qed.

(** A connection that was saved is loaded again, as long as the session
    storage takes the item and the text written reads back as the object
    it was made from: with the server URL, with the email and the token when
    the credentials were to be remembered and with empty ones otherwise, and
    never as connected. *)
Theorem saved_connection_is_loaded (config : JsVal) (rememberCredentials : bool)
  (s : Stores) :
  nullish config = false ->
  let email := if rememberCredentials then prop config "email" else JStr "" in
  let token := if rememberCredentials then prop config "token" else JStr "" in
  let data := JObj [("serverUrl", prop config "serverUrl");
                    ("email", email); ("token", token);
                    ("isConnected", JBool false)] in
  storage_accepts (sessionStorage s) CONNECTION (JSON_stringify data) = true ->
  JSON_stringify data <> "" ->
  JSON_parse (JSON_stringify data) = Ok data ->
  exists s',
    saveConnection config rememberCredentials s = (Ok tt, s') /\
    loadConnection s'
    = (Ok (JObj [("serverUrl", or_val (prop config "serverUrl") (JStr ""));
                 ("email", or_val email (JStr ""));
                 ("token", or_val token (JStr ""));
                 ("isConnected", JBool false);
                 ("isLoading", JBool false)]), s').
Proof.
  intros Hn email token data Ha Hne Hp.
  assert (Hsave : saveConnection config rememberCredentials s
                  = sessionStorage_setItem CONNECTION (JSON_stringify data) s).
  { unfold saveConnection, bindS, liftS, mkObj. cbn [mkProps].
    rewrite !(getr_Ok config) by exact Hn. subst data email token.
    destruct rememberCredentials; reflexivity. }
  rewrite Hsave. unfold sessionStorage_setItem. rewrite Ha.
  eexists. split; [reflexivity|].
  unfold loadConnection, bindS, sessionStorage_getItem. cbn [sessionStorage].
  rewrite getItem_putItem. cbn [nothingStored textOf].
  destruct (JSON_stringify data =? "") eqn:E; [apply String.eqb_eq in E; contradiction|].
  unfold try_catchS, liftS. rewrite Hp. unfold mkObj. cbn [mkProps].
  rewrite !(getr_Ok data) by reflexivity. rewrite !js_or_Ok. reflexivity.
Qed.

(** ** StorageService: clearing *)

Lemma defaults_ids (s : Stores) :
  exists ts s',
    getDefaultQueryTemplates s = (Ok (JArr ts), s') /\
    map (fun t => prop t "id") ts
    = [JStr "all-open"; JStr "assigned-to-me"; JStr "reported-by-me";
       JStr "updated-recently"; JStr "high-priority"] /\
    localStorage s' = localStorage s /\ sessionStorage s' = sessionStorage s /\
    console s' = console s /\ clockReadings s' = (clockReadings s + 5)%nat /\
    Forall (fun t => nullish t = false) ts.
Proof.
  unfold getDefaultQueryTemplates, defaultTemplate, bindS, new_Date, retS.
  cbn [localStorage sessionStorage clockReadings console].
  eexists _, _. split; [reflexivity|].
  cbn [localStorage sessionStorage clockReadings console].
  repeat split; try reflexivity; try lia. repeat constructor.
Qed.

(** After [clearAllData] nothing of the four items is left in either
    storage, while items under other keys stay: the connection loads as the
    empty object, the history as the empty list, the settings as the
    defaults, and the templates as the five default templates. *)
Theorem clearAllData_forgets_everything (s : Stores) :
  exists s',
    clearAllData s = (Ok tt, s') /\
    (forall key,
       In key [CONNECTION; QUERY_TEMPLATES; APP_SETTINGS; QUERY_HISTORY] ->
       getItem (localStorage s') key = None /\ getItem (sessionStorage s') key = None) /\
    (forall key,
       ~ In key [CONNECTION; QUERY_TEMPLATES; APP_SETTINGS; QUERY_HISTORY] ->
       getItem (localStorage s') key = getItem (localStorage s) key /\
       getItem (sessionStorage s') key = getItem (sessionStorage s) key) /\
    fst (loadConnection s') = Ok (JObj []) /\
    fst (loadQueryHistory s') = Ok (JArr []) /\
    fst (loadSettings s') = Ok (JObj getDefaultSettings) /\
    exists templates,
      fst (loadQueryTemplates s') = Ok (JArr templates) /\
      map (fun t => prop t "id") templates
      = [JStr "all-open"; JStr "assigned-to-me"; JStr "reported-by-me";
         JStr "updated-recently"; JStr "high-priority"].
Proof.
  unfold clearAllData, bindS, localStorage_removeItem, sessionStorage_removeItem.
  cbn [localStorage sessionStorage clockReadings console].
  eexists. split; [reflexivity|].
  cbn [localStorage sessionStorage clockReadings console].
  assert (Hgone : forall key,
            In key [CONNECTION; QUERY_TEMPLATES; APP_SETTINGS; QUERY_HISTORY] ->
            forall items,
              getItem (dropItem (dropItem (dropItem (dropItem items CONNECTION)
                                             QUERY_TEMPLATES) APP_SETTINGS)
                         QUERY_HISTORY) key = None).
  { intros key Hin items.
    destruct Hin as [<-|[<-|[<-|[<-|[]]]]].
    - rewrite !getItem_dropItem_other by reflexivity. apply getItem_dropItem.
    - rewrite !getItem_dropItem_other by reflexivity. apply getItem_dropItem.
    - rewrite !getItem_dropItem_other by reflexivity. apply getItem_dropItem.
    - apply getItem_dropItem. }
  assert (Hkept : forall key,
            ~ In key [CONNECTION; QUERY_TEMPLATES; APP_SETTINGS; QUERY_HISTORY] ->
            forall items,
              getItem (dropItem (dropItem (dropItem (dropItem items CONNECTION)
                                             QUERY_TEMPLATES) APP_SETTINGS)
                         QUERY_HISTORY) key = getItem items key).
  { intros key Hout items.
    rewrite !getItem_dropItem_other; [reflexivity| | | |];
      apply String.eqb_neq; intros <-; apply Hout; cbn; auto. }
  split; [|split; [|split; [|split; [|split]]]].
  - intros key Hin. split; apply Hgone; exact Hin.
  - intros key Hout. split; apply Hkept; exact Hout.
  - unfold loadConnection, bindS, sessionStorage_getItem. cbn [sessionStorage].
    rewrite Hgone by (cbn; auto). reflexivity.
  - unfold loadQueryHistory, bindS, localStorage_getItem. cbn [localStorage].
    rewrite Hgone by (cbn; auto). reflexivity.
  - unfold loadSettings, bindS, localStorage_getItem. cbn [localStorage].
    rewrite Hgone by (cbn; auto). reflexivity.
  - unfold loadQueryTemplates, bindS, localStorage_getItem. cbn [localStorage].
    rewrite Hgone by (cbn; auto). cbn [nothingStored].
    match goal with |- context [getDefaultQueryTemplates ?w] =>
      destruct (defaults_ids w) as (ts & s' & Hd & Hids & _)
    end.
    exists ts. rewrite Hd. split; [reflexivity|exact Hids].
Qed.

(** ** StorageService: importing *)

Lemma saveQueryTemplates_run (templates : JsVal) (s : Stores) :
  saveQueryTemplates templates s
  = (Ok tt,
     if storage_accepts (localStorage s) QUERY_TEMPLATES (JSON_stringify templates)
     then {| localStorage := putItem (localStorage s) QUERY_TEMPLATES
                               (JSON_stringify templates);
             sessionStorage := sessionStorage s;
             clockReadings := clockReadings s; console := console s |}
     else {| localStorage := localStorage s; sessionStorage := sessionStorage s;
             clockReadings := clockReadings s;
             console := console s ++ ["Failed to save query templates:"] |}).
Proof.
  unfold saveQueryTemplates, try_catchS, localStorage_setItem, console_log.
  destruct (storage_accepts _ _ _); reflexivity.
Qed.

Lemma saveSettings_run (settings : JsVal) (s : Stores) :
  saveSettings settings s
  = (Ok tt,
     if storage_accepts (localStorage s) APP_SETTINGS (JSON_stringify settings)
     then {| localStorage := putItem (localStorage s) APP_SETTINGS
                               (JSON_stringify settings);
             sessionStorage := sessionStorage s;
             clockReadings := clockReadings s; console := console s |}
     else {| localStorage := localStorage s; sessionStorage := sessionStorage s;
             clockReadings := clockReadings s;
             console := console s ++ ["Failed to save app settings:"] |}).
Proof.
  unfold saveSettings, try_catchS, localStorage_setItem, console_log.
  destruct (storage_accepts _ _ _); reflexivity.
Qed.

Lemma importData_spec (jsonData : string) (s : Stores) :
  exists b s',
    importData jsonData s = (Ok b, s') /\
    sessionStorage s' = sessionStorage s /\
    clockReadings s' = clockReadings s /\
    (forall e, JSON_parse jsonData = Throw e ->
       b = false /\ localStorage s' = localStorage s /\
       console s' = (console s ++ ["Failed to import data:"])%list) /\
    (forall data, JSON_parse jsonData = Ok data -> nullish data = true ->
       b = false /\ localStorage s' = localStorage s).
Proof.
  unfold importData, try_catchS, bindS at 1, liftS at 1.
  destruct (JSON_parse jsonData) as [data|e] eqn:Hp.
  2: { unfold bindS, console_log, retS. eexists _, _. split; [reflexivity|].
       cbn [localStorage sessionStorage clockReadings console].
       repeat split; try discriminate. }
  destruct (nullish data) eqn:Hn.
  { unfold bindS at 1, liftS at 1, getr, getp. cbn [bind]. rewrite Hn.
    unfold bindS, console_log, retS. eexists _, _. split; [reflexivity|].
    cbn [localStorage sessionStorage clockReadings console].
    repeat split; try discriminate. }
  rewrite !(getr_Ok data) by exact Hn.
  unfold bindS at 1, liftS at 1.
  unfold bindS at 1.
  set (m1 := if truthy (prop data "templates") && is_array (prop data "templates")
             then saveQueryTemplates (prop data "templates") else retS tt).
  assert (H1 : exists s1, m1 s = (Ok tt, s1) /\ sessionStorage s1 = sessionStorage s /\
                          clockReadings s1 = clockReadings s).
  { subst m1. destruct (_ && _).
    - rewrite saveQueryTemplates_run. eexists. split; [reflexivity|].
      destruct (storage_accepts _ _ _); split; reflexivity.
    - unfold retS. eexists. repeat split. }
  destruct H1 as (s1 & -> & Hs1 & Hc1).
  unfold bindS at 1, liftS at 1. unfold bindS at 1.
  set (m2 := if truthy (prop data "settings")
             then saveSettings (JObj (spread getDefaultSettings (prop data "settings")))
             else retS tt).
  assert (H2 : exists s2, m2 s1 = (Ok tt, s2) /\ sessionStorage s2 = sessionStorage s1 /\
                          clockReadings s2 = clockReadings s1).
  { subst m2. destruct (truthy (prop data "settings")).
    - rewrite saveSettings_run. eexists. split; [reflexivity|].
      destruct (storage_accepts _ _ _); split; reflexivity.
    - unfold retS. eexists. repeat split. }
  destruct H2 as (s2 & -> & Hs2 & Hc2).
  unfold bindS at 1, liftS at 1. unfold bindS at 1.
  destruct (truthy (prop data "history") && is_array (prop data "history")).
  - unfold localStorage_setItem. destruct (storage_accepts _ _ _).
    + unfold retS. eexists _, _. split; [reflexivity|].
      cbn [localStorage sessionStorage clockReadings console].
      repeat split; try discriminate; try congruence.
      all: intros d Hd; inversion Hd; subst; congruence.
    + unfold bindS, console_log, retS. eexists _, _. split; [reflexivity|].
      cbn [localStorage sessionStorage clockReadings console].
      repeat split; try discriminate; try congruence.
      all: intros d Hd; inversion Hd; subst; congruence.
  - unfold retS. eexists _, _. split; [reflexivity|].
    repeat split; try discriminate; try congruence.
    all: intros d Hd; inversion Hd; subst; congruence.
Qed.

(** [importData] never throws: it returns a boolean.  It leaves the session
    storage alone; and when the text is not JSON, or is the JSON of [null],
    it returns [false] and has written nothing to the local storage. *)
Theorem importData_never_throws (jsonData : string) (s : Stores) :
  exists b s',
    importData jsonData s = (Ok b, s') /\
    sessionStorage s' = sessionStorage s /\
    (forall e, JSON_parse jsonData = Throw e ->
       b = false /\ localStorage s' = localStorage s) /\
    (forall data, JSON_parse jsonData = Ok data -> nullish data = true ->
       b = false /\ localStorage s' = localStorage s).
Proof.
  destruct (importData_spec jsonData s) as (b & s' & H & Hs & _ & He & Hn).
  exists b, s'. split; [exact H|]. split; [exact Hs|]. split; [|exact Hn].
  intros e Hp. destruct (He e Hp) as (Hb & Hl & _). auto.
Qed.

(** ** StorageService: templates and settings *)

Lemma loadQueryTemplates_spec (s : Stores) :
  let stored := getItem (localStorage s) QUERY_TEMPLATES in
  exists ts s',
    loadQueryTemplates s = (Ok (JArr ts), s') /\
    localStorage s' = localStorage s /\ sessionStorage s' = sessionStorage s /\
    (forall items,
       nothingStored stored = false -> JSON_parse (textOf stored) = Ok (JArr items) ->
       ts = items /\ s' = s) /\
    ((nothingStored stored = true \/
      (exists e, JSON_parse (textOf stored) = Throw e) \/
      (exists v, JSON_parse (textOf stored) = Ok v /\ is_array v = false)) ->
     map (fun t => prop t "id") ts
     = [JStr "all-open"; JStr "assigned-to-me"; JStr "reported-by-me";
        JStr "updated-recently"; JStr "high-priority"] /\
     Forall (fun t => nullish t = false) ts).
Proof.
  intros stored. unfold loadQueryTemplates, bindS at 1, localStorage_getItem.
  fold stored. destruct (nothingStored stored) eqn:E.
  - destruct (defaults_ids s) as (ts & s' & Hd & Hids & Hl & Hs & _ & _ & Hall).
    exists ts, s'. rewrite Hd. repeat split; auto; discriminate.
  - unfold try_catchS, bindS at 1, liftS.
    destruct (JSON_parse (textOf stored)) as [v|e] eqn:Hp.
    + destruct v as [| | | | |items|] eqn:Hv; cbn [is_array].
      6: { exists items, s. unfold retS.
           split; [reflexivity|]. split; [reflexivity|]. split; [reflexivity|].
           split.
           - intros items' _ Hi. inversion Hi. split; reflexivity.
           - intros [Hc|[[e Hc]|[v' [Hc Hc']]]]; try discriminate.
             inversion Hc; subst v'. discriminate Hc'. }
      all: destruct (defaults_ids s) as (ts & s' & Hd & Hids & Hl & Hs & _ & _ & Hall);
        exists ts, s'; rewrite Hd; repeat split; auto; discriminate.
    + unfold bindS, console_log.
      match goal with |- context [getDefaultQueryTemplates ?w] =>
        destruct (defaults_ids w) as (ts & s' & Hd & Hids & Hl & Hs & _ & _ & Hall)
      end.
      exists ts, s'. rewrite Hd. cbn [localStorage sessionStorage] in Hl, Hs.
      repeat split; auto; discriminate.
Qed.

(** [loadQueryTemplates] never throws and always returns a list, writing
    to neither storage: the stored list when what is stored is the JSON of
    an array, and the five default templates in every other case (nothing
    stored, an empty text, a text that is not JSON, JSON that is not an
    array). *)
Theorem loadQueryTemplates_always_a_list (s : Stores) :
  let stored := getItem (localStorage s) QUERY_TEMPLATES in
  exists ts s',
    loadQueryTemplates s = (Ok (JArr ts), s') /\
    localStorage s' = localStorage s /\ sessionStorage s' = sessionStorage s /\
    (forall items,
       nothingStored stored = false -> JSON_parse (textOf stored) = Ok (JArr items) ->
       ts = items) /\
    ((nothingStored stored = true \/
      (exists e, JSON_parse (textOf stored) = Throw e) \/
      (exists v, JSON_parse (textOf stored) = Ok v /\ is_array v = false)) ->
     map (fun t => prop t "id") ts
     = [JStr "all-open"; JStr "assigned-to-me"; JStr "reported-by-me";
        JStr "updated-recently"; JStr "high-priority"]).
Proof.
  intros stored.
  destruct (loadQueryTemplates_spec s) as (ts & s' & H & Hl & Hs & Hstored & Hdef).
  exists ts, s'. split; [exact H|]. split; [exact Hl|]. split; [exact Hs|]. split.
  - intros items Hn Hp. now destruct (Hstored items Hn Hp).
  - intros Hc. now destruct (Hdef Hc).
Qed.

Lemma lookup_obj_set (obj : Props) (k k' : string) (v : JsVal) :
  lookup k (obj_set obj k' v) = if k' =? k then Some v else lookup k obj.
Proof.
  destruct (k' =? k) eqn:E.
  - apply String.eqb_eq in E. subst. apply lookup_obj_set_same.
  - now apply lookup_obj_set_other.
Qed.

Lemma lookup_spread_keeps (source : Props) :
  forall (target : Props) (k : string),
    lookup k target <> None ->
    lookup k (fold_left (fun acc kv => obj_set acc (fst kv) (snd kv)) source target)
    <> None.
Proof.
  induction source as [|[k0 v0] tl IH]; intros target k H; cbn [fold_left]; [exact H|].
  apply IH. cbn [fst snd]. rewrite lookup_obj_set. destruct (k0 =? k); [discriminate|exact H].
Qed.

Lemma lookup_None_notin (k : string) (props : Props) :
  lookup k props = None -> ~ In k (map fst props).
Proof.
  induction props as [|[k0 v0] tl IH]; cbn [lookup map fst]; [auto|].
  destruct (k0 =? k) eqn:E; [discriminate|].
  intros H [Hk|Hin]; [|now apply IH].
  subst k0. now rewrite String.eqb_refl in E.
Qed.

Lemma lookup_spread (source : Props) :
  NoDup (map fst source) ->
  forall (target : Props) (k : string),
    lookup k (fold_left (fun acc kv => obj_set acc (fst kv) (snd kv)) source target)
    = match lookup k source with
      | Some v => Some v
      | None => lookup k target
      end.
Proof.
  induction source as [|[k0 v0] tl IH]; intros Hnd target k; cbn [fold_left lookup];
    [reflexivity|].
  cbn [map fst] in Hnd. inversion Hnd as [|? ? Hnotin Hnd']; subst.
  rewrite (IH Hnd'). cbn [fst snd]. rewrite lookup_obj_set.
  destruct (k0 =? k) eqn:E; [|reflexivity].
  apply String.eqb_eq in E. subst k0.
  destruct (lookup k tl) eqn:L; [|reflexivity].
  exfalso. apply Hnotin. clear - L.
  induction tl as [|[k1 v1] tl IH]; [discriminate|].
  cbn [lookup] in L. cbn [map fst]. destruct (k1 =? k) eqn:E.
  - left. now apply String.eqb_eq.
  - right. now apply IH.
Qed.

(** [loadSettings] never throws and always returns settings that have
    every key of the defaults.  When what is stored is the JSON of an
    object, each of its properties is in the settings loaded, and the
    defaults fill in for the keys it does not have; with nothing stored,
    or a text that is not JSON, the settings are the defaults. *)
Theorem loadSettings_fills_in_defaults (s : Stores) :
  let stored := getItem (localStorage s) APP_SETTINGS in
  exists settings s',
    loadSettings s = (Ok (JObj settings), s') /\
    localStorage s' = localStorage s /\ sessionStorage s' = sessionStorage s /\
    (forall k, lookup k getDefaultSettings <> None -> lookup k settings <> None) /\
    (forall props,
       nothingStored stored = false -> JSON_parse (textOf stored) = Ok (JObj props) ->
       NoDup (map fst props) ->
       forall k, lookup k settings
                 = match lookup k props with
                   | Some v => Some v
                   | None => lookup k getDefaultSettings
                   end) /\
    ((nothingStored stored = true \/ exists e, JSON_parse (textOf stored) = Throw e) ->
     settings = getDefaultSettings).
Proof.
  intros stored. unfold loadSettings, bindS at 1, localStorage_getItem.
  fold stored. destruct (nothingStored stored) eqn:E.
  - exists getDefaultSettings, s. unfold retS. repeat split; auto. discriminate.
  - unfold try_catchS, bindS at 1, liftS.
    destruct (JSON_parse (textOf stored)) as [v|e] eqn:Hp.
    + exists (spread getDefaultSettings v), s. unfold retS.
      split; [reflexivity|]. split; [reflexivity|]. split; [reflexivity|].
      split; [|split].
      * intros k Hk. now apply lookup_spread_keeps.
      * intros props _ H Hnd k. inversion H; subst v. unfold spread. cbn [ownProperties].
        now apply lookup_spread.
      * intros [H|[e H]]; discriminate.
    + unfold bindS, console_log, retS. eexists _, _. split; [reflexivity|].
      cbn [localStorage sessionStorage]. repeat split; auto. discriminate.
Qed.

Lemma findIndex_split (f : JsVal -> result bool) (p : JsVal -> bool) (l : list JsVal) :
  Forall (fun x => f x = Ok (p x)) l ->
  forall i,
    (exists pre old post,
       l = (pre ++ old :: post)%list /\ p old = true /\
       Forall (fun x => p x = false) pre /\
       findIndex f l i = Ok (Some (i + List.length pre)%nat)) \/
    (Forall (fun x => p x = false) l /\ findIndex f l i = Ok None).
Proof.
  induction 1 as [|x tl Hx _ IH]; intros i.
  - right. split; [constructor|reflexivity].
  - cbn [findIndex]. rewrite Hx. cbn [bind]. destruct (p x) eqn:Px.
    + left. exists [], x, tl. cbn [app List.length]. rewrite Nat.add_0_r.
      repeat split; auto.
    + destruct (IH (S i)) as [(pre & old & post & -> & Hold & Hpre & Hfind)|[Hall Hfind]].
      * left. exists (x :: pre), old, post. cbn [app List.length].
        repeat split; auto. rewrite Hfind. do 2 f_equal. lia.
      * right. split; [constructor; assumption|exact Hfind].
Qed.

Lemma setAt_split (pre post : list JsVal) (old v : JsVal) :
  setAt (pre ++ old :: post) (List.length pre) v = (pre ++ v :: post)%list.
Proof. induction pre as [|x tl IH]; cbn [app List.length setAt]; [reflexivity|now rewrite IH]. Qed.

Lemma filterM_filter (f : JsVal -> result bool) (p : JsVal -> bool) (l : list JsVal) :
  Forall (fun x => f x = Ok (p x)) l -> filterM f l = Ok (filter p l).
Proof.
  induction 1 as [|x tl Hx _ IH]; cbn [filterM filter]; [reflexivity|].
  rewrite Hx, IH. cbn [bind]. reflexivity.
Qed.

(** [saveQueryTemplate] adds or updates: of the list it loaded, it writes
    the template in the place of the first one that has the same [id], the
    others as they were, or after all of them when none has that [id]. *)
Theorem saveQueryTemplate_adds_or_updates (template : JsVal) (s s1 : Stores)
  (templates : list JsVal) :
  loadQueryTemplates s = (Ok (JArr templates), s1) ->
  Forall (fun t => nullish t = false) templates ->
  nullish template = false ->
  let same := fun t => strict_eq (prop t "id") (prop template "id") in
  exists written,
    saveQueryTemplate template s = saveQueryTemplates (JArr written) s1 /\
    ((exists pre old post,
        templates = (pre ++ old :: post)%list /\ same old = true /\
        Forall (fun t => same t = false) pre /\
        written = (pre ++ template :: post)%list) \/
     (Forall (fun t => same t = false) templates /\
      written = (templates ++ [template])%list)).
Proof.
  intros Hload Hall Hn same.
  unfold saveQueryTemplate, bindS at 1. rewrite Hload. cbn [elements].
  assert (Hf : Forall (fun t => (id <- Ok t $. "id" ;;
                                 id' <- Ok template $. "id" ;;
                                 Ok (strict_eq id id')) = Ok (same t)) templates).
  { apply Forall_forall. intros t Ht. rewrite Forall_forall in Hall.
    rewrite (getr_Ok t) by now apply Hall. rewrite (getr_Ok template) by exact Hn.
    reflexivity. }
  destruct (findIndex_split _ same templates Hf 0)
    as [(pre & old & post & Hsplit & Hold & Hpre & Hfind)|[Hnone Hfind]].
  - exists (pre ++ template :: post)%list. unfold bindS, liftS. rewrite Hfind.
    cbn [Nat.add]. rewrite Hsplit, setAt_split. split; [reflexivity|].
    left. exists pre, old, post. rewrite <- Hsplit. repeat split; auto.
  - exists (templates ++ [template])%list. unfold bindS, liftS. rewrite Hfind.
    split; [reflexivity|]. right. split; [assumption|reflexivity].
Qed.

(** [deleteQueryTemplate] writes the list it loaded without the templates
    that have the given [id], all of them, and with the others in their
    order. *)
Theorem deleteQueryTemplate_removes_every_match (templateId : string) (s s1 : Stores)
  (templates : list JsVal) :
  loadQueryTemplates s = (Ok (JArr templates), s1) ->
  Forall (fun t => nullish t = false) templates ->
  let kept := filter (fun t => negb (is_text (prop t "id") templateId)) templates in
  deleteQueryTemplate templateId s = saveQueryTemplates (JArr kept) s1 /\
  Forall (fun t => prop t "id" <> JStr templateId) kept /\
  (forall t, In t templates -> prop t "id" <> JStr templateId -> In t kept).
Proof.
  intros Hload Hall kept.
  unfold deleteQueryTemplate, bindS at 1. rewrite Hload. cbn [elements].
  assert (Hf : Forall (fun t => (id <- Ok t $. "id" ;;
                                 Ok (negb (is_text id templateId)))
                                = Ok (negb (is_text (prop t "id") templateId)))
                 templates).
  { apply Forall_forall. intros t Ht. rewrite Forall_forall in Hall.
    rewrite (getr_Ok t) by now apply Hall. reflexivity. }
  unfold bindS, liftS. rewrite (filterM_filter _ _ _ Hf). fold kept.
  split; [reflexivity|]. split.
  - apply Forall_forall. intros t Ht. apply filter_In in Ht. destruct Ht as [_ Ht].
    intros Heq. rewrite Heq in Ht. cbn [is_text] in Ht.
    now rewrite String.eqb_refl in Ht.
  - intros t Hin Hne. apply filter_In. split; [exact Hin|].
    destruct (prop t "id") as [| | | |x| |]; try reflexivity. cbn [is_text].
    destruct (x =? templateId) eqn:E; [|reflexivity].
    apply String.eqb_eq in E. subst x. contradiction.
Qed.

Lemma mapM_Forall_out (f : JsVal -> result JsVal) (good : JsVal -> Prop) :
  (forall x y, f x = Ok y -> good y) ->
  forall l ys, mapM f l = Ok ys -> Forall good ys.
Proof.
  intros Hf. induction l as [|x tl IH]; intros ys H; cbn [mapM] in H.
  - inversion H. constructor.
  - destruct (f x) as [y|e] eqn:Hx; cbn [bind] in H; [|discriminate].
    destruct (mapM f tl) as [ys'|e] eqn:Htl; cbn [bind] in H; [|discriminate].
    inversion H. constructor; [now apply (Hf x)|now apply IH].
Qed.

Lemma In_firstn_list {A : Type} (n : nat) (l : list A) (x : A) :
  In x (firstn n l) -> In x l.
Proof.
  revert l. induction n as [|n IH]; intros [|y tl] H; cbn [firstn] in H; try contradiction.
  destruct H as [H|H]; [now left|right; now apply IH].
Qed.

Lemma loadQueryHistory_spec (s : Stores) :
  exists history s1,
    loadQueryHistory s = (Ok (JArr history), s1) /\
    Forall (fun item => exists props, item = JObj props) history /\
    localStorage s1 = localStorage s /\ sessionStorage s1 = sessionStorage s /\
    clockReadings s1 = clockReadings s.
Proof.
  unfold loadQueryHistory, bindS at 1, localStorage_getItem.
  destruct (nothingStored (getItem (localStorage s) QUERY_HISTORY)).
  - exists [], s. unfold retS. repeat split; auto.
  - unfold try_catchS, bindS at 1, liftS.
    destruct (JSON_parse (textOf (getItem (localStorage s) QUERY_HISTORY))) as [v|e].
    + destruct v as [| | | | |items|]; cbn [is_array];
        try (exists [], s; unfold retS; repeat split; auto; fail).
      cbn [js_map].
      match goal with |- context [mapM ?f items] =>
        destruct (mapM f items) as [ys|e] eqn:Hm; cbn [bind];
        [pose proof (mapM_Forall_out f (fun item => exists props, item = JObj props)) as Hout|]
      end.
      * exists ys, s. repeat split; auto. apply (Hout) with (l := items); [|exact Hm].
        intros x y Hy. destruct (Ok x $. "executedAt"); cbn [bind] in Hy; [|discriminate].
        inversion Hy. eexists. reflexivity.
      * unfold bindS, console_log, retS. eexists [], _. repeat split; auto.
    + unfold bindS, console_log, retS. eexists [], _. repeat split; auto.
Qed.

Lemma addToQueryHistory_spec (jql : string) (resultCount : JsVal)
  (s : Stores) :
  exists history s1,
    loadQueryHistory s = (Ok (JArr history), s1) /\
    let entry := JObj [("jql", JStr jql); ("resultCount", resultCount);
                       ("executedAt", Date_object (clock (clockReadings s)))] in
    let others := filter (fun item => negb (is_text (prop item "jql") jql)) history in
    let trimmed := entry :: firstn 49 others in
    let after := addToQueryHistory jql resultCount s in
    (List.length trimmed <= 50)%nat /\
    Forall (fun item => prop item "jql" <> JStr jql) (firstn 49 others) /\
    fst after = Ok tt /\
    (storage_accepts (localStorage s) QUERY_HISTORY (JSON_stringify (JArr trimmed)) = true ->
     getItem (localStorage (snd after)) QUERY_HISTORY
     = Some (JSON_stringify (JArr trimmed))) /\
    (storage_accepts (localStorage s) QUERY_HISTORY (JSON_stringify (JArr trimmed)) = false ->
     localStorage (snd after) = localStorage s).
Proof.
  destruct (loadQueryHistory_spec s) as (history & s1 & Hload & Hobj & Hl & Hs & Hc).
  exists history, s1. split; [exact Hload|]. intros entry others trimmed after.
  assert (Hlen : (List.length trimmed <= 50)%nat).
  { unfold trimmed. cbn [List.length]. pose proof (firstn_le_length 49 others).
    rewrite length_firstn. lia. }
  assert (Hothers : Forall (fun item => prop item "jql" <> JStr jql) (firstn 49 others)).
  { apply Forall_forall. intros item Hin. apply In_firstn_list in Hin.
    apply filter_In in Hin. destruct Hin as [_ Hin]. intros Heq. rewrite Heq in Hin.
    cbn [is_text] in Hin. now rewrite String.eqb_refl in Hin. }
  assert (Hf : Forall (fun item => (j <- Ok item $. "jql" ;;
                                    Ok (negb (is_text j jql)))
                                   = Ok (negb (is_text (prop item "jql") jql))) history).
  { apply Forall_forall. intros item Hin. rewrite Forall_forall in Hobj.
    destruct (Hobj item Hin) as [props ->]. reflexivity. }
  assert (Hrun : after
                 = try_catchS
                     (localStorage_setItem QUERY_HISTORY (JSON_stringify (JArr trimmed)))
                     (fun error => console_log "Failed to save query history:")
                     {| localStorage := localStorage s1; sessionStorage := sessionStorage s1;
                        clockReadings := S (clockReadings s1); console := console s1 |}).
  { unfold after, addToQueryHistory, bindS at 1. rewrite Hload. cbn [elements].
    unfold bindS at 1, liftS. rewrite (filterM_filter _ _ _ Hf). fold others.
    unfold bindS at 1, new_Date. rewrite Hc. reflexivity. }
  split; [exact Hlen|]. split; [exact Hothers|].
  rewrite Hrun. unfold try_catchS, localStorage_setItem. cbn [localStorage].
  rewrite Hl.
  destruct (storage_accepts (localStorage s) QUERY_HISTORY (JSON_stringify (JArr trimmed))).
  - cbn [fst snd localStorage]. split; [reflexivity|]. split.
    + intros _. apply getItem_putItem.
    + discriminate.
  - unfold console_log. cbn [fst snd localStorage]. split; [reflexivity|]. split.
    + discriminate.
    + intros _. reflexivity.
Qed.

(** [addToQueryHistory] never throws. What it writes is the new entry
    first, then the entries it loaded for other queries, in their order,
    cut to fifty entries in all; when the storage refuses the text the
    stored history stays as it was. *)
Theorem addToQueryHistory_newest_first_at_most_fifty (jql : string) (resultCount : JsVal)
  (s : Stores) :
  exists history s1,
    loadQueryHistory s = (Ok (JArr history), s1) /\
    let entry := JObj [("jql", JStr jql); ("resultCount", resultCount);
                       ("executedAt", Date_object (clock (clockReadings s)))] in
    let others := filter (fun item => negb (is_text (prop item "jql") jql)) history in
    let trimmed := entry :: firstn 49 others in
    let after := addToQueryHistory jql resultCount s in
    (List.length trimmed <= 50)%nat /\
    Forall (fun item => prop item "jql" <> JStr jql) (firstn 49 others) /\
    fst after = Ok tt /\
    (storage_accepts (localStorage s) QUERY_HISTORY (JSON_stringify (JArr trimmed)) = true ->
     getItem (localStorage (snd after)) QUERY_HISTORY
     = Some (JSON_stringify (JArr trimmed))) /\
    (storage_accepts (localStorage s) QUERY_HISTORY (JSON_stringify (JArr trimmed)) = false ->
     localStorage (snd after) = localStorage s).
Proof. apply addToQueryHistory_spec. Qed.

Lemma export_saved (issues : list JsVal) (cfg : ExportConfig) (w : World) :
  match export issues cfg true w with
  | (Ok _, w') => exists file, saved w' = (saved w ++ [file])%list /\
                               mimeType file = mimeOf (format cfg) /\
                               filename file
                               = "jira-export-" ++ before_T (toISOString (clock (pred (ticks w'))))
                                 ++ "." ++ format cfg
  | (Throw e, w') => saved w' = saved w
  end.
Proof.
  unfold export. unfold bindM at 1, Date_now at 1.
  unfold bindM at 1, emit at 1. unfold try_catch, dispatch, mimeOf.
  destruct (format cfg =? "xml") eqn:Ex.
  { apply String.eqb_eq in Ex. rewrite Ex.
    rewrite exportXml_spec, exportToXml_spec. cbv zeta. cbn [ticks events saved].
    destruct (mapM _ issues) as [items|e]; [|reflexivity].
    destruct (XMLBuilder_build _) as [text|e]; [|reflexivity].
    eexists. cbn [saved mkWorld ticks pred]. split; [reflexivity|]. split; reflexivity. }
  destruct (format cfg =? "json") eqn:Ej.
  { apply String.eqb_eq in Ej. rewrite Ej.
    rewrite exportJson_spec. cbv zeta. cbn [ticks events saved].
    destruct (mapM _ issues) as [rs|e]; [|reflexivity].
    destruct (JSON_stringify_indented _) as [text|e]; [|reflexivity].
    eexists. cbn [saved mkWorld ticks pred]. split; [reflexivity|]. split; reflexivity. }
  destruct (format cfg =? "csv") eqn:Ec.
  { apply String.eqb_eq in Ec. rewrite Ec.
    rewrite exportCsv_spec. cbv zeta. cbn [ticks events saved].
    destruct (mapM _ issues) as [rows|e]; [|reflexivity].
    eexists. cbn [saved mkWorld ticks pred]. split; [reflexivity|]. split; reflexivity. }
  reflexivity.
Qed.

Lemma onProgressSet_config (evs : list ProgressInfo) (st : ExportStore) :
  config (fold_left onProgressSet evs st) = config st.
Proof. revert st. induction evs as [|p tl IH]; intros st; cbn; [reflexivity|now rewrite IH]. Qed.

(** The store's [exportData] always ends with the store not exporting and
    its configuration as it was. Without results it calls no exporter: it
    saves nothing and sets the error asking for a query first. With results,
    either one file of the configured format has been saved, the store has
    no error, a progress of 100 and no progress information, or nothing has
    been saved and the store's error and its progress information, at
    stage error, carry one and the same message. *)
Theorem exportStore_ends_with_a_file_or_an_error (results : list JsVal)
  (st : ExportStore) (w : World) :
  let after := exportStore_exportData results st w in
  config (fst after) = config st /\
  isExporting (state (fst after)) = false /\
  (results = [] ->
   snd after = w /\
   error (state (fst after)) = Some "No data to export. Please execute a query first.") /\
  (results <> [] ->
   (error (state (fst after)) = None /\
    progress (state (fst after)) = 100%Z /\
    progressInfo (fst after) = None /\
    processedItems (state (fst after)) = Some (List.length results) /\
    exists file,
      saved (snd after) = (saved w ++ [file])%list /\
      mimeType file = mimeOf (format (config st))) \/
   (exists text p,
      error (state (fst after)) = Some text /\
      progress (state (fst after)) = 0%Z /\
      progressInfo (fst after) = Some p /\ stage p = Error /\ message p = Some text /\
      saved (snd after) = saved w)).
Proof.
  intros after. unfold after, exportStore_exportData.
  destruct results as [|issue rest].
  - cbn [List.length Nat.eqb fst snd config state isExporting error].
    repeat split; auto. intros H. now contradiction H.
  - cbn [List.length Nat.eqb]. cbv zeta.
    pose proof (export_saved (issue :: rest) (config st)
                  {| ticks := S (ticks w); events := []; saved := saved w |}) as Hs.
    cbn [List.length] in Hs.
    destruct (export (issue :: rest) (config st) true _) as [[u|e] w2].
    + destruct Hs as (file & Hsaved & Hmime & _).
      cbn [fst snd config state isExporting error progress progressInfo processedItems saved].
      rewrite onProgressSet_config. cbn [config].
      split; [reflexivity|]. split; [reflexivity|]. split; [discriminate|].
      intros _. left. repeat split; auto. exists file. split; assumption.
    + cbn [fst snd config state isExporting error progress progressInfo processedItems saved].
      rewrite onProgressSet_config. cbn [config].
      split; [reflexivity|]. split; [reflexivity|]. split; [discriminate|].
      intros _. right. eexists _, _. repeat split; auto.
Qed.



(** ** The connection store *)

Lemma send_failure (server : Server) (c : JiraClient) (method path : string)
  (ps : Props) (body : JsVal) (n : Net) (error : JsVal) :
  server (List.length (sent n))
    {| method := method; url := baseURL c ++ path; requestHeaders := headers c;
       params := ps; body := body |} = Failure error ->
  nullish error = false ->
  exists m e,
    getErrorMessage error = Ok m /\
    prop e "message" = m /\ nullish e = false /\
    send server c method path ps body n
    = (Throw (Thrown e),
       {| sent := (sent n ++ [{| method := method; url := baseURL c ++ path;
                                 requestHeaders := headers c; params := ps;
                                 body := body |}])%list;
          readings := S (readings n); received := received n |}).
Proof.
  intros E Hn. unfold send. rewrite E.
  destruct (getErrorMessage_spec error Hn) as (m & Hm & _).
  unfold apiError, mkObj. cbn [mkProps]. rewrite Hm.
  rewrite !(getr_Ok error) by exact Hn. rewrite !optChain_getp, js_or_Ok, cond_Ok.
  cbn [bind].
  destruct (truthy (optprop (prop error "response") "data")) eqn:Td.
  - assert (Hr : nullish (prop error "response") = false).
    { unfold optprop in Td.
      destruct (nullish (prop error "response")); [discriminate Td|reflexivity]. }
    rewrite getr_Ok by exact Hr. cbn [bind].
    eexists m, _. split; [reflexivity|]. split; [|split; [|reflexivity]]; reflexivity.
  - cbn [bind].
    eexists m, _. split; [reflexivity|]. split; [|split; [|reflexivity]]; reflexivity.
Qed.

Lemma getp_Ok (v : JsVal) (k : string) : nullish v = false -> getp v k = Ok (prop v k).
Proof. intros H. unfold getp. now rewrite H. Qed.

Lemma loadSettings_returns (s : Stores) :
  exists settings s',
    loadSettings s = (Ok (JObj settings), s') /\
    localStorage s' = localStorage s /\ sessionStorage s' = sessionStorage s /\
    clockReadings s' = clockReadings s.
Proof.
  unfold loadSettings, bindS at 1, localStorage_getItem.
  destruct (nothingStored _).
  - exists getDefaultSettings, s. unfold retS. repeat split; auto.
  - unfold try_catchS, bindS at 1, liftS.
    destruct (JSON_parse _) as [v|e].
    + exists (spread getDefaultSettings v), s. unfold retS. repeat split; auto.
    + unfold bindS, console_log, retS. eexists _, _. split; [reflexivity|].
      cbn [localStorage sessionStorage clockReadings]. repeat split; auto.
Qed.

Lemma loadSettings_local (s s' : Stores) :
  localStorage s = localStorage s' -> fst (loadSettings s) = fst (loadSettings s').
Proof.
  intros H. unfold loadSettings, bindS, localStorage_getItem. rewrite H.
  destruct (nothingStored _); [reflexivity|].
  unfold try_catchS, liftS, retS, console_log.
  destruct (JSON_parse _); reflexivity.
Qed.

(** [testConnection] of the store, with a server URL and a token, sends one
    GET to [/myself] and never leaves the store loading; it returns what
    [isConnected] then says, and the store has a client exactly when it is
    connected. When the request fails the store's error is the message
    [getErrorMessage] makes of the failure. When the request goes through,
    the connection is saved to the session storage, with the token only if
    the settings say that credentials are remembered; and when the storage
    refuses the item the test ends as a failure, not connected and with the
    storage's message, although the server has answered. *)
Theorem connectionStore_testConnection_outcome (server : Server) (a : Session) :
  storeServerUrl (connection a) <> "" ->
  storeToken (connection a) <> "" ->
  (forall error request,
     server (List.length (sent (net a))) request = Failure error ->
     nullish error = false) ->
  (forall response request,
     server (List.length (sent (net a))) request = Response response ->
     nullish response = false) ->
  nullish (caught QuotaExceededError) = false ->
  let u := storeServerUrl (connection a) in
  let t := storeToken (connection a) in
  let c := newJiraClient u t in
  let request := {| method := "GET"; url := baseURL c ++ "/myself";
                    requestHeaders := headers c; params := []; body := JUndefined |} in
  exists (b : bool) (a' : Session) (settings : Props),
    connectionStore_testConnection server a = (Ok b, a') /\
    sent (net a') = (sent (net a) ++ [request])%list /\
    isLoading (connection a') = false /\
    isConnected (connection a') = b /\
    client (connection a') = (if b then Some c else None) /\
    localStorage (stores a') = localStorage (stores a) /\
    match server (List.length (sent (net a))) request with
    | Failure error =>
        b = false /\ getErrorMessage error = Ok (storeError (connection a')) /\
        sessionStorage (stores a') = sessionStorage (stores a)
    | Response response =>
        fst (loadSettings (stores a)) = Ok (JObj settings) /\
        let remember := truthy (prop (JObj settings) "rememberCredentials") in
        let text :=
          JSON_stringify
            (JObj [("serverUrl", JStr u);
                   ("email", if remember then JUndefined else JStr "");
                   ("token", if remember then JStr t else JStr "");
                   ("isConnected", JBool false)]) in
        if storage_accepts (sessionStorage (stores a)) CONNECTION text
        then b = true /\ userInfo (connection a') = prop response "data" /\
             getItem (sessionStorage (stores a')) CONNECTION = Some text
        else b = false /\
             storeError (connection a') = prop (caught QuotaExceededError) "message" /\
             sessionStorage (stores a') = sessionStorage (stores a)
    end.
Proof.
  intros Hu Ht Hfail Hresp Hq u t c request.
  unfold connectionStore_testConnection, bindS at 1, getState.
  fold u t.
  assert (Eu : (u =? "") = false) by now apply String.eqb_neq.
  assert (Et : (t =? "") = false) by now apply String.eqb_neq.
  rewrite Eu, Et. cbn [orb].
  unfold bindS at 1, setState. cbn [connection net stores].
  unfold try_catchS. cbv zeta. fold c.
  unfold bindS at 1, onNet, testConnection. cbn [connection net stores].
  unfold bindS at 1.
  destruct (server (List.length (sent (net a))) request) as [response|error] eqn:E.
  - pose proof (Hresp _ _ E) as Hr.
    unfold send. cbv zeta. fold request. rewrite E.
    unfold liftS at 1. rewrite (getp_Ok response) by exact Hr.
    unfold bindS at 1. unfold bindS at 1, onStores at 1. cbn [connection net stores].
    match goal with |- context [loadSettings ?s] =>
      destruct (loadSettings_returns s) as (settings & s1 & Hload & Hl1 & Hs1 & Hc1)
    end.
    rewrite Hload.
    cbn [localStorage sessionStorage clockReadings console readings sent received] in Hl1, Hs1, Hc1.
    unfold bindS at 1, liftS at 1. cbn [getp nullish prop].
    unfold bindS at 1, onStores at 1. cbn [connection net stores].
    set (remember := truthy _).
    match goal with |- context [saveConnection ?cfg remember s1] =>
      assert (Hsave : saveConnection cfg remember s1
                      = sessionStorage_setItem CONNECTION
                          (JSON_stringify
                             (JObj [("serverUrl", JStr u);
                                    ("email", if remember then JUndefined else JStr "");
                                    ("token", if remember then JStr t else JStr "");
                                    ("isConnected", JBool false)])) s1)
        by (destruct remember; reflexivity);
      rewrite Hsave
    end.
    unfold sessionStorage_setItem. rewrite Hs1.
    assert (Hsettings : fst (loadSettings (stores a)) = Ok (JObj settings)).
    { erewrite loadSettings_local; [rewrite Hload; reflexivity|reflexivity]. }
    set (text := JSON_stringify _).
    destruct (storage_accepts (sessionStorage (stores a)) CONNECTION text) eqn:Hacc.
    + exists true. eexists. exists settings. unfold retS.
      split; [reflexivity|].
      cbn [connection net stores sent isLoading isConnected client localStorage
           sessionStorage userInfo].
      repeat split; auto. fold remember. fold text. rewrite Hacc.
      repeat split; auto. apply getItem_putItem.
    + unfold bindS, liftS, retS. rewrite (getp_Ok _ "message" Hq).
      exists false. eexists. exists settings.
      split; [reflexivity|].
      cbn [connection net stores sent isLoading isConnected client localStorage
           sessionStorage userInfo storeError].
      repeat split; auto. fold remember. fold text. rewrite Hacc.
      repeat split; auto.
  - pose proof (Hfail _ _ E) as Hn.
    destruct (send_failure server c "GET" "/myself" [] JUndefined (net a) error E Hn)
      as (m & e & Hm & Hmessage & Hne & Hsend).
    rewrite Hsend. unfold bindS, liftS, retS. cbn [caught]. rewrite (getp_Ok e) by exact Hne.
    exists false. eexists. exists [].
    split; [reflexivity|].
    cbn [connection net stores sent isLoading isConnected client localStorage
         sessionStorage userInfo storeError].
    repeat split; auto. rewrite Hmessage. exact Hm.
Qed.

(** [disconnect] leaves the store not connected, without a client and
    without an error, and removes the connection from the session storage,
    so that [loadConnection] returns the empty object afterwards; the
    server URL and the token stay in the store, and the local storage is
    left alone. *)
Theorem connectionStore_disconnect_forgets_the_session (a : Session) :
  exists a',
    connectionStore_disconnect a = (Ok tt, a') /\
    isConnected (connection a') = false /\
    client (connection a') = None /\
    storeError (connection a') = JUndefined /\
    storeServerUrl (connection a') = storeServerUrl (connection a) /\
    storeToken (connection a') = storeToken (connection a) /\
    getItem (sessionStorage (stores a')) CONNECTION = None /\
    fst (loadConnection (stores a')) = Ok (JObj []) /\
    localStorage (stores a') = localStorage (stores a) /\
    sent (net a') = sent (net a).
Proof.
  unfold connectionStore_disconnect, bindS, setState, onStores, clearConnection,
    sessionStorage_removeItem.
  cbn [connection net stores]. eexists. split; [reflexivity|].
  cbn [connection net stores sent isLoading isConnected client localStorage
       sessionStorage userInfo storeError storeServerUrl storeToken].
  assert (Hgone : getItem (dropItem (sessionStorage (stores a)) CONNECTION) CONNECTION
                  = None) by apply getItem_dropItem.
  repeat split; auto.
  unfold loadConnection, bindS, sessionStorage_getItem. cbn [sessionStorage].
  rewrite Hgone. reflexivity.
Qed.

(** ** The query store *)

Lemma loadQueryHistory_local (s s' : Stores) :
  localStorage s = localStorage s' ->
  fst (loadQueryHistory s) = fst (loadQueryHistory s').
Proof.
  intros H. unfold loadQueryHistory, bindS, localStorage_getItem. rewrite H.
  destruct (nothingStored _); [reflexivity|].
  unfold try_catchS, liftS, retS, console_log.
  destruct (JSON_parse _) as [v|e]; [|reflexivity].
  destruct (is_array v); [|reflexivity].
  destruct (js_map v _ _); reflexivity.
Qed.

Lemma search_request (server : Server) (c : JiraClient) (jql : string)
  (first size : JsVal) (n : Net) :
  let request := {| method := "GET"; url := baseURL c ++ "/search";
                    requestHeaders := headers c;
                    params := [("jql", JStr jql);
                               ("startAt", orDefault first (of_Z 0));
                               ("maxResults", orDefault size (of_Z 50));
                               ("fields", JStr "*all"); ("expand", JStr "changelog")];
                    body := JUndefined |} in
  search server c jql first size (Some ["*all"]) (Some ["changelog"]) n
  = (response <== send server c "GET" "/search" (params request) JUndefined ;;
     liftS (getp response "data")) n.
Proof. reflexivity. Qed.

Lemma addToQueryHistory_run (jql : string) (resultCount : JsVal) (s : Stores) :
  exists history s1,
    loadQueryHistory s = (Ok (JArr history), s1) /\
    localStorage s1 = localStorage s /\ sessionStorage s1 = sessionStorage s /\
    addToQueryHistory jql resultCount s
    = try_catchS
        (localStorage_setItem QUERY_HISTORY
           (JSON_stringify
              (JArr (JObj [("jql", JStr jql); ("resultCount", resultCount);
                           ("executedAt", Date_object (clock (clockReadings s)))]
                     :: firstn 49
                          (filter (fun item => negb (is_text (prop item "jql") jql))
                             history)))))
        (fun error => console_log "Failed to save query history:")
        {| localStorage := localStorage s1; sessionStorage := sessionStorage s1;
           clockReadings := S (clockReadings s1); console := console s1 |}.
Proof.
  destruct (loadQueryHistory_spec s) as (history & s1 & Hload & Hobj & Hl & Hs & Hc).
  exists history, s1. split; [exact Hload|]. split; [exact Hl|]. split; [exact Hs|].
  assert (Hf : Forall (fun item => (j <- Ok item $. "jql" ;;
                                    Ok (negb (is_text j jql)))
                                   = Ok (negb (is_text (prop item "jql") jql))) history).
  { apply Forall_forall. intros item Hin. rewrite Forall_forall in Hobj.
    destruct (Hobj item Hin) as [props ->]. reflexivity. }
  unfold addToQueryHistory, bindS at 1. rewrite Hload. cbn [elements].
  unfold bindS at 1, liftS. rewrite (filterM_filter _ _ _ Hf).
  unfold bindS at 1, new_Date. rewrite Hc. reflexivity.
Qed.

Lemma caught_message (text : string) :
  getp (caught (ErrorObj text)) "message" = Ok (JStr text).
Proof. reflexivity. Qed.


Ltac page_thrown :=
  unfold bindS, liftS; rewrite ?caught_message;
  eexists; (split; [reflexivity|]);
  cbn [connection query net stores sent queryLoading jql results totalCount
       queryError localStorage sessionStorage startAt];
  repeat (split; [reflexivity|]);
  intros ? ? Hl Hm; try discriminate Hl; try discriminate Hm.

(** [loadMoreResults] never throws. It does nothing without a client, while
    the store is loading, and once the offset has reached the count.
    Otherwise it sends one [/search] request from the store's offset and
    ends not loading, with the count as it was: when the request fails
    the results and the offset stay and the store has the failure's
    message; when a page of issues comes back it is appended to the
    results and the offset advances by its length, so that an offset that
    was the number of results still is. *)
Theorem queryStore_loadMoreResults_outcome (server : Server) (a : Session) :
  (forall error request,
     server (List.length (sent (net a))) request = Failure error ->
     nullish error = false) ->
  exists a',
    queryStore_loadMoreResults server a = (Ok tt, a') /\
    match client (connection a) with
    | None => a' = a
    | Some c =>
        if queryLoading (query a) || js_ge (startAt (query a)) (totalCount (query a))
        then a' = a
        else
          let request :=
            {| method := "GET"; url := baseURL c ++ "/search";
               requestHeaders := headers c;
               params := [("jql", JStr (jql (query a)));
                          ("startAt", orDefault (startAt (query a)) (of_Z 0));
                          ("maxResults", orDefault (maxResults (query a)) (of_Z 50));
                          ("fields", JStr "*all"); ("expand", JStr "changelog")];
               body := JUndefined |} in
          sent (net a') = (sent (net a) ++ [request])%list /\
          queryLoading (query a') = false /\
          totalCount (query a') = totalCount (query a) /\
          jql (query a') = jql (query a) /\
          localStorage (stores a') = localStorage (stores a) /\
          sessionStorage (stores a') = sessionStorage (stores a) /\
          match server (List.length (sent (net a))) request with
          | Failure error =>
              results (query a') = results (query a) /\
              startAt (query a') = startAt (query a) /\
              getErrorMessage error = Ok (queryError (query a'))
          | Response response =>
              forall loaded more,
                results (query a) = JArr loaded ->
                prop (prop response "data") "issues" = JArr more ->
                results (query a') = JArr (loaded ++ more) /\
                startAt (query a')
                = js_add (startAt (query a)) (of_nat (List.length more)) /\
                queryError (query a') = queryError (query a) /\
                (startAt (query a) = of_nat (List.length loaded) ->
                 startAt (query a') = of_nat (List.length (loaded ++ more)))
          end
    end.
Proof.
  intros Hfail.
  unfold queryStore_loadMoreResults, bindS at 1, getQuery.
  unfold bindS at 1, getState.
  destruct (client (connection a)) as [c|]; [|exists a; split; reflexivity].
  destruct (queryLoading (query a) || js_ge (startAt (query a)) (totalCount (query a)));
    [exists a; split; reflexivity|].
  cbv zeta.
  set (request := {| method := "GET"; url := baseURL c ++ "/search";
                     requestHeaders := headers c; params := _; body := JUndefined |}).
  unfold bindS at 1, setQuery. cbn [connection query net stores].
  unfold try_catchS. unfold bindS at 1, onNet. cbn [connection query net stores].
  rewrite search_request. cbn [params].
  unfold bindS at 1.
  destruct (server (List.length (sent (net a))) request) as [response|error] eqn:E.
  - unfold send. cbv zeta.
    change {| method := "GET"; url := baseURL c ++ "/search"; requestHeaders := headers c;
              params := _; body := JUndefined |} with request.
    rewrite E. unfold liftS at 1.
    destruct (nullish response) eqn:Hr.
    { unfold getp at 1. rewrite Hr. unfold type_error_read. page_thrown.
      destruct response; discriminate. }
    rewrite (getp_Ok response) by exact Hr.
    set (data := prop response "data").
    unfold bindS at 1, liftS at 1.
    destruct (results (query a)) as [| | | |text|loaded|] eqn:Hres; cbn [iterate];
      try (page_thrown; fail).
    + (* the results are a string *)
      unfold bindS at 1, liftS at 1.
      destruct (nullish data) eqn:Hdata.
      { unfold getp at 1. rewrite Hdata. unfold type_error_read. page_thrown. }
      rewrite (getp_Ok data) by exact Hdata. rewrite (getr_Ok data) by exact Hdata.
      unfold bindS at 1, liftS at 1.
      destruct (prop data "issues") as [| | | |text'|more|] eqn:Hissues; cbn [iterate];
        page_thrown.
    + (* the results are an array *)
      unfold bindS at 1, liftS at 1.
      destruct (nullish data) eqn:Hdata.
      { unfold getp at 1. rewrite Hdata. unfold type_error_read. page_thrown.
        unfold data in Hdata. destruct (prop response "data"); discriminate. }
      rewrite (getp_Ok data) by exact Hdata. rewrite (getr_Ok data) by exact Hdata.
      unfold bindS at 1, liftS at 1.
      destruct (prop data "issues") as [| | | |text'|more|] eqn:Hissues; cbn [iterate];
        try (page_thrown; fail).
      unfold bindS, liftS. rewrite getr_Ok by reflexivity.
      eexists. split; [reflexivity|].
      cbn [connection query net stores sent queryLoading jql results totalCount
           queryError localStorage sessionStorage startAt].
      repeat (split; [reflexivity|]). intros loaded' more' Hl Hm.
      inversion Hl; subst loaded'. inversion Hm; subst more'.
      change (prop (JArr more) "length") with (of_nat (List.length more)).
      repeat (split; [reflexivity|]).
      intros Hstart. rewrite Hstart, js_add_of_nat, length_app. reflexivity.
  - pose proof (Hfail _ _ E) as Hn.
    destruct (send_failure server c "GET" "/search" _ JUndefined (net a) error E Hn)
      as (m & e & Hm & Hmessage & Hne & Hsend).
    rewrite Hsend. unfold bindS, liftS. cbn [caught]. rewrite (getp_Ok e) by exact Hne.
    eexists. split; [reflexivity|].
    cbn [connection query net stores sent queryLoading jql results totalCount
         queryError localStorage sessionStorage startAt].
    repeat (split; [reflexivity|]). rewrite Hmessage. exact Hm.
Qed.

End HostProperties.

End Exporters.

(** ** The model at work: concrete runs *)

#[local] Existing Instance Demo.demo.

(** The issues of the runs below are well-formed, but for the one without
    [fields]. *)
Lemma demo_issues_well_formed :
  forallb wellFormed
    [Demo.bare; Runs.withParent; Runs.withCustom; Runs.withParentAndCustom] = true /\
  wellFormed (JObj []) = false.
Proof. split; reflexivity. Qed.



Lemma export_failure_witness :
  fst (dispatch Runs.thirteen (Demo.config "json") true
         (entered Runs.thirteen (Demo.config "json")))
  = Throw Runs.noFields /\
  fst (run (export Runs.thirteen (Demo.config "json") true)) = Throw Runs.noFields /\
  map (fun ev => (stage ev, message ev))
    (events (snd (run (export Runs.thirteen (Demo.config "json") true))))
  = [(Processing, Some "Starting JSON export...");
     (Processing, Some "Processing issue 10 of 13");
     (Error, Some "Cannot read properties of undefined (reading 'summary')")] /\
  saved (snd (run (export Runs.thirteen (Demo.config "json") true))) = [].
Proof.
  assert (H : fst (dispatch Runs.thirteen (Demo.config "json") true
                     (entered Runs.thirteen (Demo.config "json")))
              = Throw Runs.noFields) by (vm_compute; reflexivity).
  split; [exact H|].
  destruct (export_failure_reported_once Runs.thirteen (Demo.config "json")
              Runs.noFields H) as (H1 & _ & H3).
  split; [exact H1|]. split; [vm_compute; reflexivity|exact H3].
Defined.

Lemma error_event_witness :
  fst (run (export Runs.thirteen (Demo.config "json") true)) = Throw Runs.noFields /\
  (exists pre ev,
     pre <> [] /\
     events (snd (run (export Runs.thirteen (Demo.config "json") true)))
     = (pre ++ [ev])%list /\
     stage ev = Error /\ current ev = 0%nat /\ percentage ev = 0%Z) /\
  map (fun ev => (current ev, percentage ev, stage ev))
    (events (snd (run (export Runs.thirteen (Demo.config "json") true))))
  = [(0%nat, 0%Z, Processing); (10%nat, 77%Z, Processing); (0%nat, 0%Z, Error)].
Proof.
  assert (H : fst (run (export Runs.thirteen (Demo.config "json") true))
              = Throw Runs.noFields) by (vm_compute; reflexivity).
  split; [exact H|]. split.
  - exact (error_event_resets_counts Runs.thirteen (Demo.config "json")
             Runs.noFields H).
  - vm_compute. reflexivity.
Defined.



Lemma empty_csv_export_witness :
  format (Demo.config "csv") = "csv" /\
  fst (run (export [] (Demo.config "csv") true)) = Ok tt /\
  saved (snd (run (export [] (Demo.config "csv") true)))
  = [{| content := ""; mimeType := "text/csv;charset=utf-8";
        filename := "jira-export-2023-11-14.csv" |}].
Proof.
  split; [reflexivity|].
  destruct (empty_csv_export_saves_empty_document (Demo.config "csv") eq_refl)
    as (H & _).
  rewrite H. split; reflexivity.
Defined.

(** C6 refuted as stated: the document saved for an empty issue list is
    the empty string, so it has no header row; and the fixed columns of a
    row are nineteen, not eighteen. *)
Lemma empty_csv_export_has_no_header :
  map content (saved (snd (run (export [] (Demo.config "csv") true)))) = [""] /\
  Papa_unparse [] = "" /\
  List.length csvCoreColumns <> 18%nat.
Proof. repeat split. discriminate. Qed.

(** C7 refuted as stated: an issue without priority, assignee and reporter
    has the empty string in those columns of its CSV row. *)
Lemma csv_row_renders_absence_as_empty_string :
  field Demo.bare "priority" = JUndefined /\
  field Demo.bare "assignee" = JUndefined /\
  field Demo.bare "reporter" = JUndefined /\
  exists row,
    processIssueForCsv Demo.bare (Demo.config "csv") = Ok row /\
    lookup "Priority" row = Some (JStr "") /\
    lookup "Assignee" row = Some (JStr "") /\
    lookup "Reporter" row = Some (JStr "").
Proof.
  repeat split. eexists. split; [vm_compute; reflexivity|]. repeat split.
Qed.

Lemma absent_relations_witness :
  (exists r, processIssueForJson Demo.bare (Demo.config "json") = Ok r /\
             lookup "priority" r = Some JNull /\ lookup "resolution" r = None) /\
  (exists x, convertIssueToXml Demo.bare (Demo.config "xml") = Ok x /\
             lookup "priority" x = Some JUndefined /\
             lookup "resolution" x = Some JUndefined) /\
  (exists row, processIssueForCsv Demo.bare (Demo.config "csv") = Ok row /\
               lookup "Priority" row = Some (JStr "") /\
               lookup "Resolution" row = None).
Proof.
  split; [|split].
  - destruct (processIssueForJson Demo.bare (Demo.config "json")) as [r|] eqn:E;
      [|discriminate E].
    exists r. split; [reflexivity|].
    destruct (absent_relations_by_format Demo.bare (Demo.config "json")) as (H & _).
    destruct (H r E) as (Hp & _ & _ & Hr). split; [now apply Hp|exact Hr].
  - destruct (convertIssueToXml Demo.bare (Demo.config "xml")) as [x|] eqn:E;
      [|discriminate E].
    exists x. split; [reflexivity|].
    destruct (absent_relations_by_format Demo.bare (Demo.config "xml")) as (_ & H & _).
    destruct (H x E) as (Hp & Hr & _). split; [now apply Hp|now apply Hr].
  - destruct (processIssueForCsv Demo.bare (Demo.config "csv")) as [row|] eqn:E;
      [|discriminate E].
    exists row. split; [reflexivity|].
    destruct (absent_relations_by_format Demo.bare (Demo.config "csv"))
      as (_ & _ & H & _).
    destruct (H row E) as (Hp & _ & _ & Hr). split; [now apply Hp|exact Hr].
Defined.



(** C3 refuted as stated: a custom field that is in the include list and
    present on the issue is in the XML item only, the JSON record and the
    CSV row have no entry for it; an included key without the
    [customfield_] prefix is not projected at all; and an array element
    whose [value] is 0 is reduced to its [name]. *)
Lemma custom_fields_missing_from_json_and_csv :
  In "customfield_10001" (includeFields (Runs.customConfig "json")) /\
  field Runs.withCustom "customfield_10001" = JArr [JObj [("value", JStr "x")]] /\
  (exists r,
     processIssueForJson Runs.withCustom (Runs.customConfig "json") = Ok r /\
     lookup "customfield_10001" r = None /\ lookup "customfields" r = None) /\
  (exists row,
     processIssueForCsv Runs.withCustom (Runs.customConfig "csv") = Ok row /\
     lookup "customfield_10001" row = None /\ lookup "customfields" row = None) /\
  (exists x,
     convertIssueToXml Runs.withCustom (Runs.customConfig "xml") = Ok x /\
     lookup "customfields" x
     = Some (JObj [("customfield_10001", JArr [JStr "x"])])) /\
  normalizeCustomField (JArr [JObj [("value", of_nat 0); ("name", JStr "n")]])
  = JArr [JStr "n"].
Proof.
  split; [right; left; reflexivity|]. split; [reflexivity|].
  split; [|split; [|split]].
  - eexists. split; [vm_compute; reflexivity|]. split; reflexivity.
  - eexists. split; [vm_compute; reflexivity|]. split; reflexivity.
  - eexists. split; [vm_compute; reflexivity|]. reflexivity.
  - reflexivity.
Qed.

Lemma custom_fields_witness :
  In "customfield_10001" (includeFields (Runs.customConfig "xml")) /\
  String.prefix "customfield_" "customfield_10001" = true /\
  is_undefined (field Runs.withCustom "customfield_10001") = false /\
  is_null (field Runs.withCustom "customfield_10001") = false /\
  exists x customFields,
    convertIssueToXml Runs.withCustom (Runs.customConfig "xml") = Ok x /\
    lookup "customfields" x = Some (JObj customFields) /\
    lookup "customfield_10001" customFields = Some (JArr [JStr "x"]).
Proof.
  assert (Hin : In "customfield_10001" (includeFields (Runs.customConfig "xml")))
    by (right; left; reflexivity).
  split; [exact Hin|]. repeat (split; [reflexivity|]).
  destruct (custom_fields_projected_by_xml_only Runs.withCustom
              (Runs.customConfig "xml")) as (HX & _).
  destruct (convertIssueToXml Runs.withCustom (Runs.customConfig "xml")) as [x|] eqn:E;
    [|discriminate E].
  destruct (HX x "customfield_10001" eq_refl Hin eq_refl eq_refl eq_refl)
    as (customFields & H1 & H2).
  exists x, customFields. split; [reflexivity|]. split; [exact H1|exact H2].
Defined.

(** ** More concrete runs *)

Lemma projectors_reject_witness :
  processIssueForJson JNull (Demo.config "json")
  = Throw (ErrorObj "Cannot read properties of null (reading 'id')") /\
  processIssueForCsv (JObj []) (Demo.config "csv")
  = Throw (ErrorObj "Cannot read properties of undefined (reading 'summary')") /\
  convertIssueToXml (JObj [("fields", JNull)]) (Demo.config "xml")
  = Throw (ErrorObj "Cannot read properties of null (reading 'summary')").
Proof.
  split; [|split].
  - destruct (projectors_reject_issue_without_fields JNull (Demo.config "json"))
      as (H & _).
    destruct (H eq_refl) as (HJ & _). exact HJ.
  - destruct (projectors_reject_issue_without_fields (JObj []) (Demo.config "csv"))
      as (_ & H).
    destruct (H eq_refl eq_refl) as (_ & _ & HC). exact HC.
  - destruct (projectors_reject_issue_without_fields (JObj [("fields", JNull)])
                (Demo.config "xml")) as (_ & H).
    destruct (H eq_refl eq_refl) as (_ & HX & _). exact HX.
Defined.

Lemma csv_flattens_collections_witness :
  exists row,
    processIssueForCsv Samples.logged (Demo.config "csv") = Ok row /\
    lookup "Labels" row = Some (JStr "ui, bug") /\
    lookup "Components" row = Some (JStr "Web, API") /\
    lookup "Versions" row = Some (JStr "").
Proof.
  destruct (processIssueForCsv Samples.logged (Demo.config "csv")) as [row|] eqn:E;
    [|discriminate E].
  exists row. split; [reflexivity|].
  destruct (csv_flattens_collections Samples.logged (Demo.config "csv") row E)
    as ((HL & _) & (HC & _) & _ & (_ & HV)).
  split; [|split].
  - exact (HL _ eq_refl).
  - exact (HC _ eq_refl).
  - exact (HV eq_refl).
Defined.


Lemma json_document_witness :
  exists text,
    map content (saved (snd (run (export [Demo.bare; Runs.withParent]
                                    (Demo.config "json") false)))) = [text] /\
    fst (run (export [Demo.bare; Runs.withParent] (Demo.config "json") false)) = Ok tt.
Proof.
  assert (H : fst (run (export [Demo.bare; Runs.withParent] (Demo.config "json") false))
              = Ok tt) by (vm_compute; reflexivity).
  destruct (json_document_lists_every_issue [Demo.bare; Runs.withParent]
              (Demo.config "json") false eq_refl H) as (rs & text & _ & _ & Hc).
  exists text. split; [exact Hc|exact H].
Defined.

Lemma xml_document_witness :
  exists text,
    map content (saved (snd (run (export [Demo.bare; Runs.withParent]
                                    (Demo.config "xml") true)))) = [text] /\
    fst (run (export [Demo.bare; Runs.withParent] (Demo.config "xml") true)) = Ok tt.
Proof.
  assert (H : fst (run (export [Demo.bare; Runs.withParent] (Demo.config "xml") true))
              = Ok tt) by (vm_compute; reflexivity).
  destruct (xml_document_lists_every_issue [Demo.bare; Runs.withParent]
              (Demo.config "xml") true eq_refl H) as (items & text & _ & _ & Hc & _).
  exists text. split; [exact Hc|exact H].
Defined.

(** The first issue has no parent and the second has one: the document has
    no parent column, and the parent of the second issue is not in it. *)
Lemma csv_columns_witness :
  truthy (field Demo.bare "parent") = false /\
  truthy (field Runs.withParent "parent") = true /\
  fst (run (export [Demo.bare; Runs.withParent] (Demo.config "csv") true)) = Ok tt /\
  ~ In "Parent Key" (csvCoreColumns ++ csvOptionalColumns Demo.bare (Demo.config "csv")) /\
  exists rows,
    map content (saved (snd (run (export [Demo.bare; Runs.withParent]
                                    (Demo.config "csv") true))))
    = [String.concat "," (map (fun f => papa_safe (JStr f)) csvCoreColumns)
       ++ CRLF ++ String.concat CRLF (map (papa_line csvCoreColumns) rows)].
Proof.
  assert (H : fst (run (export [Demo.bare; Runs.withParent] (Demo.config "csv") true))
              = Ok tt) by (vm_compute; reflexivity).
  destruct (csv_columns_come_from_first_issue Demo.bare [Runs.withParent]
              (Demo.config "csv") true eq_refl H) as (rows & _ & Hc & Hp & _).
  split; [reflexivity|]. split; [reflexivity|]. split; [exact H|]. split.
  - intros Hin. apply Hp in Hin. discriminate Hin.
  - exists rows. exact Hc.
Defined.

#[local] Existing Instance DemoBrowser.demo.

Lemma demo_parse_reads_demo_json :
  DemoBrowser.parse (Demo.json (JObj [("a", JArr [of_nat 1; JStr "x"; JNull]);
                                      ("b", JObj [("c", JBool true)])]))
  = Ok (JObj [("a", JArr [of_nat 1; JStr "x"; JNull]); ("b", JObj [("c", JBool true)])]).
Proof. vm_compute. reflexivity. Qed.

(** ** The client at work *)

Lemma getErrorMessage_witness :
  getErrorMessage Replies.badQuery = Ok (JStr "Error in the JQL Query; line 1") /\
  getErrorMessage Replies.fieldErrors = Ok (JStr "").
Proof.
  split.
  - destruct (getErrorMessage_returns_a_message Replies.badQuery eq_refl)
      as (m & Hm & Hjoin & _).
    rewrite Hm. f_equal. exact (Hjoin _ eq_refl eq_refl).
  - destruct (getErrorMessage_returns_a_message Replies.fieldErrors eq_refl)
      as (m & Hm & Hjoin & _).
    rewrite Hm. f_equal. exact (Hjoin _ eq_refl eq_refl).
Defined.

Lemma client_trailing_slash_witness :
  baseURL (newJiraClient "https://jira.example.com/" "t0ken")
  = "https://jira.example.com/rest/api/2" /\
  baseURL (newJiraClient "https://jira.example.com" "t0ken")
  = "https://jira.example.com/rest/api/2".
Proof.
  destruct (client_ignores_one_trailing_slash "https://jira.example.com" "t0ken")
    as (H1 & H2 & _).
  split; [exact H1|].
  apply H2. reflexivity.
Defined.

Lemma validateJql_witness :
  fst (validateJql (fun _ _ => Failure Replies.badQuery)
         (newJiraClient "https://jira.example.com/" "t0ken") "project = " offline)
  = Ok (JObj [("valid", JBool false);
              ("errors", JArr [JStr "Error in the JQL Query; line 1"])]) /\
  map url (sent (snd (validateJql (fun _ _ => Failure Replies.badQuery)
                        (newJiraClient "https://jira.example.com/" "t0ken")
                        "project = " offline)))
  = ["https://jira.example.com/rest/api/2/jql/parse"].
Proof.
  pose (server := (fun _ _ => Failure Replies.badQuery) : Server).
  pose (c := newJiraClient "https://jira.example.com/" "t0ken").
  assert (Hs : forall error request,
             server (List.length (sent offline)) request = Failure error ->
             nullish error = false).
  { intros error request H. inversion H. reflexivity. }
  destruct (validateJql_never_throws server c "project = " offline Hs) as (Hsent & Hv).
  split.
  - cbn in Hv. destruct Hv as (m & Hm & Hv). fold server c. rewrite Hv.
    vm_compute in Hm. inversion Hm. reflexivity.
  - fold server c. rewrite Hsent. reflexivity.
Defined.


Lemma searchAll_batch_size_witness :
  exists n',
    searchAll 7 (fun _ _ => Response (Replies.page 250))
      (newJiraClient "https://jira.example.com" "t0ken") "project = X" 0 None None false
      offline = (Ok Running, n') /\
    map (fun r => lookup "startAt" (params r)) (sent n') = repeat (Some (of_nat 0)) 7.
Proof.
  pose (server := (fun _ _ => Response (Replies.page 250)) : Server).
  pose (c := newJiraClient "https://jira.example.com" "t0ken").
  assert (Hs : forall (k : nat) (request : Request),
             exists response,
               server k request = Response response /\
               nullish response = false /\
               prop (prop response "data") "total" = of_Z 250 /\
               nullish (prop (prop response "data") "issues") = false).
  { intros k request. exists (Replies.page 250). repeat split. }
  destruct (searchAll_needs_a_batch_size server c "project = X" 0 250 None None false 7
              Hs (Z.le_refl 0) eq_refl) as (n' & Hr & Hsent).
  exists n'. split; [exact Hr|]. rewrite Hsent. reflexivity.
Defined.


(** ** The storage at work *)

Lemma saveConnection_witness :
  exists s',
    saveConnection Stored.connection false emptyStores = (Ok tt, s') /\
    getItem (sessionStorage s') CONNECTION
    = Some (Demo.json (JObj [("serverUrl", JStr "https://jira.example.com");
                             ("email", JStr ""); ("token", JStr "");
                             ("isConnected", JBool false)])) /\
    localStorage s' = [].
Proof.
  pose proof (saveConnection_keeps_credentials_out Stored.connection false emptyStores
                eq_refl) as H.
  cbv zeta in H. destruct H as (Haccepted & _ & _).
  apply Haccepted. vm_compute. reflexivity.
Defined.

Lemma saved_connection_witness :
  exists s',
    saveConnection Stored.connection true emptyStores = (Ok tt, s') /\
    loadConnection s'
    = (Ok (JObj [("serverUrl", JStr "https://jira.example.com");
                 ("email", JStr "me@example.com"); ("token", JStr "s3cret");
                 ("isConnected", JBool false); ("isLoading", JBool false)]), s').
Proof.
  pose proof (saved_connection_is_loaded Stored.connection true emptyStores eq_refl) as H.
  cbv zeta in H. apply H.
  - vm_compute. reflexivity.
  - vm_compute. discriminate.
  - vm_compute. reflexivity.
Defined.

Lemma saveQueryTemplate_witness :
  saveQueryTemplate (Stored.template "b" "project = B2")
    (storing QUERY_TEMPLATES (Demo.json Stored.templates))
  = saveQueryTemplates (JArr [Stored.template "a" "project = A";
                              Stored.template "b" "project = B2";
                              Stored.template "c" "project = C"])
      (storing QUERY_TEMPLATES (Demo.json Stored.templates)) /\
  saveQueryTemplate (Stored.template "d" "project = D")
    (storing QUERY_TEMPLATES (Demo.json Stored.templates))
  = saveQueryTemplates (JArr [Stored.template "a" "project = A";
                              Stored.template "b" "project = B";
                              Stored.template "c" "project = C";
                              Stored.template "d" "project = D"])
      (storing QUERY_TEMPLATES (Demo.json Stored.templates)).
Proof.
  set (s := storing QUERY_TEMPLATES (Demo.json Stored.templates)).
  assert (Hload : loadQueryTemplates s
                  = (Ok (JArr [Stored.template "a" "project = A";
                               Stored.template "b" "project = B";
                               Stored.template "c" "project = C"]), s)).
  { vm_compute. reflexivity. }
  assert (Hall : Forall (fun t => nullish t = false)
                   [Stored.template "a" "project = A"; Stored.template "b" "project = B";
                    Stored.template "c" "project = C"]).
  { repeat constructor. }
  split.
  - destruct (saveQueryTemplate_adds_or_updates (Stored.template "b" "project = B2")
                s s _ Hload Hall eq_refl)
      as (written & Hrun & [(pre & old & post & Hsplit & Hold & Hpre & Hw)|[Hnone Hw]]).
    + rewrite Hrun, Hw.
      destruct pre as [|x0 [|x1 [|x2 [|x3 pre]]]]; cbn [app] in Hsplit;
        inversion Hsplit; subst; try discriminate Hold.
      reflexivity.
    + inversion Hnone as [|? ? _ Hrest]. inversion Hrest as [|? ? Hb _].
      discriminate Hb.
  - destruct (saveQueryTemplate_adds_or_updates (Stored.template "d" "project = D")
                s s _ Hload Hall eq_refl)
      as (written & Hrun & [(pre & old & post & Hsplit & Hold & Hpre & Hw)|[Hnone Hw]]).
    + destruct pre as [|x0 [|x1 [|x2 [|x3 pre]]]]; cbn [app] in Hsplit;
        inversion Hsplit; subst; discriminate Hold.
    + rewrite Hrun, Hw. reflexivity.
Defined.

Lemma deleteQueryTemplate_witness :
  deleteQueryTemplate "b" (storing QUERY_TEMPLATES (Demo.json Stored.templates))
  = saveQueryTemplates (JArr [Stored.template "a" "project = A";
                              Stored.template "c" "project = C"])
      (storing QUERY_TEMPLATES (Demo.json Stored.templates)).
Proof.
  set (s := storing QUERY_TEMPLATES (Demo.json Stored.templates)).
  assert (Hload : loadQueryTemplates s
                  = (Ok (JArr [Stored.template "a" "project = A";
                               Stored.template "b" "project = B";
                               Stored.template "c" "project = C"]), s)).
  { vm_compute. reflexivity. }
  assert (Hall : Forall (fun t => nullish t = false)
                   [Stored.template "a" "project = A"; Stored.template "b" "project = B";
                    Stored.template "c" "project = C"]).
  { repeat constructor. }
  destruct (deleteQueryTemplate_removes_every_match "b" s s _ Hload Hall) as (Hrun & _).
  exact Hrun.
Defined.


(** ** The connection store at work *)

Lemma connectionStore_testConnection_witness :
  exists a',
    connectionStore_testConnection
      (fun _ _ => Response (JObj [("data", JObj [("name", JStr "me")])]))
      {| connection := {| storeServerUrl := "https://jira.example.com/";
                          storeToken := "t0ken"; isConnected := false;
                          isLoading := false; storeError := JUndefined;
                          client := None; userInfo := JNull |};
         query := initialQueryStore; net := offline; stores := emptyStores |}
    = (Ok true, a') /\
    isConnected (connection a') = true /\
    userInfo (connection a') = JObj [("name", JStr "me")] /\
    map url (sent (net a')) = ["https://jira.example.com/rest/api/2/myself"] /\
    getItem (sessionStorage (stores a')) CONNECTION
    = Some (Demo.json (JObj [("serverUrl", JStr "https://jira.example.com/");
                             ("email", JStr ""); ("token", JStr "");
                             ("isConnected", JBool false)])).
Proof.
  pose (server := (fun _ _ => Response (JObj [("data", JObj [("name", JStr "me")])]))
                  : Server).
  pose (a := {| connection := {| storeServerUrl := "https://jira.example.com/";
                                 storeToken := "t0ken"; isConnected := false;
                                 isLoading := false; storeError := JUndefined;
                                 client := None; userInfo := JNull |};
                query := initialQueryStore; net := offline; stores := emptyStores |}).
  assert (Hu : storeServerUrl (connection a) <> "") by discriminate.
  assert (Ht : storeToken (connection a) <> "") by discriminate.
  assert (Hfail : forall error request,
             server (List.length (sent (net a))) request = Failure error ->
             nullish error = false) by (intros error request H; discriminate H).
  assert (Hresp : forall response request,
             server (List.length (sent (net a))) request = Response response ->
             nullish response = false).
  { intros response request H. inversion H. reflexivity. }
  assert (Hq : nullish (caught QuotaExceededError) = false) by reflexivity.
  destruct (connectionStore_testConnection_outcome server a Hu Ht Hfail Hresp Hq)
    as (b & a' & settings & Hrun & Hsent & _ & Hconnected & _ & _ & Hsettings & Hsaved).
  vm_compute in Hsettings. inversion Hsettings; subst settings.
  cbv zeta in Hsaved.
  match type of Hsaved with
  | if ?accepted then _ else _ =>
      replace accepted with true in Hsaved by (vm_compute; reflexivity)
  end.
  destruct Hsaved as (Hb & Hinfo & Hitem).
  rewrite Hb in Hrun, Hconnected.
  exists a'. fold server a. split; [exact Hrun|]. split; [exact Hconnected|].
  split; [rewrite Hinfo; reflexivity|]. split; [rewrite Hsent; reflexivity|].
  rewrite Hitem. vm_compute. reflexivity.
Defined.

(** ** The query store at work *)


Lemma queryStore_loadMoreResults_witness :
  exists a',
    queryStore_loadMoreResults
      (fun _ _ => Response (JObj [("data", JObj [("startAt", of_nat 2);
                                                ("total", of_nat 3);
                                                ("issues", JArr [Demo.parentRef])])]))
      {| connection := {| storeServerUrl := "https://jira.example.com";
                          storeToken := "t0ken"; isConnected := true;
                          isLoading := false; storeError := JUndefined;
                          client := Some (newJiraClient "https://jira.example.com" "t0ken");
                          userInfo := JNull |};
         query := {| jql := "project = PROJ"; results := JArr [Demo.bare; Demo.bare];
                     totalCount := of_nat 3;
                     queryLoading := false; queryError := JUndefined;
                     startAt := of_nat 2; maxResults := of_Z 50;
                     queryHistory := JArr [] |};
         net := offline; stores := emptyStores |}
    = (Ok tt, a') /\
    results (query a') = JArr [Demo.bare; Demo.bare; Demo.parentRef] /\
    startAt (query a') = of_nat 3 /\
    map (fun r => lookup "startAt" (params r)) (sent (net a')) = [Some (of_nat 2)].
Proof.
  pose (server := (fun _ _ => Response (JObj [("data", JObj [("startAt", of_nat 2);
                                                           ("total", of_nat 3);
                                                           ("issues",
                                                            JArr [Demo.parentRef])])]))
                  : Server).
  pose (c := newJiraClient "https://jira.example.com" "t0ken").
  pose (a := {| connection := {| storeServerUrl := "https://jira.example.com";
                                 storeToken := "t0ken"; isConnected := true;
                                 isLoading := false; storeError := JUndefined;
                                 client := Some c; userInfo := JNull |};
                query := {| jql := "project = PROJ"; results := JArr [Demo.bare; Demo.bare];
                            totalCount := of_nat 3; queryLoading := false;
                            queryError := JUndefined; startAt := of_nat 2;
                            maxResults := of_Z 50; queryHistory := JArr [] |};
                net := offline; stores := emptyStores |}).
  assert (Hfail : forall error request,
             server (List.length (sent (net a))) request = Failure error ->
             nullish error = false) by (intros error request H; discriminate H).
  destruct (queryStore_loadMoreResults_outcome server a Hfail) as (a' & Hrun & Hrest).
  cbn [a connection client query queryLoading orb startAt totalCount] in Hrest.
  replace (js_ge (of_nat 2) (of_nat 3)) with false in Hrest by (vm_compute; reflexivity).
  cbv zeta in Hrest.
  destruct Hrest as (Hsent & _ & _ & _ & _ & _ & Hpage).
  destruct (Hpage [Demo.bare; Demo.bare] [Demo.parentRef] eq_refl eq_refl)
    as (Hresults & _ & _ & Hstart).
  exists a'. fold server c a. split; [exact Hrun|].
  split; [exact Hresults|]. split; [exact (Hstart eq_refl)|].
  rewrite Hsent. reflexivity.
Defined.

